(** * Canvas editing engine of the image studio

    A shallow embedding of the [ImageStudio] component: the edit-state
    model, the history manager (commit, debounced commit, undo, redo and
    the restoring effect), the pointer protocol of the tool controller,
    the crop action and the renderer, followed by the properties
    established about them.

    Conventions of the embedding.

    - A JavaScript number that the component only adds, subtracts,
      multiplies by a constant or compares is an exact rational ([Q]);
      floating-point rounding, NaN and the infinities are outside the
      model.  Values that go through [Math.cos], [Math.sin], [Math.sqrt]
      or [Math.PI] are real numbers ([R]), reached through [Q2R].
    - History indices and timer identifiers are integers ([Z]); the index
      can become negative in the component, so it is not a [nat].
    - Every [useState] cell and every [useRef] cell of the component is a
      field of the record [Studio].  An event handler reads the fields of
      the state it was rendered with (its closure) and queues updates; the
      queue is applied when the handler returns, and the effect whose
      dependencies are [history] and [historyIndex] then runs if one of
      them was replaced.
    - Paths and shapes are objects that [handleMouseMove] writes in
      place.  Each carries an identity ([obj]); a write reaches every
      holder of the object: the cells, the snapshots of the history and
      the closures of pending timers.  The field [objects] of [Studio]
      counts the identities handed out.  Texts, adjustments, transforms
      and the arrays themselves are never written in place and carry no
      identity.
    - The 2D drawing context is a trace of drawing commands.  The one
      value the component reads back from it, the measured width of a
      text, stays inside the command that uses it: [StrokeMeasured s rx ry
      pad rh] is [strokeRect(rx, ry, measureText(s).width + pad, rh)]. *)

From Stdlib Require Import ZArith QArith Qabs Qminmax Qround List String Bool.
From Stdlib Require Import Lia.
From Stdlib Require Import Reals Qreals Lra.
From Stdlib Require Lqa.
From Stdlib Require Import Ascii.
Import ListNotations.

Open Scope string_scope.
Open Scope list_scope.
Open Scope Z_scope.

(** ** Data model *)

Module Adjustments.
Record t := mk {
  brightness : Q;
  contrast : Q;
  saturate : Q;
  grayscale : Q;
  sepia : Q;
  invert : Q;
  blur : Q;
  hueRotate : Q
}.
End Adjustments.

Definition INITIAL_ADJUSTMENTS : Adjustments.t :=
  Adjustments.mk 100 100 100 0 0 0 0 0.

Module Flip.
Record t := mk { horizontal : bool; vertical : bool }.
End Flip.

Module Transforms.
Record t := mk { rotate : Q; flip : Flip.t }.
End Transforms.

Definition INITIAL_TRANSFORMS : Transforms.t :=
  Transforms.mk 0 (Flip.mk false false).

Inductive Tool :=
| adjust | transform | crop | draw | text | shape | select | harmonize
| remove.

(** [ActiveTool] is the union of the tool names and [null]. *)
Definition ActiveTool := option Tool.

Definition Tool_eqb (a b : Tool) : bool :=
  match a, b with
  | adjust, adjust | transform, transform | crop, crop | draw, draw
  | text, text | shape, shape | select, select | harmonize, harmonize
  | remove, remove => true
  | _, _ => false
  end.

(** [activeTool === name] *)
Definition tool_is (a : ActiveTool) (name : Tool) : bool :=
  match a with
  | Some t => Tool_eqb t name
  | None => false
  end.

Module Point.
Record t := mk { x : Q; y : Q }.
End Point.

(** [obj] is the identity of the object: two paths with the same [obj]
    are one object of the program.  The component writes to paths and
    shapes in place, so it matters who else holds them. *)
Module Path.
Record t := mk {
  points : list Point.t;
  color : string;
  size : Q;
  id : string;
  obj : nat
}.
End Path.

Module TextElement.
Record t := mk {
  text : string;
  x : Q;
  y : Q;
  color : string;
  size : Q;
  id : string;
  hasOutline : bool;
  outlineColor : string;
  outlineWidth : Q
}.
End TextElement.

Inductive ShapeType := rectangle | circle | line.

Module ShapeElement.
Record t := mk {
  type : ShapeType;
  x1 : Q;
  y1 : Q;
  x2 : Q;
  y2 : Q;
  color : string;
  strokeWidth : Q;
  id : string;
  obj : nat
}.
End ShapeElement.

Module EditState.
Record t := mk {
  adjustments : Adjustments.t;
  transforms : Transforms.t;
  paths : list Path.t;
  texts : list TextElement.t;
  shapes : list ShapeElement.t
}.
End EditState.

Definition INITIAL_EDIT_STATE : EditState.t :=
  EditState.mk INITIAL_ADJUSTMENTS INITIAL_TRANSFORMS [] [] [].

(** [Partial<EditState>]: every field may be absent. *)
Module PartialEditState.
Record t := mk {
  adjustments : option Adjustments.t;
  transforms : option Transforms.t;
  paths : option (list Path.t);
  texts : option (list TextElement.t);
  shapes : option (list ShapeElement.t)
}.
Definition empty : t := mk None None None None None.
End PartialEditState.

Module Rect.
Record t := mk { x : Q; y : Q; width : Q; height : Q }.
End Rect.

Inductive ElementKind := text_element | shape_element.

(** The selected element: a type tag and an id, never the element. *)
Module Selection.
Record t := mk { type : ElementKind; id : string }.
End Selection.
Definition Selection := Selection.t.

(** ** Drawing commands and images

    An image is what an encoded-image string decodes to: its intrinsic
    size and its pixels.  Pixels are either an opaque payload (an upload,
    a service response) or the content of a canvas, given by the commands
    that drew it, restricted to a source rectangle (what
    [drawImage(canvas, sx, sy, sw, sh, 0, 0, sw, sh)] copies). *)

#[local] Unset Elimination Schemes.
Inductive Pixels :=
| Encoded (payload : string)
| CanvasRegion (ops : list cmd) (sx sy sw sh : Q)
with cmd :=
| SetCanvasSize (w h : R)
| Save
| Restore
| Translate (tx ty : R)
| Rotate (rad : R)
| Scale (sx sy : Z)
| SetFilter (chain : list (string * Q * string))
| DrawImage (src : Pixels) (dx dy dw dh : Q)
| DrawOverlay (src : Pixels) (dx dy : Q) (dw dh : R)
| BeginPath
| SetStrokeStyle (c : string)
| SetFillStyle (c : string)
| SetLineWidth (w : Q)
| SetLineCap (s : string)
| SetLineJoin (s : string)
| SetLineDash (segments : list Q)
| MoveTo (px py : Q)
| LineTo (px py : Q)
| RectPath (rx ry rw rh : Q)
| Arc (cx cy : Q) (radius startAngle endAngle : R)
| Stroke
| SetFont (px : Q)
| SetTextAlign (s : string)
| SetTextBaseline (s : string)
| StrokeText (s : string) (tx ty : Q)
| FillText (s : string) (tx ty : Q)
| SetGlobalAlpha (a : Q)
| FillRect (rx ry : Q) (rw rh : R)
| ClearRect (rx ry rw rh : Q)
| StrokeRect (rx ry rw rh : Q)
| StrokeMeasured (s : string) (rx ry pad rh : Q).
#[local] Set Elimination Schemes.

Record Image := mkImage {
  naturalWidth : Q;
  naturalHeight : Q;
  pixels : Pixels
}.

(** The settings of the tool panels; the pointer protocol only reads
    them. *)
Record ToolOptions := mkToolOptions {
  brushColor : string;
  brushSize : Q;
  textColor : string;
  textSize : Q;
  hasTextOutline : bool;
  textOutlineColor : string;
  textOutlineSize : Q;
  shapeType : ShapeType;
  shapeColor : string;
  shapeStrokeWidth : Q;
  removeBrushSize : Q
}.

Definition INITIAL_OPTIONS : ToolOptions :=
  mkToolOptions "#ffffff" 5 "#ffffff" 32 false "#000000" 2 rectangle
    "#4285F4" 4 20.

(** ** Component state *)

Record Studio := mkStudio {
  originalImage : option Image;
  fileName : string;
  exportFileName : string;
  adjustments : Adjustments.t;
  transforms : Transforms.t;
  paths : list Path.t;
  texts : list TextElement.t;
  shapes : list ShapeElement.t;
  cropRect : option Rect.t;
  isDrawing : bool;
  options : ToolOptions;
  currentText : string;
  textPosition : option Point.t;
  selectedElement : option Selection;
  isDragging : bool;
  dragStartPoint : Point.t;
  foregroundImage : option Image;
  removeMask : list Path.t;
  subjectMask : option Image;
  history : list EditState.t;
  historyIndex : Z;
  startPoint : option Point.t;
  historyTimeoutRef : option Z;
  activeTool : ActiveTool;
  objects : nat
}.

Definition setOriginalImage (v : option Image) (s : Studio) : Studio :=
  let 'mkStudio _ fileName exportFileName adjustments transforms paths texts
      shapes cropRect isDrawing options currentText textPosition
      selectedElement isDragging dragStartPoint foregroundImage removeMask
      subjectMask history historyIndex startPoint historyTimeoutRef activeTool
      objects := s in
  mkStudio v fileName exportFileName adjustments transforms paths texts shapes
    cropRect isDrawing options currentText textPosition selectedElement
    isDragging dragStartPoint foregroundImage removeMask subjectMask history
    historyIndex startPoint historyTimeoutRef activeTool objects.

Definition setFileName (v : string) (s : Studio) : Studio :=
  let 'mkStudio originalImage _ exportFileName adjustments transforms paths
      texts shapes cropRect isDrawing options currentText textPosition
      selectedElement isDragging dragStartPoint foregroundImage removeMask
      subjectMask history historyIndex startPoint historyTimeoutRef activeTool
      objects := s in
  mkStudio originalImage v exportFileName adjustments transforms paths texts
    shapes cropRect isDrawing options currentText textPosition selectedElement
    isDragging dragStartPoint foregroundImage removeMask subjectMask history
    historyIndex startPoint historyTimeoutRef activeTool objects.

Definition setExportFileName (v : string) (s : Studio) : Studio :=
  let 'mkStudio originalImage fileName _ adjustments transforms paths texts
      shapes cropRect isDrawing options currentText textPosition
      selectedElement isDragging dragStartPoint foregroundImage removeMask
      subjectMask history historyIndex startPoint historyTimeoutRef activeTool
      objects := s in
  mkStudio originalImage fileName v adjustments transforms paths texts shapes
    cropRect isDrawing options currentText textPosition selectedElement
    isDragging dragStartPoint foregroundImage removeMask subjectMask history
    historyIndex startPoint historyTimeoutRef activeTool objects.

Definition setAdjustments (v : Adjustments.t) (s : Studio) : Studio :=
  let 'mkStudio originalImage fileName exportFileName _ transforms paths texts
      shapes cropRect isDrawing options currentText textPosition
      selectedElement isDragging dragStartPoint foregroundImage removeMask
      subjectMask history historyIndex startPoint historyTimeoutRef activeTool
      objects := s in
  mkStudio originalImage fileName exportFileName v transforms paths texts
    shapes cropRect isDrawing options currentText textPosition selectedElement
    isDragging dragStartPoint foregroundImage removeMask subjectMask history
    historyIndex startPoint historyTimeoutRef activeTool objects.

Definition setTransforms (v : Transforms.t) (s : Studio) : Studio :=
  let 'mkStudio originalImage fileName exportFileName adjustments _ paths
      texts shapes cropRect isDrawing options currentText textPosition
      selectedElement isDragging dragStartPoint foregroundImage removeMask
      subjectMask history historyIndex startPoint historyTimeoutRef activeTool
      objects := s in
  mkStudio originalImage fileName exportFileName adjustments v paths texts
    shapes cropRect isDrawing options currentText textPosition selectedElement
    isDragging dragStartPoint foregroundImage removeMask subjectMask history
    historyIndex startPoint historyTimeoutRef activeTool objects.

Definition setPaths (v : list Path.t) (s : Studio) : Studio :=
  let 'mkStudio originalImage fileName exportFileName adjustments transforms _
      texts shapes cropRect isDrawing options currentText textPosition
      selectedElement isDragging dragStartPoint foregroundImage removeMask
      subjectMask history historyIndex startPoint historyTimeoutRef activeTool
      objects := s in
  mkStudio originalImage fileName exportFileName adjustments transforms v
    texts shapes cropRect isDrawing options currentText textPosition
    selectedElement isDragging dragStartPoint foregroundImage removeMask
    subjectMask history historyIndex startPoint historyTimeoutRef activeTool
    objects.

Definition setTexts (v : list TextElement.t) (s : Studio) : Studio :=
  let 'mkStudio originalImage fileName exportFileName adjustments transforms
      paths _ shapes cropRect isDrawing options currentText textPosition
      selectedElement isDragging dragStartPoint foregroundImage removeMask
      subjectMask history historyIndex startPoint historyTimeoutRef activeTool
      objects := s in
  mkStudio originalImage fileName exportFileName adjustments transforms paths
    v shapes cropRect isDrawing options currentText textPosition
    selectedElement isDragging dragStartPoint foregroundImage removeMask
    subjectMask history historyIndex startPoint historyTimeoutRef activeTool
    objects.

Definition setShapes (v : list ShapeElement.t) (s : Studio) : Studio :=
  let 'mkStudio originalImage fileName exportFileName adjustments transforms
      paths texts _ cropRect isDrawing options currentText textPosition
      selectedElement isDragging dragStartPoint foregroundImage removeMask
      subjectMask history historyIndex startPoint historyTimeoutRef activeTool
      objects := s in
  mkStudio originalImage fileName exportFileName adjustments transforms paths
    texts v cropRect isDrawing options currentText textPosition
    selectedElement isDragging dragStartPoint foregroundImage removeMask
    subjectMask history historyIndex startPoint historyTimeoutRef activeTool
    objects.

Definition setCropRect (v : option Rect.t) (s : Studio) : Studio :=
  let 'mkStudio originalImage fileName exportFileName adjustments transforms
      paths texts shapes _ isDrawing options currentText textPosition
      selectedElement isDragging dragStartPoint foregroundImage removeMask
      subjectMask history historyIndex startPoint historyTimeoutRef activeTool
      objects := s in
  mkStudio originalImage fileName exportFileName adjustments transforms paths
    texts shapes v isDrawing options currentText textPosition selectedElement
    isDragging dragStartPoint foregroundImage removeMask subjectMask history
    historyIndex startPoint historyTimeoutRef activeTool objects.

Definition setIsDrawing (v : bool) (s : Studio) : Studio :=
  let 'mkStudio originalImage fileName exportFileName adjustments transforms
      paths texts shapes cropRect _ options currentText textPosition
      selectedElement isDragging dragStartPoint foregroundImage removeMask
      subjectMask history historyIndex startPoint historyTimeoutRef activeTool
      objects := s in
  mkStudio originalImage fileName exportFileName adjustments transforms paths
    texts shapes cropRect v options currentText textPosition selectedElement
    isDragging dragStartPoint foregroundImage removeMask subjectMask history
    historyIndex startPoint historyTimeoutRef activeTool objects.

Definition setCurrentText (v : string) (s : Studio) : Studio :=
  let 'mkStudio originalImage fileName exportFileName adjustments transforms
      paths texts shapes cropRect isDrawing options _ textPosition
      selectedElement isDragging dragStartPoint foregroundImage removeMask
      subjectMask history historyIndex startPoint historyTimeoutRef activeTool
      objects := s in
  mkStudio originalImage fileName exportFileName adjustments transforms paths
    texts shapes cropRect isDrawing options v textPosition selectedElement
    isDragging dragStartPoint foregroundImage removeMask subjectMask history
    historyIndex startPoint historyTimeoutRef activeTool objects.

Definition setTextPosition (v : option Point.t) (s : Studio) : Studio :=
  let 'mkStudio originalImage fileName exportFileName adjustments transforms
      paths texts shapes cropRect isDrawing options currentText _
      selectedElement isDragging dragStartPoint foregroundImage removeMask
      subjectMask history historyIndex startPoint historyTimeoutRef activeTool
      objects := s in
  mkStudio originalImage fileName exportFileName adjustments transforms paths
    texts shapes cropRect isDrawing options currentText v selectedElement
    isDragging dragStartPoint foregroundImage removeMask subjectMask history
    historyIndex startPoint historyTimeoutRef activeTool objects.

Definition setSelectedElement (v : option Selection) (s : Studio) : Studio :=
  let 'mkStudio originalImage fileName exportFileName adjustments transforms
      paths texts shapes cropRect isDrawing options currentText textPosition _
      isDragging dragStartPoint foregroundImage removeMask subjectMask history
      historyIndex startPoint historyTimeoutRef activeTool objects := s in
  mkStudio originalImage fileName exportFileName adjustments transforms paths
    texts shapes cropRect isDrawing options currentText textPosition v
    isDragging dragStartPoint foregroundImage removeMask subjectMask history
    historyIndex startPoint historyTimeoutRef activeTool objects.

Definition setIsDragging (v : bool) (s : Studio) : Studio :=
  let 'mkStudio originalImage fileName exportFileName adjustments transforms
      paths texts shapes cropRect isDrawing options currentText textPosition
      selectedElement _ dragStartPoint foregroundImage removeMask subjectMask
      history historyIndex startPoint historyTimeoutRef activeTool
      objects := s in
  mkStudio originalImage fileName exportFileName adjustments transforms paths
    texts shapes cropRect isDrawing options currentText textPosition
    selectedElement v dragStartPoint foregroundImage removeMask subjectMask
    history historyIndex startPoint historyTimeoutRef activeTool objects.

Definition setDragStartPoint (v : Point.t) (s : Studio) : Studio :=
  let 'mkStudio originalImage fileName exportFileName adjustments transforms
      paths texts shapes cropRect isDrawing options currentText textPosition
      selectedElement isDragging _ foregroundImage removeMask subjectMask
      history historyIndex startPoint historyTimeoutRef activeTool
      objects := s in
  mkStudio originalImage fileName exportFileName adjustments transforms paths
    texts shapes cropRect isDrawing options currentText textPosition
    selectedElement isDragging v foregroundImage removeMask subjectMask
    history historyIndex startPoint historyTimeoutRef activeTool objects.

Definition setForegroundImage (v : option Image) (s : Studio) : Studio :=
  let 'mkStudio originalImage fileName exportFileName adjustments transforms
      paths texts shapes cropRect isDrawing options currentText textPosition
      selectedElement isDragging dragStartPoint _ removeMask subjectMask
      history historyIndex startPoint historyTimeoutRef activeTool
      objects := s in
  mkStudio originalImage fileName exportFileName adjustments transforms paths
    texts shapes cropRect isDrawing options currentText textPosition
    selectedElement isDragging dragStartPoint v removeMask subjectMask history
    historyIndex startPoint historyTimeoutRef activeTool objects.

Definition setRemoveMask (v : list Path.t) (s : Studio) : Studio :=
  let 'mkStudio originalImage fileName exportFileName adjustments transforms
      paths texts shapes cropRect isDrawing options currentText textPosition
      selectedElement isDragging dragStartPoint foregroundImage _ subjectMask
      history historyIndex startPoint historyTimeoutRef activeTool
      objects := s in
  mkStudio originalImage fileName exportFileName adjustments transforms paths
    texts shapes cropRect isDrawing options currentText textPosition
    selectedElement isDragging dragStartPoint foregroundImage v subjectMask
    history historyIndex startPoint historyTimeoutRef activeTool objects.

Definition setSubjectMask (v : option Image) (s : Studio) : Studio :=
  let 'mkStudio originalImage fileName exportFileName adjustments transforms
      paths texts shapes cropRect isDrawing options currentText textPosition
      selectedElement isDragging dragStartPoint foregroundImage removeMask _
      history historyIndex startPoint historyTimeoutRef activeTool
      objects := s in
  mkStudio originalImage fileName exportFileName adjustments transforms paths
    texts shapes cropRect isDrawing options currentText textPosition
    selectedElement isDragging dragStartPoint foregroundImage removeMask v
    history historyIndex startPoint historyTimeoutRef activeTool objects.

Definition setHistory (v : list EditState.t) (s : Studio) : Studio :=
  let 'mkStudio originalImage fileName exportFileName adjustments transforms
      paths texts shapes cropRect isDrawing options currentText textPosition
      selectedElement isDragging dragStartPoint foregroundImage removeMask
      subjectMask _ historyIndex startPoint historyTimeoutRef activeTool
      objects := s in
  mkStudio originalImage fileName exportFileName adjustments transforms paths
    texts shapes cropRect isDrawing options currentText textPosition
    selectedElement isDragging dragStartPoint foregroundImage removeMask
    subjectMask v historyIndex startPoint historyTimeoutRef activeTool
    objects.

Definition setHistoryIndex (v : Z) (s : Studio) : Studio :=
  let 'mkStudio originalImage fileName exportFileName adjustments transforms
      paths texts shapes cropRect isDrawing options currentText textPosition
      selectedElement isDragging dragStartPoint foregroundImage removeMask
      subjectMask history _ startPoint historyTimeoutRef activeTool
      objects := s in
  mkStudio originalImage fileName exportFileName adjustments transforms paths
    texts shapes cropRect isDrawing options currentText textPosition
    selectedElement isDragging dragStartPoint foregroundImage removeMask
    subjectMask history v startPoint historyTimeoutRef activeTool objects.

Definition setStartPoint (v : option Point.t) (s : Studio) : Studio :=
  let 'mkStudio originalImage fileName exportFileName adjustments transforms
      paths texts shapes cropRect isDrawing options currentText textPosition
      selectedElement isDragging dragStartPoint foregroundImage removeMask
      subjectMask history historyIndex _ historyTimeoutRef activeTool
      objects := s in
  mkStudio originalImage fileName exportFileName adjustments transforms paths
    texts shapes cropRect isDrawing options currentText textPosition
    selectedElement isDragging dragStartPoint foregroundImage removeMask
    subjectMask history historyIndex v historyTimeoutRef activeTool objects.

Definition setHistoryTimeoutRef (v : option Z) (s : Studio) : Studio :=
  let 'mkStudio originalImage fileName exportFileName adjustments transforms
      paths texts shapes cropRect isDrawing options currentText textPosition
      selectedElement isDragging dragStartPoint foregroundImage removeMask
      subjectMask history historyIndex startPoint _ activeTool objects := s in
  mkStudio originalImage fileName exportFileName adjustments transforms paths
    texts shapes cropRect isDrawing options currentText textPosition
    selectedElement isDragging dragStartPoint foregroundImage removeMask
    subjectMask history historyIndex startPoint v activeTool objects.

Definition setActiveTool (v : ActiveTool) (s : Studio) : Studio :=
  let 'mkStudio originalImage fileName exportFileName adjustments transforms
      paths texts shapes cropRect isDrawing options currentText textPosition
      selectedElement isDragging dragStartPoint foregroundImage removeMask
      subjectMask history historyIndex startPoint historyTimeoutRef _
      objects := s in
  mkStudio originalImage fileName exportFileName adjustments transforms paths
    texts shapes cropRect isDrawing options currentText textPosition
    selectedElement isDragging dragStartPoint foregroundImage removeMask
    subjectMask history historyIndex startPoint historyTimeoutRef v objects.

Definition setObjects (v : nat) (s : Studio) : Studio :=
  let 'mkStudio originalImage fileName exportFileName adjustments transforms
      paths texts shapes cropRect isDrawing options currentText textPosition
      selectedElement isDragging dragStartPoint foregroundImage removeMask
      subjectMask history historyIndex startPoint historyTimeoutRef activeTool
      _ := s in
  mkStudio originalImage fileName exportFileName adjustments transforms paths
    texts shapes cropRect isDrawing options currentText textPosition
    selectedElement isDragging dragStartPoint foregroundImage removeMask
    subjectMask history historyIndex startPoint historyTimeoutRef activeTool
    v.

(** The five cells that make up the edit state, read together. *)
Definition current (s : Studio) : EditState.t :=
  EditState.mk (adjustments s) (transforms s) (paths s) (texts s) (shapes s).

(** ** Update queue and effects *)

(** What a handler has queued: the state with the queued updates applied,
    and whether [setHistory] was called.  [setHistory] is always given a
    new array, so a call always changes that dependency of the restoring
    effect. *)
Record Pending := mkPending { st : Studio; historyReplaced : bool }.

Definition queue (s : Studio) : Pending := mkPending s false.

Definition upd (f : Studio -> Studio) (p : Pending) : Pending :=
  mkPending (f (st p)) (historyReplaced p).

Definition replaceHistory (h : list EditState.t) (p : Pending) : Pending :=
  mkPending (setHistory h (st p)) true.

(** [useEffect(..., [history, historyIndex])]: restores the five cells
    from the snapshot at the current index, if the index is in range. *)
Definition restoreEffect (s : Studio) : Studio :=
  if (historyIndex s <? 0)
     || (Z.of_nat (List.length (history s)) <=? historyIndex s)
  then s
  else
    match nth_error (history s) (Z.to_nat (historyIndex s)) with
    | Some stateToRestore =>
        setShapes (EditState.shapes stateToRestore)
          (setTexts (EditState.texts stateToRestore)
             (setPaths (EditState.paths stateToRestore)
                (setTransforms (EditState.transforms stateToRestore)
                   (setAdjustments (EditState.adjustments stateToRestore)
                      s))))
    | None => s
    end.

(** The render that follows a handler that was rendered with [s]: the
    queued updates become the state, and the restoring effect runs when
    [history] or [historyIndex] differs from the previous render. *)
Definition flush (s : Studio) (p : Pending) : Studio :=
  if historyReplaced p || negb (historyIndex (st p) =? historyIndex s)
  then restoreEffect (st p)
  else st p.

(** ** History management *)

(** [{ ...base, ...newStates }] *)
Definition spread (base : EditState.t) (newStates : PartialEditState.t)
  : EditState.t :=
  EditState.mk
    (match PartialEditState.adjustments newStates with
     | Some v => v | None => EditState.adjustments base end)
    (match PartialEditState.transforms newStates with
     | Some v => v | None => EditState.transforms base end)
    (match PartialEditState.paths newStates with
     | Some v => v | None => EditState.paths base end)
    (match PartialEditState.texts newStates with
     | Some v => v | None => EditState.texts base end)
    (match PartialEditState.shapes newStates with
     | Some v => v | None => EditState.shapes base end).

(** [l.slice(0, e)]: a negative end counts from the end of the array. *)
Definition slice0 {A : Type} (l : list A) (e : Z) : list A :=
  let len := Z.of_nat (List.length l) in
  let k := if e <? 0 then Z.max (len + e) 0 else Z.min e len in
  firstn (Z.to_nat k) l.

(** [recordHistory], as created by the render of [s]. *)
Definition recordHistory (s : Studio) (newStates : PartialEditState.t)
  (p : Pending) : Pending :=
  let nextState := spread (current s) newStates in
  let newHistory := slice0 (history s) (historyIndex s + 1) ++ [nextState] in
  upd (setHistoryIndex (Z.of_nat (List.length newHistory) - 1))
    (replaceHistory newHistory p).

Definition handleUndo (s : Studio) : Studio :=
  flush s
    (if 0 <? historyIndex s
     then upd (fun q => setHistoryIndex (historyIndex q - 1) q) (queue s)
     else queue s).

Definition handleRedo (s : Studio) : Studio :=
  flush s
    (if historyIndex s <? Z.of_nat (List.length (history s)) - 1
     then upd (fun q => setHistoryIndex (historyIndex q - 1) q) (queue s)
     else queue s).

Definition resetEdits (initialState : EditState.t) (p : Pending) : Pending :=
  let p := upd (setAdjustments (EditState.adjustments initialState)) p in
  let p := upd (setTransforms (EditState.transforms initialState)) p in
  let p := upd (setPaths (EditState.paths initialState)) p in
  let p := upd (setTexts (EditState.texts initialState)) p in
  let p := upd (setShapes (EditState.shapes initialState)) p in
  let p := upd (setActiveTool None) p in
  let p := upd (setCropRect None) p in
  let p := upd (setTextPosition None) p in
  let p := upd (setCurrentText EmptyString) p in
  let p := upd (setSelectedElement None) p in
  let p := upd (setForegroundImage None) p in
  let p := upd (setRemoveMask []) p in
  let p := upd (setSubjectMask None) p in
  let p := replaceHistory [initialState] p in
  upd (setHistoryIndex 0) p.

Definition handleFullReset (s : Studio) : Studio :=
  let p := upd (setOriginalImage None) (queue s) in
  let p := upd (setFileName EmptyString) p in
  let p := upd (setExportFileName "hiskon-photoshop-export") p in
  flush s (resetEdits INITIAL_EDIT_STATE p).

(** The part of [handleFileChange] that follows a successful read of the
    main image: [image] is what the file decodes to. *)
Definition handleFileLoaded (s : Studio) (image : Image) (name : string)
  (stem : string) : Studio :=
  let p := upd (setOriginalImage (Some image)) (queue s) in
  let p := upd (setFileName name) p in
  let p := upd (setExportFileName stem) p in
  flush s (resetEdits INITIAL_EDIT_STATE p).

(** The state of the component when it is mounted. *)
Definition mounted : Studio :=
  mkStudio None EmptyString "hiskon-photoshop-export" INITIAL_ADJUSTMENTS
    INITIAL_TRANSFORMS [] [] [] None false INITIAL_OPTIONS EmptyString None
    None false
    (Point.mk 0 0) None [] None [] (-1) None None None 0%nat.

(** The four buttons of the transform panel. *)
Definition commitTransforms (s : Studio) (t : Transforms.t) : Studio :=
  flush s
    (recordHistory s
       (PartialEditState.mk None (Some t) None None None)
       (upd (setTransforms t) (queue s))).

(** [a % 360]: the remainder of the division truncated towards zero. *)
Definition mod360 (a : Q) : Q :=
  (a - 360 * inject_Z (Z.quot (Qnum a) (Z.pos (Qden a) * 360)))%Q.

Definition rotateLeft (s : Studio) : Studio :=
  let t := transforms s in
  commitTransforms s
    (Transforms.mk (mod360 (Transforms.rotate t - 90 + 360))
       (Transforms.flip t)).

Definition rotateRight (s : Studio) : Studio :=
  let t := transforms s in
  commitTransforms s
    (Transforms.mk (mod360 (Transforms.rotate t + 90)) (Transforms.flip t)).

Definition flipHorizontal (s : Studio) : Studio :=
  let t := transforms s in
  commitTransforms s
    (Transforms.mk (Transforms.rotate t)
       (Flip.mk (negb (Flip.horizontal (Transforms.flip t)))
          (Flip.vertical (Transforms.flip t)))).

Definition flipVertical (s : Studio) : Studio :=
  let t := transforms s in
  commitTransforms s
    (Transforms.mk (Transforms.rotate t)
       (Flip.mk (Flip.horizontal (Transforms.flip t))
          (negb (Flip.vertical (Transforms.flip t))))).

(** ** Pointer protocol *)

(** [a >= b] and [a <= b] on numbers. *)
Definition geq (a b : Q) : bool := Qle_bool b a.
Definition leq (a b : Q) : bool := Qle_bool a b.

(** [s.length] as a number; one character of the model stands for one
    code unit of the JavaScript string. *)
Definition strlen (s : string) : Q := inject_Z (Z.of_nat (String.length s)).

(** The predicate of [texts.find] in [handleMouseDown]. *)
Definition textHit (coords : Point.t) (t : TextElement.t) : bool :=
  geq (Point.x coords) (TextElement.x t)
  && leq (Point.x coords)
       (TextElement.x t
        + TextElement.size t * strlen (TextElement.text t) * (6 # 10))%Q
  && geq (Point.y coords) (TextElement.y t)
  && leq (Point.y coords) (TextElement.y t + TextElement.size t)%Q.

(** The predicate of [shapes.find] in [handleMouseDown]. *)
Definition shapeHit (coords : Point.t) (s : ShapeElement.t) : bool :=
  geq (Point.x coords) (Qmin (ShapeElement.x1 s) (ShapeElement.x2 s))
  && leq (Point.x coords) (Qmax (ShapeElement.x1 s) (ShapeElement.x2 s))
  && geq (Point.y coords) (Qmin (ShapeElement.y1 s) (ShapeElement.y2 s))
  && leq (Point.y coords) (Qmax (ShapeElement.y1 s) (ShapeElement.y2 s)).

(** The largest identity among the paths and shapes that the state
    holds, in its cells and in the snapshots of its history. *)
Definition held (s : Studio) : nat :=
  list_max
    (map Path.obj (paths s) ++ map Path.obj (removeMask s)
     ++ map ShapeElement.obj (shapes s)
     ++ flat_map
          (fun e =>
             map Path.obj (EditState.paths e)
             ++ map ShapeElement.obj (EditState.shapes e))
          (history s)).

(** The identity of an object literal evaluated by a handler of [s]: an
    identity that nothing in the state carries and that was not handed
    out before. *)
Definition newObj (s : Studio) : nat := S (Nat.max (objects s) (held s)).

(** [coords] is the result of [getCanvasCoordinates(e)], [None] when the
    canvas is absent; [stamp] is [Date.now().toString()]. *)
Definition handleMouseDown (s : Studio) (coords : option Point.t)
  (stamp : string) : Studio :=
  match coords with
  | None => s
  | Some coords =>
      let p := queue (setStartPoint (Some coords) s) in
      let p := upd (setIsDrawing true) p in
      let p := upd (setSelectedElement None) p in
      let tool := activeTool s in
      let o := options s in
      flush s
        (if tool_is tool draw || tool_is tool remove then
           let newPath :=
             Path.mk [coords]
               (if tool_is tool remove then "#ff007f" else brushColor o)
               (if tool_is tool remove then removeBrushSize o
                else brushSize o)
               stamp (newObj s) in
           let p := upd (setObjects (newObj s)) p in
           if tool_is tool draw then
             upd (fun q => setPaths (paths q ++ [newPath]) q) p
           else if tool_is tool remove then
             upd (fun q => setRemoveMask (removeMask q ++ [newPath]) q) p
           else p
         else if tool_is tool text then
           upd (setTextPosition (Some coords)) p
         else if tool_is tool shape then
           let p := upd (setObjects (newObj s)) p in
           upd (fun q =>
                  setShapes
                    (shapes q
                     ++ [ShapeElement.mk (shapeType o) (Point.x coords)
                           (Point.y coords) (Point.x coords) (Point.y coords)
                           (shapeColor o) (shapeStrokeWidth o) stamp
                           (newObj s)]) q) p
         else if tool_is tool select then
           match find (textHit coords) (texts s) with
           | Some foundText =>
               let p :=
                 upd (setSelectedElement
                        (Some (Selection.mk text_element
                                 (TextElement.id foundText)))) p in
               let p := upd (setIsDragging true) p in
               upd (setDragStartPoint
                      (Point.mk (Point.x coords - TextElement.x foundText)
                         (Point.y coords - TextElement.y foundText))) p
           | None =>
               match find (shapeHit coords) (shapes s) with
               | Some foundShape =>
                   let p :=
                     upd (setSelectedElement
                            (Some (Selection.mk shape_element
                                     (ShapeElement.id foundShape)))) p in
                   let p := upd (setIsDragging true) p in
                   upd (setDragStartPoint
                          (Point.mk
                             (Point.x coords - ShapeElement.x1 foundShape)
                             (Point.y coords - ShapeElement.y1 foundShape)))
                     p
               | None => p
               end
           end
         else p)
  end.

(** The text branch of the drag: [{ ...t, x: ..., y: ... }]. *)
Definition moveText (sel : Selection) (coords off : Point.t)
  (t : TextElement.t) : TextElement.t :=
  if String.eqb (TextElement.id t) (Selection.id sel) then
    TextElement.mk (TextElement.text t) (Point.x coords - Point.x off)
      (Point.y coords - Point.y off) (TextElement.color t)
      (TextElement.size t) (TextElement.id t) (TextElement.hasOutline t)
      (TextElement.outlineColor t) (TextElement.outlineWidth t)
  else t.

(** The shape branch of the drag: a shape with the selected id is
    replaced by a copy, [{ ...s, x1: ..., ... }], which is a new object
    ([fresh]). *)
Definition moveShape (sel : Selection) (coords off : Point.t) (fresh : nat)
  (s : ShapeElement.t) : ShapeElement.t :=
  if negb (String.eqb (ShapeElement.id s) (Selection.id sel)) then s
  else
    let dx := (Point.x coords - Point.x off - ShapeElement.x1 s)%Q in
    let dy := (Point.y coords - Point.y off - ShapeElement.y1 s)%Q in
    ShapeElement.mk (ShapeElement.type s) (ShapeElement.x1 s + dx)
      (ShapeElement.y1 s + dy) (ShapeElement.x2 s + dx)
      (ShapeElement.y2 s + dy) (ShapeElement.color s)
      (ShapeElement.strokeWidth s) (ShapeElement.id s) fresh.

(** [shapes.map(...)]: the copy made at position [i] has the identity
    [fresh + i], so no two copies are the same object. *)
Fixpoint moveShapes (sel : Selection) (coords off : Point.t) (fresh : nat)
  (l : list ShapeElement.t) : list ShapeElement.t :=
  match l with
  | [] => []
  | s :: l' =>
      moveShape sel coords off fresh s
      :: moveShapes sel coords off (S fresh) l'
  end.

(** ** Writes in place *)

(** [path.points.push(coords)] *)
Definition pushPoint (coords : Point.t) (p : Path.t) : Path.t :=
  Path.mk (Path.points p ++ [coords]) (Path.color p) (Path.size p)
    (Path.id p) (Path.obj p).

(** [shape.x2 = coords.x; shape.y2 = coords.y] *)
Definition setSecondPoint (coords : Point.t) (s : ShapeElement.t)
  : ShapeElement.t :=
  ShapeElement.mk (ShapeElement.type s) (ShapeElement.x1 s)
    (ShapeElement.y1 s) (Point.x coords) (Point.y coords)
    (ShapeElement.color s) (ShapeElement.strokeWidth s) (ShapeElement.id s)
    (ShapeElement.obj s).

(** A write to the object [o]: to the points of a path, or to the second
    control point of a shape. *)
Inductive Write :=
| PushPoint (o : nat) (coords : Point.t)
| SetSecondPoint (o : nat) (coords : Point.t).

Definition writePath (w : Write) (p : Path.t) : Path.t :=
  match w with
  | PushPoint o coords =>
      if (Path.obj p =? o)%nat then pushPoint coords p else p
  | SetSecondPoint _ _ => p
  end.

Definition writeShape (w : Write) (s : ShapeElement.t) : ShapeElement.t :=
  match w with
  | PushPoint _ _ => s
  | SetSecondPoint o coords =>
      if (ShapeElement.obj s =? o)%nat then setSecondPoint coords s else s
  end.

Definition writeSnapshot (w : Write) (e : EditState.t) : EditState.t :=
  EditState.mk (EditState.adjustments e) (EditState.transforms e)
    (map (writePath w) (EditState.paths e)) (EditState.texts e)
    (map (writeShape w) (EditState.shapes e)).

(** The write as seen from a state: every place that holds the object
    shows it, the cells as well as the snapshots of the history.  No
    cell is set by it, so no effect runs. *)
Definition write (w : Write) (s : Studio) : Studio :=
  setHistory (map (writeSnapshot w) (history s))
    (setShapes (map (writeShape w) (shapes s))
       (setRemoveMask (map (writePath w) (removeMask s))
          (setPaths (map (writePath w) (paths s)) s))).

(** [l[l.length - 1]], [None] for [undefined]. *)
Definition lastElement {A : Type} (l : list A) : option A :=
  nth_error l (List.length l - 1).

(** [None] is the [TypeError] of an updater that reads a property of
    [undefined], the last element of an empty array.  The updaters of
    the draw, remove and shape branches copy the array and write to its
    last element, which the copy shares with the array of before and
    with whatever else holds it; the new array has the elements of the
    old one. *)
Definition handleMouseMove (s : Studio) (coords : option Point.t)
  : option Studio :=
  if negb (isDrawing s) then Some s
  else
    match coords with
    | None => Some s
    | Some coords =>
        let tool := activeTool s in
        let p := queue s in
        let dragged :=
          match selectedElement s with
          | Some sel =>
              if tool_is tool select && isDragging s then Some sel else None
          | None => None
          end in
        match dragged with
        | Some sel =>
            match Selection.type sel with
            | text_element =>
                Some (flush s
                        (upd (setTexts
                                (map (moveText sel coords (dragStartPoint s))
                                   (texts s))) p))
            | shape_element =>
                let p :=
                  upd (setObjects (newObj s + List.length (shapes s))) p in
                Some (flush s
                        (upd (setShapes
                                (moveShapes sel coords (dragStartPoint s)
                                   (newObj s) (shapes s))) p))
            end
        | None =>
            match tool_is tool crop, startPoint s with
            | true, Some start =>
                Some (flush s
                        (upd (setCropRect
                                (Some
                                   (Rect.mk
                                      (Qmin (Point.x start) (Point.x coords))
                                      (Qmin (Point.y start) (Point.y coords))
                                      (Qabs (Point.x start - Point.x coords))
                                      (Qabs (Point.y start - Point.y coords)))))
                           p))
            | _, _ =>
                if tool_is tool draw then
                  match lastElement (paths s) with
                  | Some path =>
                      Some (write (PushPoint (Path.obj path) coords) s)
                  | None => None
                  end
                else if tool_is tool remove then
                  match lastElement (removeMask s) with
                  | Some path =>
                      Some (write (PushPoint (Path.obj path) coords) s)
                  | None => None
                  end
                else if tool_is tool shape then
                  match lastElement (shapes s) with
                  | Some element =>
                      Some (write
                              (SetSecondPoint (ShapeElement.obj element)
                                 coords) s)
                  | None => None
                  end
                else Some s
            end
        end
    end.

(** The write that [handleMouseMove] makes, if it makes one. *)
Definition written (s : Studio) (coords : option Point.t) : option Write :=
  if negb (isDrawing s) then None
  else
    match coords with
    | None => None
    | Some coords =>
        let tool := activeTool s in
        let dragged :=
          match selectedElement s with
          | Some sel => tool_is tool select && isDragging s
          | None => false
          end in
        if dragged then None
        else
          match tool_is tool crop, startPoint s with
          | true, Some _ => None
          | _, _ =>
              if tool_is tool draw then
                option_map (fun path => PushPoint (Path.obj path) coords)
                  (lastElement (paths s))
              else if tool_is tool remove then
                option_map (fun path => PushPoint (Path.obj path) coords)
                  (lastElement (removeMask s))
              else if tool_is tool shape then
                option_map
                  (fun element =>
                     SetSecondPoint (ShapeElement.obj element) coords)
                  (lastElement (shapes s))
              else None
          end
    end.

Definition handleMouseUpOrLeave (s : Studio) : Studio :=
  let tool := activeTool s in
  let p := queue s in
  let p :=
    if isDrawing s then
      if tool_is tool draw then
        recordHistory s
          (PartialEditState.mk None None (Some (paths s)) None None) p
      else if tool_is tool shape then
        recordHistory s
          (PartialEditState.mk None None None None (Some (shapes s))) p
      else if tool_is tool select && isDragging s then
        recordHistory s
          (PartialEditState.mk None None None (Some (texts s))
             (Some (shapes s))) p
      else p
    else p in
  let p := upd (setIsDrawing false) p in
  let p := upd (setIsDragging false) p in
  flush s (upd (setStartPoint None) p).

(** ** Renderer *)

(** [rotate * Math.PI / 180] *)
Definition radians (t : Transforms.t) : R :=
  (Q2R (Transforms.rotate t) * PI / 180)%R.

(** The value assigned to [canvas.width] and to [canvas.height]; the
    coercion of the assigned value to an integer is the canvas's, not the
    component's, and is not part of the embedding. *)
Definition canvasWidth (image : Image) (t : Transforms.t) : R :=
  (Q2R (naturalWidth image) * Rabs (cos (radians t))
   + Q2R (naturalHeight image) * Rabs (sin (radians t)))%R.

Definition canvasHeight (image : Image) (t : Transforms.t) : R :=
  (Q2R (naturalHeight image) * Rabs (cos (radians t))
   + Q2R (naturalWidth image) * Rabs (sin (radians t)))%R.

(** The filter string, as its functions in order with argument and unit. *)
Definition filterChain (a : Adjustments.t) : list (string * Q * string) :=
  [ ("brightness", Adjustments.brightness a, "%");
    ("contrast", Adjustments.contrast a, "%");
    ("saturate", Adjustments.saturate a, "%");
    ("grayscale", Adjustments.grayscale a, "%");
    ("sepia", Adjustments.sepia a, "%");
    ("invert", Adjustments.invert a, "%");
    ("blur", Adjustments.blur a, "px");
    ("hue-rotate", Adjustments.hueRotate a, "deg") ].

Definition drawPath (path : Path.t) : list cmd :=
  if (List.length (Path.points path) <? 2)%nat then []
  else
    match Path.points path with
    | p0 :: rest =>
        [ BeginPath;
          SetStrokeStyle (Path.color path);
          SetLineWidth (Path.size path);
          SetLineCap "round";
          SetLineJoin "round";
          MoveTo (Point.x p0) (Point.y p0) ]
        ++ map (fun p => LineTo (Point.x p) (Point.y p)) rest
        ++ [ Stroke ]
    | [] => []
    end.

(** [Math.pow(a, 2)] *)
Definition sq (a : Q) : Q := (a * a)%Q.

(** The radius of a circle: the distance between its control points. *)
Definition radius (shape : ShapeElement.t) : R :=
  sqrt
    (Q2R
       (sq (ShapeElement.x2 shape - ShapeElement.x1 shape)
        + sq (ShapeElement.y2 shape - ShapeElement.y1 shape))).

Definition drawShape (shape : ShapeElement.t) : list cmd :=
  let x1 := ShapeElement.x1 shape in
  let y1 := ShapeElement.y1 shape in
  let x2 := ShapeElement.x2 shape in
  let y2 := ShapeElement.y2 shape in
  [ SetStrokeStyle (ShapeElement.color shape);
    SetLineWidth (ShapeElement.strokeWidth shape);
    BeginPath ]
  ++ match ShapeElement.type shape with
     | rectangle => [ RectPath x1 y1 (x2 - x1) (y2 - y1) ]
     | circle => [ Arc x1 y1 (radius shape) 0 (2 * PI)%R ]
     | line => [ MoveTo x1 y1; LineTo x2 y2 ]
     end
  ++ [ Stroke ].

Definition drawText (t : TextElement.t) : list cmd :=
  [ SetFillStyle (TextElement.color t);
    SetFont (TextElement.size t);
    SetTextAlign "left";
    SetTextBaseline "top" ]
  ++ (if TextElement.hasOutline t then
        [ SetStrokeStyle (TextElement.outlineColor t);
          SetLineWidth (TextElement.outlineWidth t);
          StrokeText (TextElement.text t) (TextElement.x t)
            (TextElement.y t) ]
      else [])
  ++ [ FillText (TextElement.text t) (TextElement.x t) (TextElement.y t) ].

Definition drawSelection (s : Studio) : list cmd :=
  match selectedElement s with
  | None => []
  | Some sel =>
      [ SetStrokeStyle "#FBBC05"; SetLineWidth 2; SetLineDash [6; 3]%Q ]
      ++ match Selection.type sel with
         | text_element =>
             match
               find (fun t => String.eqb (TextElement.id t) (Selection.id sel))
                 (texts s)
             with
             | Some el =>
                 [ StrokeMeasured (TextElement.text el) (TextElement.x el - 2)
                     (TextElement.y el - 2) 4 (TextElement.size el + 4) ]
             | None => []
             end
         | shape_element =>
             match
               find
                 (fun e => String.eqb (ShapeElement.id e) (Selection.id sel))
                 (shapes s)
             with
             | Some el =>
                 [ StrokeRect
                     (Qmin (ShapeElement.x1 el) (ShapeElement.x2 el) - 2)
                     (Qmin (ShapeElement.y1 el) (ShapeElement.y2 el) - 2)
                     (Qabs (ShapeElement.x2 el - ShapeElement.x1 el) + 4)
                     (Qabs (ShapeElement.y2 el - ShapeElement.y1 el) + 4) ]
             | None => []
             end
         end
      ++ [ SetLineDash [] ]
  end.

(** What one run of [render] draws: the commands issued before it
    returns, and those of the [onload] callback of the subject mask. *)
Record Frame := mkFrame { drawn : list cmd; onMaskLoad : list cmd }.

Definition render (s : Studio) (image : Image) : Frame :=
  let t := transforms s in
  let w := naturalWidth image in
  let h := naturalHeight image in
  let width := canvasWidth image t in
  let height := canvasHeight image t in
  mkFrame
    ([ SetCanvasSize width height;
       Save;
       Translate (width / 2) (height / 2);
       Rotate (radians t);
       Scale (if Flip.horizontal (Transforms.flip t) then -1 else 1)
         (if Flip.vertical (Transforms.flip t) then -1 else 1);
       SetFilter (filterChain (adjustments s));
       DrawImage (pixels image) (- w / 2) (- h / 2) w h;
       Restore ]
     ++ flat_map drawPath (paths s)
     ++ (if tool_is (activeTool s) remove
         then flat_map drawPath (removeMask s) else [])
     ++ flat_map drawShape (shapes s)
     ++ flat_map drawText (texts s)
     ++ match tool_is (activeTool s) crop, cropRect s with
        | true, Some r =>
            [ Save;
              SetFillStyle "rgba(0, 0, 0, 0.5)";
              FillRect 0 0 width height;
              ClearRect (Rect.x r) (Rect.y r) (Rect.width r) (Rect.height r);
              SetStrokeStyle "#4285F4";
              SetLineWidth 2;
              StrokeRect (Rect.x r) (Rect.y r) (Rect.width r)
                (Rect.height r);
              Restore ]
        | _, _ => []
        end
     ++ drawSelection s)
    (match subjectMask s with
     | Some mask =>
         [ SetGlobalAlpha (1 # 2);
           DrawOverlay (pixels mask) 0 0 width height;
           SetGlobalAlpha 1 ]
     | None => []
     end).

(** The render effect: it draws only when an image is loaded. *)
Definition renderEffect (s : Studio) : option Frame :=
  match originalImage s with
  | Some image => Some (render s image)
  | None => None
  end.

(** The commands that produced the content of the canvas. *)
Definition canvasContent (f : Frame) : list cmd := drawn f ++ onMaskLoad f.

(** ** Crop *)

(** The value of [canvas.width] or [canvas.height] after the number [v]
    was assigned to it.  The attribute is an unsigned long: the number is
    truncated and taken modulo 2^32, and a result above 2147483647 is
    replaced by the default of the attribute (300 for the width, 150 for
    the height). *)
Definition canvasExtent (default : Z) (v : Q) : Z :=
  let n := (Z.quot (Qnum v) (Z.pos (Qden v))) mod 4294967296 in
  if n <=? 2147483647 then n else default.

(** The image that the component gets back from a canvas through
    [toDataURL]: it has the size of the canvas.  A canvas without pixels
    gives the string [data:,], which does not decode: an image without a
    size. *)
Definition canvasImage (width height : Z) (content : Pixels) : Image :=
  if (width =? 0) || (height =? 0) then mkImage 0 0 (Encoded "data:,")
  else mkImage (inject_Z width) (inject_Z height) content.

(** [canvasRef.current] is set exactly when an image is loaded, since the
    canvas element is only mounted then; the 2D context of a new canvas is
    taken to exist. *)
Definition handleApplyCrop (s : Studio) : Studio :=
  match cropRect s, renderEffect s with
  | Some r, Some sourceCanvas =>
      if leq (Rect.width r) 0 || leq (Rect.height r) 0 then s
      else
        let cropped :=
          canvasImage (canvasExtent 300 (Rect.width r))
            (canvasExtent 150 (Rect.height r))
            (CanvasRegion (canvasContent sourceCanvas) (Rect.x r) (Rect.y r)
               (Rect.width r) (Rect.height r)) in
        let p := upd (setOriginalImage (Some cropped)) (queue s) in
        let p := upd (setFileName "cropped-image.png") p in
        let p := upd (setExportFileName "cropped-image") p in
        flush s (resetEdits INITIAL_EDIT_STATE p)
  | _, _ => s
  end.
(** ** Timers and the debounced commit *)

(** A pending [window.setTimeout]: the callback calls the [recordHistory]
    of the render that scheduled it ([closure]) on [newStates]. *)
Record Timer := mkTimer {
  timerId : Z;
  due : Z;
  closure : Studio;
  newStates : PartialEditState.t
}.

(** The page: the component, the clock in milliseconds, the pending
    timers in the order they were set, and the last identifier handed
    out (identifiers are positive). *)
Record Page := mkPage {
  studio : Studio;
  now : Z;
  timers : list Timer;
  lastTimerId : Z
}.

(** A write in place as seen from a pending timer: the callback holds
    the cells and the history of the render that set the timer, and the
    argument of the commit. *)
Definition writeTimer (w : Write) (t : Timer) : Timer :=
  mkTimer (timerId t) (due t) (write w (closure t))
    (PartialEditState.mk
       (PartialEditState.adjustments (newStates t))
       (PartialEditState.transforms (newStates t))
       (option_map (map (writePath w)) (PartialEditState.paths (newStates t)))
       (PartialEditState.texts (newStates t))
       (option_map (map (writeShape w))
          (PartialEditState.shapes (newStates t)))).

Definition clearTimeout (id : Z) (pg : Page) : Page :=
  mkPage (studio pg) (now pg)
    (filter (fun t => negb (timerId t =? id)) (timers pg)) (lastTimerId pg).

(** [recordHistoryWithDebounce], as created by the render of [s]; the
    reference cell is written at once, not queued. *)
Definition recordHistoryWithDebounce (s : Studio)
  (newStates : PartialEditState.t) (pg : Page) : Page :=
  let pg :=
    match historyTimeoutRef (studio pg) with
    | Some id => if id =? 0 then pg else clearTimeout id pg
    | None => pg
    end in
  let id := lastTimerId pg + 1 in
  mkPage (setHistoryTimeoutRef (Some id) (studio pg)) (now pg)
    (timers pg ++ [mkTimer id (now pg + 400) s newStates]) id.

(** The callback of a timer, followed by the render it causes. *)
Definition fire (t : Timer) (pg : Page) : Page :=
  mkPage
    (flush (studio pg)
       (recordHistory (closure t) (newStates t) (queue (studio pg))))
    (now pg) (timers pg) (lastTimerId pg).

(** Time passes until [t]: the timers due by then run, in the order they
    were set (every timer has the same delay, so this is the order in
    which they fall due), and are removed. *)
Definition advance (t : Z) (pg : Page) : Page :=
  let ready := filter (fun x => due x <=? t) (timers pg) in
  let waiting := filter (fun x => negb (due x <=? t)) (timers pg) in
  fold_left (fun acc x => fire x acc) ready
    (mkPage (studio pg) (Z.max t (now pg)) waiting (lastTimerId pg)).

Inductive Adjustment :=
| brightness | contrast | saturate | grayscale | sepia | invert | blur
| hueRotate.

(** [{ ...adjustments, [key]: value }] *)
Definition withAdjustment (a : Adjustments.t) (key : Adjustment) (value : Q)
  : Adjustments.t :=
  Adjustments.mk
    (match key with brightness => value | _ => Adjustments.brightness a end)
    (match key with contrast => value | _ => Adjustments.contrast a end)
    (match key with saturate => value | _ => Adjustments.saturate a end)
    (match key with grayscale => value | _ => Adjustments.grayscale a end)
    (match key with sepia => value | _ => Adjustments.sepia a end)
    (match key with invert => value | _ => Adjustments.invert a end)
    (match key with blur => value | _ => Adjustments.blur a end)
    (match key with hueRotate => value | _ => Adjustments.hueRotate a end).

(** The [onChange] of a slider of the adjustment panel. *)
Definition handleSlider (key : Adjustment) (value : Q) (pg : Page) : Page :=
  let s := studio pg in
  let newAdjustments := withAdjustment (adjustments s) key value in
  let pg :=
    recordHistoryWithDebounce s
      (PartialEditState.mk (Some newAdjustments) None None None None) pg in
  mkPage
    (flush s (upd (setAdjustments newAdjustments) (queue (studio pg))))
    (now pg) (timers pg) (lastTimerId pg).

(** A handler that previews an edit and asks for a debounced commit.  At
    the time [when] it replaces the displayed edit state [e] by
    [preview e] and calls [recordHistoryWithDebounce] on [arg e]. *)
Record Call := mkCall {
  when : Z;
  preview : EditState.t -> EditState.t;
  arg : EditState.t -> PartialEditState.t
}.

(** ** Drivers used by the statements *)

(** A handler that calls [recordHistory] on [newStates] and nothing
    else. *)
Definition commit (newStates : PartialEditState.t) (s : Studio) : Studio :=
  flush s (recordHistory s newStates (queue s)).

(** Uncommitted work: the five cells take the values of [e] without any
    call to [recordHistory]. *)
Definition work (e : EditState.t) (s : Studio) : Studio :=
  setShapes (EditState.shapes e)
    (setTexts (EditState.texts e)
       (setPaths (EditState.paths e)
          (setTransforms (EditState.transforms e)
             (setAdjustments (EditState.adjustments e) s)))).

(** The page at the end of [call]: time passes until the call is made,
    the handler runs, and the component renders. *)
Definition call (pg : Page) (c : Call) : Page :=
  let pg := advance (when c) pg in
  let s := studio pg in
  let pg := recordHistoryWithDebounce s (arg c (current s)) pg in
  mkPage
    (flush s (upd (work (preview c (current s))) (queue (studio pg))))
    (now pg) (timers pg) (lastTimerId pg).

(** A slider event as a [Call]. *)
Definition sliderCall (t : Z) (key : Adjustment) (value : Q) : Call :=
  mkCall t
    (fun e =>
       EditState.mk (withAdjustment (EditState.adjustments e) key value)
         (EditState.transforms e) (EditState.paths e) (EditState.texts e)
         (EditState.shapes e))
    (fun e =>
       PartialEditState.mk
         (Some (withAdjustment (EditState.adjustments e) key value)) None None
         None None).

(** Each call comes less than 400 ms after the one before, which was made
    at [prev]. *)
Fixpoint spaced (prev : Z) (cs : list Call) : Prop :=
  match cs with
  | [] => True
  | c :: cs' => prev <= when c < prev + 400 /\ spaced (when c) cs'
  end.

(** A burst that starts at [start] or later. *)
Definition burst (start : Z) (cs : list Call) : Prop :=
  match cs with
  | [] => True
  | c :: cs' => start <= when c /\ spaced (when c) cs'
  end.

(** The snapshot [e] has every field that [a] gives. *)
Definition carries (a : PartialEditState.t) (e : EditState.t) : Prop :=
  (forall v, PartialEditState.adjustments a = Some v ->
             EditState.adjustments e = v)
  /\ (forall v, PartialEditState.transforms a = Some v ->
                EditState.transforms e = v)
  /\ (forall v, PartialEditState.paths a = Some v -> EditState.paths e = v)
  /\ (forall v, PartialEditState.texts a = Some v -> EditState.texts e = v)
  /\ (forall v, PartialEditState.shapes a = Some v ->
                EditState.shapes e = v).




(** The snapshots kept by a commit made at the index of [s], followed by
    the committed one: [s'] holds the snapshots of [s] at the positions up
    to the current index, then [e]. *)
Definition truncatedAt (s s' : Studio) (e : EditState.t) : Prop :=
  history s'
  = firstn (Z.to_nat (historyIndex s + 1)) (history s) ++ [e].

(** The condition under which [handleMouseUpOrLeave] commits. *)
Definition closing (s : Studio) : Prop :=
  activeTool s = Some draw
  \/ activeTool s = Some shape
  \/ (activeTool s = Some select /\ isDragging s = true).

(** The condition of the specification, for an interaction that went from
    the state [down] before the pointer-down to the state [s] at the
    pointer-up: a select-drag counts only if it moved something. *)
Definition closingAfterMove (down s : Studio) : Prop :=
  activeTool s = Some draw
  \/ activeTool s = Some shape
  \/ (activeTool s = Some select
      /\ (texts s <> texts down \/ shapes s <> shapes down)).

(** The boxes of the hit test. *)
Definition inTextBox (c : Point.t) (t : TextElement.t) : Prop :=
  (TextElement.x t <= Point.x c
   /\ Point.x c
      <= TextElement.x t
         + TextElement.size t * strlen (TextElement.text t) * (6 # 10)
   /\ TextElement.y t <= Point.y c
   /\ Point.y c <= TextElement.y t + TextElement.size t)%Q.

Definition inShapeBox (c : Point.t) (e : ShapeElement.t) : Prop :=
  (Qmin (ShapeElement.x1 e) (ShapeElement.x2 e) <= Point.x c
   /\ Point.x c <= Qmax (ShapeElement.x1 e) (ShapeElement.x2 e)
   /\ Qmin (ShapeElement.y1 e) (ShapeElement.y2 e) <= Point.y c
   /\ Point.y c <= Qmax (ShapeElement.y1 e) (ShapeElement.y2 e))%Q.

Definition strictlyInShapeBox (c : Point.t) (e : ShapeElement.t) : Prop :=
  (Qmin (ShapeElement.x1 e) (ShapeElement.x2 e) < Point.x c
   /\ Point.x c < Qmax (ShapeElement.x1 e) (ShapeElement.x2 e)
   /\ Qmin (ShapeElement.y1 e) (ShapeElement.y2 e) < Point.y c
   /\ Point.y c < Qmax (ShapeElement.y1 e) (ShapeElement.y2 e))%Q.

(** The rectangle lies within a canvas of the given extent. *)
Definition withinCanvas (r : Rect.t) (width height : R) : Prop :=
  (0 <= Q2R (Rect.x r)
   /\ 0 <= Q2R (Rect.y r)
   /\ Q2R (Rect.x r + Rect.width r) <= width
   /\ Q2R (Rect.y r + Rect.height r) <= height)%R.

(** [x] is the first element of [l] that satisfies [f]. *)
Definition firstMatch {A : Type} (f : A -> bool) (l : list A) (x : A)
  : Prop :=
  exists before after,
    l = before ++ x :: after /\ f x = true
    /\ forall y, In y before -> f y = false.


(** A session that was just reset: one snapshot, the initial state, which
    is also the one displayed. *)
Definition freshlyReset (s : Studio) : Prop :=
  history s = [INITIAL_EDIT_STATE]
  /\ historyIndex s = 0
  /\ current s = INITIAL_EDIT_STATE.

(** The page between the calls of a burst that started from [pg0]:
    nothing is committed yet, and either no timer is pending or the one
    set by the last call is, known to the component by its identifier. *)
Definition settled (pg0 pg : Page) : Prop :=
  history (studio pg) = history (studio pg0)
  /\ historyIndex (studio pg) = historyIndex (studio pg0)
  /\ 0 <= lastTimerId pg
  /\ (timers pg = []
      \/ exists t,
           timers pg = [t]
           /\ timerId t = lastTimerId pg
           /\ 0 < timerId t
           /\ due t = now pg + 400
           /\ historyTimeoutRef (studio pg) = Some (timerId t)).

(** The next call is made before the pending timer falls due. *)
Definition inTime (pg : Page) (c : Call) : Prop :=
  now pg <= when c /\ (timers pg <> [] -> when c < now pg + 400).

(** The calls of [cs] are spaced as a burst and the first one is in time
    for the page. *)
Definition window (pg : Page) (cs : list Call) : Prop :=
  match cs with
  | [] => True
  | c :: cs' => inTime pg c /\ spaced (when c) cs'
  end.

(** ** Example sessions *)

Definition photo : Image := mkImage 100 100 (Encoded "photo").

(** An image has just been uploaded. *)
Definition loaded : Studio :=
  handleFileLoaded mounted photo "photo.png" "photo".

(** Two rotations, both undone, then the redo button pressed twice. *)
Definition overshot : Studio :=
  handleRedo
    (handleRedo (handleUndo (handleUndo (rotateRight (rotateRight loaded))))).

(** A rectangle dragged from (10, 10) to (50, 40) with the shape tool. *)
Definition sketched : Studio :=
  match
    handleMouseMove
      (handleMouseDown (setActiveTool (Some shape) loaded)
         (Some (Point.mk 10 10)) "1")
      (Some (Point.mk 50 40))
  with
  | Some s => handleMouseUpOrLeave s
  | None => loaded
  end.

(** The select tool pressed inside the rectangle, not moved yet. *)
Definition grabbed : Studio :=
  handleMouseDown (setActiveTool (Some select) sketched)
    (Some (Point.mk 20 20)) "2".

(** The crop tool dragged from (10, 10) to (60, 60): a rectangle of 50 by
    50 on the image of 100 by 100. *)
Definition framed : Studio :=
  match
    handleMouseMove
      (handleMouseDown (setActiveTool (Some crop) loaded)
         (Some (Point.mk 10 10)) "1")
      (Some (Point.mk 60 60))
  with
  | Some s => handleMouseUpOrLeave s
  | None => loaded
  end.

(** The crop tool dragged from (10, 10) to (52.4, 62): a rectangle of 42.4
    by 52. *)
Definition framedBetween : Studio :=
  match
    handleMouseMove
      (handleMouseDown (setActiveTool (Some crop) loaded)
         (Some (Point.mk 10 10)) "1")
      (Some (Point.mk (262 # 5) 62))
  with
  | Some s => handleMouseUpOrLeave s
  | None => loaded
  end.

Definition banner : Image := mkImage 100 40 (Encoded "banner").

(** On an image of 100 by 40 the crop tool is dragged from (60, 0) to
    (100, 40); the transform tool then rotates the image by a quarter
    turn, which makes the canvas 40 by 100, and the crop tool is chosen
    again: the rectangle of before is still there. *)
Definition turned : Studio :=
  match
    handleMouseMove
      (handleMouseDown
         (setActiveTool (Some crop)
            (handleFileLoaded mounted banner "banner.png" "banner"))
         (Some (Point.mk 60 0)) "1")
      (Some (Point.mk 100 40))
  with
  | Some s =>
      setActiveTool (Some crop)
        (rotateRight
           (setActiveTool (Some transform) (handleMouseUpOrLeave s)))
  | None => mounted
  end.

(** The draw tool pressed at (5, 5) and released at once. *)
Definition dotted : Studio :=
  handleMouseUpOrLeave
    (handleMouseDown (setActiveTool (Some draw) loaded)
       (Some (Point.mk 5 5)) "1").

(** The brightness slider dragged over three values within a second. *)
Definition idle : Page :=
  mkPage (setActiveTool (Some adjust) loaded) 0 [] 0.

Definition drag : list Call :=
  [ sliderCall 1000 brightness 110; sliderCall 1100 brightness 120 ].

Definition release : Call := sliderCall 1300 brightness 150.

(** The brightness slider is moved at 1000 ms and the image is rotated at
    1100 ms, while the timer of the slider is pending; the timer fires at
    1400 ms. *)
Definition rotatedMeanwhile : Page :=
  let pg := advance 1100 (call idle (sliderCall 1000 brightness 150)) in
  mkPage (rotateRight (studio pg)) (now pg) (timers pg) (lastTimerId pg).

Definition interleaved : Page := advance 1400 rotatedMeanwhile.

(** ** Further handlers of the component *)

(** The white space and line terminators of ECMAScript among the code
    units below 256: tab, line feed, vertical tab, form feed, carriage
    return, space and no-break space. *)
Definition isWhiteSpace (c : Ascii.ascii) : bool :=
  let n := Ascii.nat_of_ascii c in
  ((9 <=? n) && (n <=? 13) || (n =? 32) || (n =? 160))%nat.

Fixpoint trimStart (s : string) : string :=
  match s with
  | EmptyString => EmptyString
  | String c s' => if isWhiteSpace c then trimStart s' else s
  end.

Fixpoint trimEnd (s : string) : string :=
  match s with
  | EmptyString => EmptyString
  | String c s' =>
      match trimEnd s' with
      | EmptyString => if isWhiteSpace c then EmptyString else String c EmptyString
      | r => String c r
      end
  end.

(** [s.trim()] *)
Definition trim (s : string) : string := trimEnd (trimStart s).

(** A string is truthy when it is not empty. *)
Definition truthy (s : string) : bool :=
  match s with
  | EmptyString => false
  | String _ _ => true
  end.

(** [stamp] is [Date.now().toString()]. *)
Definition handleAddText (s : Studio) (stamp : string) : Studio :=
  match truthy (trim (currentText s)), textPosition s with
  | true, Some textPosition =>
      let o := options s in
      let newTexts :=
        texts s
        ++ [TextElement.mk (currentText s) (Point.x textPosition)
              (Point.y textPosition) (textColor o) (textSize o) stamp
              (hasTextOutline o) (textOutlineColor o) (textOutlineSize o)] in
      let p := upd (setTexts newTexts) (queue s) in
      let p :=
        recordHistory s
          (PartialEditState.mk None None None (Some newTexts) None) p in
      let p := upd (setCurrentText EmptyString) p in
      flush s (upd (setTextPosition None) p)
  | _, _ => s
  end.

(** A button of the toolbar: [setActiveTool(activeTool === t ? null : t)]. *)
Definition toolbarClick (t : Tool) (s : Studio) : Studio :=
  setActiveTool (if tool_is (activeTool s) t then None else Some t) s.

(** The Cancel button of the crop panel. *)
Definition cancelCrop (s : Studio) : Studio :=
  flush s (upd (setCropRect None) (upd (setActiveTool None) (queue s))).

(** A run of pointer moves. *)
Fixpoint moves (s : Studio) (cs : list Point.t) : option Studio :=
  match cs with
  | [] => Some s
  | c :: cs' =>
      match handleMouseMove s (Some c) with
      | Some s' => moves s' cs'
      | None => None
      end
  end.

(** ** Events *)

(** The events of the component that the embedding covers. *)
Inductive Event :=
| Undo
| Redo
| RotateLeft
| RotateRight
| FlipHorizontal
| FlipVertical
| MouseDown (coords : option Point.t) (stamp : string)
| MouseMove (coords : option Point.t)
| MouseUpOrLeave
| ApplyCrop
| CancelCrop
| AddText (stamp : string)
| Typing (value : string)
| FullReset
| FileLoaded (image : Image) (name stem : string)
| ToolbarClick (t : Tool).

(** One event and the render after it; [None] is an exception thrown by
    the handler. *)
Definition step (s : Studio) (e : Event) : option Studio :=
  match e with
  | Undo => Some (handleUndo s)
  | Redo => Some (handleRedo s)
  | RotateLeft => Some (rotateLeft s)
  | RotateRight => Some (rotateRight s)
  | FlipHorizontal => Some (flipHorizontal s)
  | FlipVertical => Some (flipVertical s)
  | MouseDown coords stamp => Some (handleMouseDown s coords stamp)
  | MouseMove coords => handleMouseMove s coords
  | MouseUpOrLeave => Some (handleMouseUpOrLeave s)
  | ApplyCrop => Some (handleApplyCrop s)
  | CancelCrop => Some (cancelCrop s)
  | AddText stamp => Some (handleAddText s stamp)
  | Typing value => Some (flush s (upd (setCurrentText value) (queue s)))
  | FullReset => Some (handleFullReset s)
  | FileLoaded image name stem => Some (handleFileLoaded s image name stem)
  | ToolbarClick t => Some (toolbarClick t s)
  end.

(** The events of the page: an event of the component, a move of an
    adjustment slider, or time passing until [t]. *)
Inductive PageEvent :=
| Act (e : Event)
| Slide (key : Adjustment) (value : Q)
| Wait (t : Z).

(** What an event of the component writes in place. *)
Definition writes (s : Studio) (e : Event) : option Write :=
  match e with
  | MouseMove coords => written s coords
  | _ => None
  end.

(** A write in place by the component also shows in the closures of the
    pending timers. *)
Definition pageStep (pg : Page) (e : PageEvent) : option Page :=
  match e with
  | Act e =>
      match step (studio pg) e with
      | Some s =>
          Some (mkPage s (now pg)
                  match writes (studio pg) e with
                  | Some w => map (writeTimer w) (timers pg)
                  | None => timers pg
                  end
                  (lastTimerId pg))
      | None => None
      end
  | Slide key value => Some (handleSlider key value pg)
  | Wait t => Some (advance t pg)
  end.

Fixpoint pageRun (pg : Page) (es : list PageEvent) : option Page :=
  match es with
  | [] => Some pg
  | e :: es' =>
      match pageStep pg e with
      | Some pg' => pageRun pg' es'
      | None => None
      end
  end.

(** The page when the component is mounted. *)
Definition opened : Page := mkPage mounted 0 [] 0.

(** No timer is pending, or one is and the component holds its
    identifier. *)
Definition oneTimer (pg : Page) : Prop :=
  0 <= lastTimerId pg
  /\ (timers pg = []
      \/ exists t,
           timers pg = [t]
           /\ timerId t = lastTimerId pg
           /\ 0 < timerId t
           /\ historyTimeoutRef (studio pg) = Some (timerId t)).

(** The index does not point past the last snapshot. *)
Definition indexBounded (s : Studio) : Prop :=
  historyIndex s < Z.of_nat (List.length (history s)).

(** The index is -1 on an empty history and a position of the history
    otherwise. *)
Definition indexInRange (s : Studio) : Prop :=
  (history s = [] /\ historyIndex s = -1)
  \/ 0 <= historyIndex s < Z.of_nat (List.length (history s)).

(** No press of the redo button among the events. *)
Definition redoFree (es : list PageEvent) : Prop :=
  ~ In (Act Redo) es.

(** What an event may do to the history: leave its length and the index
    alone (a write in place can change the paths and shapes inside the
    snapshots, nothing else does), move the index one step back, or leave
    a history whose last snapshot is the current one.  The identifier of
    the timer is kept in each case. *)
Definition keepsHistory (s s' : Studio) : Prop :=
  List.length (history s') = List.length (history s)
  /\ historyIndex s' = historyIndex s.

Definition atLastSnapshot (s' : Studio) : Prop :=
  history s' <> []
  /\ historyIndex s' = Z.of_nat (List.length (history s')) - 1.

Definition stepsBack (s s' : Studio) : Prop :=
  history s' = history s /\ historyIndex s' = historyIndex s - 1.

(** Every code unit of the string is white space. *)
Definition blank (s : string) : Prop :=
  forall c, In c (list_ascii_of_string s) -> isWhiteSpace c = true.

(** The frame of an image without edits: the image at its own size, the
    neutral filter chain, nothing drawn over it. *)
Definition plainFrame (image : Image) : Frame :=
  let w := naturalWidth image in
  let h := naturalHeight image in
  mkFrame
    [ SetCanvasSize (Q2R w) (Q2R h);
      Save;
      Translate (Q2R w / 2) (Q2R h / 2);
      Rotate 0;
      Scale 1 1;
      SetFilter (filterChain INITIAL_ADJUSTMENTS);
      DrawImage (pixels image) (- w / 2) (- h / 2) w h;
      Restore ]
    [].


(** Every path, or shape, of the list has an identity below [n]. *)
Definition pathsBelow (n : nat) (l : list Path.t) : Prop :=
  Forall (fun p => (Path.obj p < n)%nat) l.

Definition shapesBelow (n : nat) (l : list ShapeElement.t) : Prop :=
  Forall (fun e => (ShapeElement.obj e < n)%nat) l.

(** Every object that the state holds has an identity below [n]. *)
Definition below (n : nat) (s : Studio) : Prop :=
  pathsBelow n (paths s)
  /\ pathsBelow n (removeMask s)
  /\ shapesBelow n (shapes s)
  /\ Forall
       (fun e =>
          pathsBelow n (EditState.paths e)
          /\ shapesBelow n (EditState.shapes e))
       (history s).

(** The object that a write goes to. *)
Definition target (w : Write) : nat :=
  match w with
  | PushPoint o _ => o
  | SetSecondPoint o _ => o
  end.

(** The part of an edit state that no write in place reaches. *)
Definition fixedPart (e : EditState.t)
  : Adjustments.t * Transforms.t * list TextElement.t :=
  (EditState.adjustments e, EditState.transforms e, EditState.texts e).

(** Two states of one render, before and after writes in place. *)
Definition alike (a b : Studio) : Prop :=
  map fixedPart (history b) = map fixedPart (history a)
  /\ historyIndex b = historyIndex a
  /\ fixedPart (current b) = fixedPart (current a).

(** No pointer move among the events. *)
Definition pointerStill (es : list Event) : Prop :=
  forall coords, ~ In (MouseMove coords) es.
(** ** Classes of drawing commands *)

(** The commands that size the canvas, move the coordinate system, set a
    filter or draw an image. *)
Definition placesImage (c : cmd) : bool :=
  match c with
  | SetCanvasSize _ _ | Translate _ _ | Rotate _ | Scale _ _ | SetFilter _
  | DrawImage _ _ _ _ _ | DrawOverlay _ _ _ _ _ => true
  | _ => false
  end.

(** The nesting of [save] and [restore] after the commands, starting from
    [depth]; [None] when a [restore] has no [save] to undo. *)
Fixpoint nesting (depth : nat) (cs : list cmd) : option nat :=
  match cs with
  | [] => Some depth
  | Save :: cs' => nesting (S depth) cs'
  | Restore :: cs' =>
      match depth with
      | O => None
      | S d => nesting d cs'
      end
  | _ :: cs' => nesting depth cs'
  end.

(** Commands that are neither [save] nor [restore]. *)
Definition flat (c : cmd) : bool :=
  match c with
  | Save | Restore => false
  | _ => true
  end.

(** ** The request to the generation service *)

(** [s.indexOf(pat)]: the position of the first occurrence, or -1. *)
Fixpoint indexOf (pat s : string) : Z :=
  if String.prefix pat s then 0
  else
    match s with
    | EmptyString => -1
    | String _ s' =>
        let k := indexOf pat s' in
        if k <? 0 then -1 else k + 1
    end.

(** [s.substring(a, b)]: both ends are clamped to the string and
    exchanged when they come in the wrong order. *)
Definition jsSubstring (a b : Z) (s : string) : string :=
  let len := Z.of_nat (String.length s) in
  let a' := Z.max 0 (Z.min a len) in
  let b' := Z.max 0 (Z.min b len) in
  let lo := Z.min a' b' in
  let hi := Z.max a' b' in
  String.substring (Z.to_nat lo) (Z.to_nat (hi - lo)) s.

(** [s.substring(a)] *)
Definition jsSubstringFrom (a : Z) (s : string) : string :=
  jsSubstring a (Z.of_nat (String.length s)) s.

(** [s.split(sep)[0]] for a separator of one character. *)
Definition splitFirst (sep s : string) : string :=
  let k := indexOf sep s in
  if k <? 0 then s else jsSubstring 0 k s.

(** [s.split(sep)[1]] for a separator of one character; [None] is
    [undefined]. *)
Definition splitSecond (sep s : string) : option string :=
  let k := indexOf sep s in
  if k <? 0 then None else Some (splitFirst sep (jsSubstringFrom (k + 1) s)).

Definition getMimeType (base64 : string) : string :=
  jsSubstring (Z.of_nat (String.length "data:")) (indexOf ";base64" base64)
    base64.

(** A part of a request or of a response: inline data or a text. *)
Inductive Part :=
| InlineData (data : option string) (mimeType : string)
| TextPart (text : string).

Definition isInlineData (p : Part) : bool :=
  match p with
  | InlineData _ _ => true
  | TextPart _ => false
  end.

(** [p.text] as a condition: a text part whose text is not empty. *)
Definition hasText (p : Part) : bool :=
  match p with
  | InlineData _ _ => false
  | TextPart t => truthy t
  end.

(** [image] as a condition, for [string | null]. *)
Definition present (image : option string) : bool :=
  match image with
  | Some url => truthy url
  | None => false
  end.

(** The loop over [base64Images]. *)
Fixpoint imageParts (base64Images : list (option string)) : list Part :=
  match base64Images with
  | [] => []
  | image :: rest =>
      match image with
      | Some url =>
          if truthy url
          then InlineData (splitSecond "," url) (getMimeType url)
               :: imageParts rest
          else imageParts rest
      | None => imageParts rest
      end
  end.

(** The parts that [editOrCreateImage] sends, with the block that moves
    the text part to the end. *)
Definition requestParts (prompt : string) (base64Images : list (option string))
  : list Part :=
  let parts := imageParts base64Images ++ [TextPart prompt] in
  if (1 <? List.length parts)%nat
     && isInlineData (last parts (TextPart prompt))
  then
    match find hasText parts with
    | Some textPart => filter (fun p => negb (hasText p)) parts ++ [textPart]
    | None => parts
    end
  else parts.

(** What [editOrCreateImage] makes of the response: the encoded image of
    the first part with inline data, or the error it throws.  [None] is
    a response without candidates, content or parts. *)
Definition responseImage (parts : option (list Part)) : string + string :=
  match parts with
  | Some ps =>
      match find isInlineData ps with
      | Some (InlineData data mimeType) =>
          inl ("data:" ++ mimeType ++ ";base64,"
               ++ match data with Some d => d | None => "undefined" end)%string
      | _ => inr "No image data found in response."
      end
  | None => inr "No image data found in response."
  end.

(** The character does not occur in the string. *)
Definition lacks (c : Ascii.ascii) (s : string) : Prop :=
  ~ In c (list_ascii_of_string s).

(** The encoded images that pass the test of the loop, in order. *)
Fixpoint presentUrls (base64Images : list (option string)) : list string :=
  match base64Images with
  | [] => []
  | Some url :: rest =>
      if truthy url then url :: presentUrls rest else presentUrls rest
  | None :: rest => presentUrls rest
  end.

(** ** File names *)

(** [s.lastIndexOf(pat)]: the position of the last occurrence, or -1. *)
Fixpoint lastIndexOf (pat s : string) : Z :=
  match s with
  | EmptyString => if String.prefix pat EmptyString then 0 else -1
  | String _ s' =>
      let k := lastIndexOf pat s' in
      if 0 <=? k then k + 1
      else if String.prefix pat s then 0 else -1
  end.

(** [a || b] on strings. *)
Definition orElse (a b : string) : string := if truthy a then a else b.

(** The export name that [handleFileChange] derives from the name of the
    file. *)
Definition exportNameOf (name : string) : string :=
  orElse (jsSubstring 0 (lastIndexOf "." name) name) name.

(** [handleFileChange] for the main image, after the file was read. *)
Definition handleFileChange (s : Studio) (image : Image) (name : string)
  : Studio :=
  handleFileLoaded s image name (exportNameOf name).

Inductive ExportFormat := png | jpeg.

Definition formatName (f : ExportFormat) : string :=
  match f with
  | png => "png"
  | jpeg => "jpeg"
  end.

(** The name under which [handleDownload] saves the canvas. *)
Definition downloadName (exportFileName : string) (f : ExportFormat)
  : string :=
  (orElse exportFileName "download" ++ "." ++ formatName f)%string.

(** ** The generation panel *)

(** An awaited call either gives a value or throws: an [Error] with its
    message, or another value. *)
Inductive Thrown :=
| ErrorObject (message : string)
| OtherValue.

(** What [ai.models.generateContent] gives: a response with its parts
    ([None]: no candidates, content or parts), or a rejection. *)
Inductive Reply :=
| Response (parts : option (list Part))
| Rejected (t : Thrown).

Inductive Outcome :=
| Returned (url : string)
| Threw (t : Thrown).

Definition editOrCreateImage (generateContent : list Part -> Reply)
  (prompt : string) (base64Images : list (option string)) : Outcome :=
  match generateContent (requestParts prompt base64Images) with
  | Response parts =>
      match responseImage parts with
      | inl url => Returned url
      | inr message => Threw (ErrorObject message)
      end
  | Rejected t => Threw t
  end.

(** [err instanceof Error ? err.message : 'An unknown error occurred.'] *)
Definition errorMessage (t : Thrown) : string :=
  match t with
  | ErrorObject message => message
  | OtherValue => "An unknown error occurred."
  end.

(** The cells of the component that belong to the generation panel. *)
Module Ai.
Record t := mk {
  prompt : string;
  isLoading : bool;
  error : option string;
  generatedImage : option string
}.
End Ai.

(** [canvasRef.current?.toDataURL('image/png')]; the encoder of the
    browser is the argument [toDataURL], applied to the commands that
    produced the content. *)
Definition canvasDataURL (toDataURL : list cmd -> string) (s : Studio)
  : option string :=
  match renderEffect s with
  | Some f => Some (toDataURL (canvasContent f))
  | None => None
  end.

(** [handleSubmit], with no other event during the awaited call.  The
    second component lists the requests sent to the model. *)
Definition handleSubmit (generateContent : list Part -> Reply)
  (toDataURL : list cmd -> string) (s : Studio)
  (overridePrompt : option string)
  (overrideImages : option (list (option string))) (a : Ai.t)
  : Ai.t * list (list Part) :=
  let currentPrompt :=
    match overridePrompt with
    | Some o => orElse o (Ai.prompt a)
    | None => Ai.prompt a
    end in
  if negb (truthy currentPrompt)
  then (Ai.mk (Ai.prompt a) (Ai.isLoading a) (Some "Please enter a prompt.")
          (Ai.generatedImage a), [])
  else
    let imageToSend :=
      match originalImage s with
      | Some _ => canvasDataURL toDataURL s
      | None => None
      end in
    let imagesToSend :=
      match overrideImages with
      | Some images => images
      | None => [imageToSend]
      end in
    if negb (existsb present imagesToSend) && negb (truthy currentPrompt)
    then (Ai.mk (Ai.prompt a) (Ai.isLoading a)
            (Some "Please upload an image or enter a prompt to create one.")
            (Ai.generatedImage a), [])
    else
      let sent := [requestParts currentPrompt imagesToSend] in
      match editOrCreateImage generateContent currentPrompt imagesToSend with
      | Returned result => (Ai.mk (Ai.prompt a) false None (Some result), sent)
      | Threw t =>
          (Ai.mk (Ai.prompt a) false
             (Some ("Failed to generate image: " ++ errorMessage t)%string)
             None, sent)
      end.

(** One stroke on the mask canvas of [handleApplyRemove]. *)
Definition maskStroke (path : Path.t) : list cmd :=
  if (List.length (Path.points path) <? 2)%nat then []
  else
    match Path.points path with
    | p0 :: rest =>
        [ SetLineWidth (Path.size path);
          BeginPath;
          MoveTo (Point.x p0) (Point.y p0) ]
        ++ map (fun p => LineTo (Point.x p) (Point.y p)) rest
        ++ [ Stroke ]
    | [] => []
    end.

Definition maskCanvas (width height : R) (removeMask : list Path.t)
  : list cmd :=
  [ SetCanvasSize width height;
    SetFillStyle "black";
    FillRect 0 0 width height;
    SetStrokeStyle "white";
    SetLineCap "round";
    SetLineJoin "round" ]
  ++ flat_map maskStroke removeMask.

(** [url || null] *)
Definition orNull (url : option string) : option string :=
  match url with
  | Some u => if truthy u then Some u else None
  | None => None
  end.

Definition REMOVE_PROMPT : string :=
  "In the first image, remove the area that is white in the second image which is a mask. The output should be the first image with the masked area removed and realistically filled in.".

(** [handleApplyRemove], with no other event during the awaited call. *)
Definition handleApplyRemove (generateContent : list Part -> Reply)
  (toDataURL : list cmd -> string) (s : Studio) (a : Ai.t)
  : Studio * Ai.t * list (list Part) :=
  match originalImage s with
  | Some image =>
      if (List.length (removeMask s) =? 0)%nat then (s, a, [])
      else
        let maskDataUrl :=
          toDataURL
            (maskCanvas (canvasWidth image (transforms s))
               (canvasHeight image (transforms s)) (removeMask s)) in
        let currentCanvasImage := canvasDataURL toDataURL s in
        let '(a', sent) :=
          handleSubmit generateContent toDataURL s (Some REMOVE_PROMPT)
            (Some [orNull currentCanvasImage; Some maskDataUrl]) a in
        (flush s (upd (setRemoveMask []) (queue s)), a', sent)
  | None => (s, a, [])
  end.

(** [handleAcceptGeneratedImage]; [decode] is the image that the browser
    loads from an encoded image. *)
Definition handleAcceptGeneratedImage (decode : string -> Image)
  (s : Studio) (a : Ai.t) : Studio * Ai.t :=
  match Ai.generatedImage a with
  | Some url =>
      if truthy url then
        let newFileName :=
          (splitFirst "." (orElse (fileName s) "generated")
           ++ "-ai-edit.png")%string in
        let p := upd (setOriginalImage (Some (decode url))) (queue s) in
        let p := upd (setFileName newFileName) p in
        let p :=
          upd (setExportFileName
                 (jsSubstring 0 (lastIndexOf "." newFileName) newFileName))
            p in
        (flush s (resetEdits INITIAL_EDIT_STATE p),
         Ai.mk (Ai.prompt a) (Ai.isLoading a) (Ai.error a) None)
      else (s, a)
  | None => (s, a)
  end.

(** ** The text playground *)

Inductive StreamEnd :=
| Completed
| Failed (t : Thrown).

(** What [ai.models.generateContentStream] gives: the chunks received,
    in order, and how the iteration ended.  The text of a chunk may be
    [undefined] ([None]). *)
Record Stream := mkStream {
  chunks : list (option string);
  ending : StreamEnd
}.

(** [prev + chunk] for [string | undefined] *)
Definition plus (prev : string) (chunk : option string) : string :=
  match chunk with
  | Some chunkText => (prev ++ chunkText)%string
  | None => (prev ++ "undefined")%string
  end.

Definition generateTextStream {A : Type} (generateContentStream : string -> Stream)
  (prompt : string) (onChunk : A -> option string -> A) (init : A)
  : A * StreamEnd :=
  let response := generateContentStream prompt in
  (fold_left onChunk (chunks response) init, ending response).

Module TextPlayground.
Record t := mk {
  prompt : string;
  result : string;
  isLoading : bool;
  error : option string
}.

(** [setResult((prev) => prev + chunk)] *)
Definition onChunk (p : t) (chunk : option string) : t :=
  mk (prompt p) (plus (result p) chunk) (isLoading p) (error p).

(** [handleSubmit], with no other event during the awaited call. *)
Definition handleSubmit (generateContentStream : string -> Stream) (p : t)
  : t :=
  if negb (truthy (prompt p))
  then mk (prompt p) (result p) (isLoading p) (Some "Please enter a prompt.")
  else
    let started := mk (prompt p) EmptyString true None in
    let '(streamed, e) :=
      generateTextStream generateContentStream (prompt p) onChunk started in
    match e with
    | Completed =>
        mk (prompt streamed) (result streamed) false (error streamed)
    | Failed t =>
        mk (prompt streamed) (result streamed) false
          (Some ("Failed to generate text: " ++ errorMessage t)%string)
    end.
End TextPlayground.

(** The texts of the chunks, joined. *)
Definition joined (chunks : list (option string)) : string :=
  fold_right (fun chunk rest => plus EmptyString chunk ++ rest)%string
    EmptyString chunks.

(** * Properties *)

Section Lists.
Context {A : Type}.

Lemma slice0_firstn (l : list A) (e : Z) :
  0 <= e -> slice0 l e = firstn (Z.to_nat e) l.
Proof.
  intros He. unfold slice0.
  destruct (Z.ltb_spec e 0) as [Hlt | _]; [lia |].
  destruct (Z.le_ge_cases e (Z.of_nat (List.length l))) as [Hle | Hge].
  - now rewrite Z.min_l.
  - rewrite Z.min_r by lia. rewrite Nat2Z.id.
    rewrite firstn_all. symmetry. apply firstn_all2. lia.
Qed.

Lemma nth_error_snoc (l : list A) (x : A) :
  nth_error (l ++ [x]) (List.length l) = Some x.
Proof.
  rewrite nth_error_app2 by lia. now rewrite Nat.sub_diag.
Qed.

Lemma find_all_false (f : A -> bool) (l : list A) :
  (forall y, In y l -> f y = false) -> find f l = None.
Proof.
  induction l as [| a l IH]; simpl; intros H; [reflexivity |].
  rewrite (H a (or_introl eq_refl)). apply IH. intros y Hy. apply H. now right.
Qed.

Lemma firstMatch_find (f : A -> bool) (l : list A) (x : A) :
  firstMatch f l x -> find f l = Some x.
Proof.
  intros (before & after & -> & Hx & Hb).
  induction before as [| a before IH]; simpl.
  - now rewrite Hx.
  - rewrite (Hb a (or_introl eq_refl)). apply IH.
    intros y Hy. apply Hb. now right.
Qed.

End Lists.

(** *** The restoring effect *)

Lemma restoreEffect_history (s : Studio) :
  history (restoreEffect s) = history s
  /\ historyIndex (restoreEffect s) = historyIndex s.
Proof.
  unfold restoreEffect.
  destruct (_ || _); [auto |].
  destruct (nth_error _ _); [now destruct s | auto].
Qed.

Lemma restoreEffect_current (s : Studio) (e : EditState.t) :
  0 <= historyIndex s ->
  nth_error (history s) (Z.to_nat (historyIndex s)) = Some e ->
  current (restoreEffect s) = e.
Proof.
  intros Hi Hn. unfold restoreEffect.
  assert (Hlen : (Z.to_nat (historyIndex s) < List.length (history s))%nat)
    by (apply nth_error_Some; congruence).
  destruct (Z.ltb_spec (historyIndex s) 0); [lia |].
  destruct (Z.leb_spec (Z.of_nat (List.length (history s))) (historyIndex s));
    [lia |].
  simpl. rewrite Hn. now destruct s, e.
Qed.

Lemma flush_history (s : Studio) (p : Pending) :
  history (flush s p) = history (st p)
  /\ historyIndex (flush s p) = historyIndex (st p).
Proof.
  unfold flush. destruct (_ || _); [apply restoreEffect_history | auto].
Qed.

Lemma flush_replaced (s : Studio) (p : Pending) :
  historyReplaced p = true -> flush s p = restoreEffect (st p).
Proof. unfold flush. now intros ->. Qed.

(** *** Commit *)

Lemma recordHistory_st (s : Studio) (a : PartialEditState.t) (p : Pending) :
  let newHistory :=
    slice0 (history s) (historyIndex s + 1) ++ [spread (current s) a] in
  history (st (recordHistory s a p)) = newHistory
  /\ historyIndex (st (recordHistory s a p))
     = Z.of_nat (List.length newHistory) - 1
  /\ historyReplaced (recordHistory s a p) = true.
Proof. destruct p as [q r]. now destruct q. Qed.

Lemma commit_history (a : PartialEditState.t) (s : Studio) :
  history (commit a s)
  = slice0 (history s) (historyIndex s + 1) ++ [spread (current s) a].
Proof.
  unfold commit.
  destruct (flush_history s (recordHistory s a (queue s))) as [-> _].
  apply recordHistory_st.
Qed.

Lemma commit_index (a : PartialEditState.t) (s : Studio) :
  historyIndex (commit a s)
  = Z.of_nat (List.length (history (commit a s))) - 1.
Proof.
  rewrite commit_history. unfold commit.
  destruct (flush_history s (recordHistory s a (queue s))) as [_ ->].
  apply recordHistory_st.
Qed.


(** *** Undo and redo *)

Lemma flush_queue (s : Studio) : flush s (queue s) = s.
Proof. unfold flush, queue. cbn. now rewrite Z.eqb_refl. Qed.

Lemma handleRedo_at_tail (s : Studio) :
  Z.of_nat (List.length (history s)) - 1 <= historyIndex s ->
  handleRedo s = s.
Proof.
  intros H. unfold handleRedo.
  destruct (Z.ltb_spec (historyIndex s) (Z.of_nat (List.length (history s)) - 1));
    [lia | apply flush_queue].
Qed.

Lemma handleUndo_at_head (s : Studio) :
  historyIndex s <= 0 -> handleUndo s = s.
Proof.
  intros H. unfold handleUndo.
  destruct (Z.ltb_spec 0 (historyIndex s)); [lia | apply flush_queue].
Qed.

Lemma handleUndo_back (s : Studio) :
  0 < historyIndex s ->
  history (handleUndo s) = history s
  /\ historyIndex (handleUndo s) = historyIndex s - 1.
Proof.
  intros H. unfold handleUndo.
  destruct (Z.ltb_spec 0 (historyIndex s)); [| lia].
  destruct (flush_history s
              (upd (fun q => setHistoryIndex (historyIndex q - 1) q) (queue s)))
    as [-> ->].
  now destruct s.
Qed.

Lemma flush_moved (s : Studio) (p : Pending) :
  historyIndex (st p) <> historyIndex s -> flush s p = restoreEffect (st p).
Proof.
  intros H. unfold flush.
  apply Z.eqb_neq in H. rewrite H. now rewrite orb_true_r.
Qed.



(** *** Sessions *)

Lemma resetEdits_fresh (s : Studio) (p : Pending) :
  freshlyReset (flush s (resetEdits INITIAL_EDIT_STATE p)).
Proof.
  rewrite flush_replaced by (destruct p as [[] ?]; reflexivity).
  destruct p as [[] ?]. repeat split.
Qed.

Lemma handleFullReset_fresh (s : Studio) : freshlyReset (handleFullReset s).
Proof. apply resetEdits_fresh. Qed.

Lemma handleFileLoaded_fresh (s : Studio) (image : Image) (name stem : string) :
  freshlyReset (handleFileLoaded s image name stem).
Proof. apply resetEdits_fresh. Qed.




(** *** Redo *)

Lemma handleRedo_moves_back (s : Studio) :
  historyIndex s < Z.of_nat (List.length (history s)) - 1 ->
  history (handleRedo s) = history s
  /\ historyIndex (handleRedo s) = historyIndex s - 1.
Proof.
  intros H. unfold handleRedo.
  destruct (Z.ltb_spec (historyIndex s) (Z.of_nat (List.length (history s)) - 1));
    [| lia].
  destruct (flush_history s
              (upd (fun q => setHistoryIndex (historyIndex q - 1) q) (queue s)))
    as [-> ->].
  now destruct s.
Qed.

(** C1, on the code.  After one rotation and one undo the history holds
    two snapshots and the index is 0, so a redo is due; [handleRedo] moves
    the index to -1 instead of 1, the history is unchanged and the state
    displayed stays the one reached by the undo. *)
Theorem handleRedo_after_undo :
  let s := handleUndo (rotateRight loaded) in
  historyIndex s = 0
  /\ List.length (history s) = 2%nat
  /\ historyIndex (handleRedo s) = -1
  /\ history (handleRedo s) = history s
  /\ current (handleRedo s) = current s.
Proof. vm_compute. repeat split. Qed.

(** *** History invariant *)



(** *** Commit and the redo branch *)

(** C3 is false for an index below -1, which two presses of the redo
    button reach: the commit then keeps the first two of the three
    snapshots, all of which lie after the index. *)
Lemma commit_after_overshoot :
  historyIndex overshot = -2
  /\ ~ truncatedAt overshot (commit PartialEditState.empty overshot)
         (spread (current overshot) PartialEditState.empty).
Proof.
  split; [reflexivity |].
  unfold truncatedAt. vm_compute. discriminate.
Qed.

(** C3, amended.  From an index that is at least -1, a commit keeps the
    snapshots up to the current index, appends the new one and moves the
    index to it; a redo right after the commit changes nothing. *)
Theorem commit_truncates (s : Studio) (a : PartialEditState.t) :
  -1 <= historyIndex s ->
  truncatedAt s (commit a s) (spread (current s) a)
  /\ historyIndex (commit a s)
     = Z.of_nat (List.length (history (commit a s))) - 1
  /\ handleRedo (commit a s) = commit a s.
Proof.
  intros H. repeat split.
  - unfold truncatedAt. rewrite commit_history.
    now rewrite slice0_firstn by lia.
  - apply commit_index.
  - apply handleRedo_at_tail. rewrite commit_index. lia.
Qed.

(** *** Pointer-up *)

Lemma flush_untouched (s : Studio) (p : Pending) :
  historyReplaced p = false ->
  historyIndex (st p) = historyIndex s ->
  flush s p = st p.
Proof.
  intros Hr Hi. unfold flush. now rewrite Hr, Hi, Z.eqb_refl.
Qed.

(** C6 is false as stated: the select tool is pressed on a rectangle and
    released without a move, so no position changed, and the pointer-up
    still adds a history entry. *)
Lemma commit_without_move :
  let down := setActiveTool (Some select) sketched in
  isDrawing grabbed = true
  /\ ~ closingAfterMove down grabbed
  /\ history (handleMouseUpOrLeave grabbed)
     = history grabbed ++ [current grabbed].
Proof.
  split; [reflexivity |]. split; [| reflexivity].
  unfold closingAfterMove. vm_compute.
  intros [H | [H | [_ [H | H]]]]; try discriminate H; now apply H.
Qed.

Lemma restoreEffect_interaction (s : Studio) :
  isDrawing (restoreEffect s) = isDrawing s
  /\ isDragging (restoreEffect s) = isDragging s
  /\ startPoint (restoreEffect s) = startPoint s.
Proof.
  unfold restoreEffect.
  destruct (_ || _); [auto |].
  destruct (nth_error _ _); [now destruct s | auto].
Qed.

(** The two outcomes of a pointer-up that closes an interaction. *)
Lemma handleMouseUpOrLeave_closing (s : Studio) :
  isDrawing s = true ->
  closing s ->
  let newHistory :=
    slice0 (history s) (historyIndex s + 1) ++ [current s] in
  handleMouseUpOrLeave s
  = restoreEffect
      (setStartPoint None
         (setIsDragging false
            (setIsDrawing false
               (setHistoryIndex (Z.of_nat (List.length newHistory) - 1)
                  (setHistory newHistory s))))).
Proof.
  intros Hd Hc. unfold handleMouseUpOrLeave. rewrite Hd.
  destruct Hc as [Ht | [Ht | [Ht Hg]]]; rewrite Ht; try rewrite Hg;
    cbn [tool_is Tool_eqb andb];
    (rewrite flush_replaced by (now destruct s)); now destruct s.
Qed.

Lemma handleMouseUpOrLeave_idle (s : Studio) :
  isDrawing s = true ->
  ~ closing s ->
  handleMouseUpOrLeave s
  = setStartPoint None (setIsDragging false (setIsDrawing false s)).
Proof.
  intros Hd Hc. unfold closing in Hc. unfold handleMouseUpOrLeave.
  rewrite Hd.
  destruct (activeTool s) as [[] |] eqn:Ht;
    destruct (isDragging s) eqn:Hg;
    cbn [tool_is Tool_eqb andb];
    try (exfalso; apply Hc; now auto);
    (rewrite flush_untouched by (now destruct s)); reflexivity.
Qed.

Lemma handleMouseUpOrLeave_spec (s : Studio) :
  isDrawing s = true ->
  let s' := handleMouseUpOrLeave s in
  (closing s ->
   history s'
   = slice0 (history s) (historyIndex s + 1) ++ [current s]
   /\ historyIndex s' = Z.of_nat (List.length (history s')) - 1)
  /\ (~ closing s ->
      history s' = history s /\ historyIndex s' = historyIndex s)
  /\ current s' = current s
  /\ isDrawing s' = false /\ isDragging s' = false /\ startPoint s' = None.
Proof.
  intros Hd s'. subst s'.
  assert (Hcases : closing s \/ ~ closing s).
  { unfold closing.
    destruct (activeTool s) as [[] |]; destruct (isDragging s); auto;
      right; intros [H | [H | [H H']]]; discriminate. }
  destruct Hcases as [Hc | Hc].
  - rewrite (handleMouseUpOrLeave_closing s Hd Hc).
    match goal with |- context [restoreEffect ?x] => set (q := x) end.
    assert (Hq : history q
                 = slice0 (history s) (historyIndex s + 1) ++ [current s]
                 /\ historyIndex q = Z.of_nat (List.length (history q)) - 1)
      by (subst q; now destruct s).
    destruct Hq as [Hqh Hqi].
    destruct (restoreEffect_history q) as [Hh Hi].
    destruct (restoreEffect_interaction q) as (H1 & H2 & H3).
    rewrite Hh, Hi, H1, H2, H3.
    split; [intros _; split; assumption |].
    split; [intros H; contradiction |].
    split; [| subst q; now destruct s].
    apply restoreEffect_current; rewrite Hqi, Hqh, length_app;
      cbn [List.length].
    + lia.
    + replace (Z.to_nat _) with
        (List.length (slice0 (history s) (historyIndex s + 1))) by lia.
      apply nth_error_snoc.
  - rewrite (handleMouseUpOrLeave_idle s Hd Hc).
    split; [intros H; contradiction |].
    now destruct s.
Qed.

(** C6, amended.  A pointer-up or pointer-leave that closes an open
    interaction commits the displayed edit state as one entry when the
    tool is draw or shape, or when it is select and a drag is in progress
    (an element was hit on pointer-down, whether or not it moved);
    otherwise the history and the index are unchanged.  In both cases the
    displayed edit state stays and the interaction is closed. *)
Theorem pointer_up_commits (s : Studio) :
  isDrawing s = true ->
  let s' := handleMouseUpOrLeave s in
  (closing s ->
   history s'
   = slice0 (history s) (historyIndex s + 1) ++ [current s]
   /\ historyIndex s' = Z.of_nat (List.length (history s')) - 1)
  /\ (~ closing s ->
      history s' = history s /\ historyIndex s' = historyIndex s)
  /\ current s' = current s
  /\ isDrawing s' = false /\ isDragging s' = false /\ startPoint s' = None.
Proof. exact (handleMouseUpOrLeave_spec s). Qed.

(** *** Hit test *)

Lemma textHit_spec (c : Point.t) (t : TextElement.t) :
  textHit c t = true <-> inTextBox c t.
Proof.
  unfold textHit, inTextBox, geq, leq.
  rewrite !andb_true_iff, !Qle_bool_iff. tauto.
Qed.

Lemma shapeHit_spec (c : Point.t) (e : ShapeElement.t) :
  shapeHit c e = true <-> inShapeBox c e.
Proof.
  unfold shapeHit, inShapeBox, geq, leq.
  rewrite !andb_true_iff, !Qle_bool_iff. tauto.
Qed.

Lemma strictly_inside (c : Point.t) (e : ShapeElement.t) :
  strictlyInShapeBox c e -> inShapeBox c e.
Proof.
  intros (H1 & H2 & H3 & H4). repeat split; now apply Qlt_le_weak.
Qed.

Lemma miss_all {A : Type} (f : A -> bool) (P : A -> Prop) (l : list A) :
  (forall x, f x = true <-> P x) ->
  (forall x, In x l -> ~ P x) ->
  forall x, In x l -> f x = false.
Proof.
  intros Hf Hl x Hx. destruct (f x) eqn:E; [| reflexivity].
  exfalso. apply (Hl x Hx). now apply Hf.
Qed.

(** The state after a pointer-down of the select tool, by the outcome of
    the two searches. *)
Lemma handleMouseDown_select (s : Studio) (c : Point.t) (stamp : string) :
  activeTool s = Some select ->
  let pressed :=
    setSelectedElement None (setIsDrawing true (setStartPoint (Some c) s)) in
  handleMouseDown s (Some c) stamp
  = match find (textHit c) (texts s) with
    | Some t =>
        setDragStartPoint
          (Point.mk (Point.x c - TextElement.x t) (Point.y c - TextElement.y t))
          (setIsDragging true
             (setSelectedElement
                (Some (Selection.mk text_element (TextElement.id t))) pressed))
    | None =>
        match find (shapeHit c) (shapes s) with
        | Some e =>
            setDragStartPoint
              (Point.mk (Point.x c - ShapeElement.x1 e)
                 (Point.y c - ShapeElement.y1 e))
              (setIsDragging true
                 (setSelectedElement
                    (Some (Selection.mk shape_element (ShapeElement.id e)))
                    pressed))
        | None => pressed
        end
    end.
Proof.
  intros Ht. unfold handleMouseDown. rewrite Ht.
  cbn [tool_is Tool_eqb orb].
  destruct (find (textHit c) (texts s)) as [t |];
    [| destruct (find (shapeHit c) (shapes s)) as [e |]];
    (rewrite flush_untouched by (now destruct s)); now destruct s.
Qed.

(** C7.  On pointer-down with the select tool the texts are searched
    first, with the box of width size * length * 0.6 and height size at
    the anchor, then the shapes, with the bounding box of the two control
    points; the first match is selected and a drag starts, with the
    offset of the pointer from the anchor of the element.  A point
    strictly inside the box of some shape selects an element; a point
    outside the box of every element selects nothing. *)
Theorem select_hit_test (s : Studio) (c : Point.t) (stamp : string) :
  activeTool s = Some select ->
  let s' := handleMouseDown s (Some c) stamp in
  (forall t, textHit c t = true <-> inTextBox c t)
  /\ (forall e, shapeHit c e = true <-> inShapeBox c e)
  /\ (forall t,
        firstMatch (textHit c) (texts s) t ->
        selectedElement s'
        = Some (Selection.mk text_element (TextElement.id t))
        /\ isDragging s' = true
        /\ dragStartPoint s'
           = Point.mk (Point.x c - TextElement.x t)
               (Point.y c - TextElement.y t))
  /\ (forall e,
        (forall t, In t (texts s) -> ~ inTextBox c t) ->
        firstMatch (shapeHit c) (shapes s) e ->
        selectedElement s'
        = Some (Selection.mk shape_element (ShapeElement.id e))
        /\ isDragging s' = true
        /\ dragStartPoint s'
           = Point.mk (Point.x c - ShapeElement.x1 e)
               (Point.y c - ShapeElement.y1 e))
  /\ ((exists e, In e (shapes s) /\ strictlyInShapeBox c e) ->
      selectedElement s' <> None /\ isDragging s' = true)
  /\ ((forall t, In t (texts s) -> ~ inTextBox c t) ->
      (forall e, In e (shapes s) -> ~ inShapeBox c e) ->
      selectedElement s' = None
      /\ isDragging s' = isDragging s
      /\ dragStartPoint s' = dragStartPoint s).
Proof.
  intros Ht s'. subst s'. rewrite (handleMouseDown_select s c stamp Ht).
  split; [apply textHit_spec |]. split; [apply shapeHit_spec |].
  split; [| split; [| split]].
  - intros t Hm. rewrite (firstMatch_find _ _ _ Hm). now destruct s.
  - intros e Hmiss Hm.
    rewrite (find_all_false _ _ (miss_all _ _ _ (textHit_spec c) Hmiss)).
    rewrite (firstMatch_find _ _ _ Hm). now destruct s.
  - intros (e & He & Hin).
    destruct (find (textHit c) (texts s)) as [t |];
      [destruct s; split; [discriminate | reflexivity] |].
    destruct (find (shapeHit c) (shapes s)) as [e' |] eqn:Hf;
      [destruct s; split; [discriminate | reflexivity] |].
    pose proof (List.find_none _ _ Hf e He) as Hno.
    apply strictly_inside, shapeHit_spec in Hin. congruence.
  - intros Hts Hss.
    rewrite (find_all_false _ _ (miss_all _ _ _ (textHit_spec c) Hts)).
    rewrite (find_all_false _ _ (miss_all _ _ _ (shapeHit_spec c) Hss)).
    now destruct s.
Qed.

(** *** Dragging a shape *)

Lemma radius_translated (e e' : ShapeElement.t) :
  (ShapeElement.x2 e' - ShapeElement.x1 e'
   == ShapeElement.x2 e - ShapeElement.x1 e)%Q ->
  (ShapeElement.y2 e' - ShapeElement.y1 e'
   == ShapeElement.y2 e - ShapeElement.y1 e)%Q ->
  radius e' = radius e.
Proof.
  intros Hx Hy. unfold radius, sq. f_equal. apply Qeq_eqR.
  now rewrite Hx, Hy.
Qed.

Lemma moveShapes_length (sel : Selection) (c off : Point.t) (fresh : nat)
  (l : list ShapeElement.t) :
  List.length (moveShapes sel c off fresh l) = List.length l.
Proof.
  revert fresh. induction l as [| e l IH]; intros fresh; cbn;
    [reflexivity | now rewrite IH].
Qed.

Lemma moveShapes_nth (sel : Selection) (c off : Point.t) (fresh i : nat)
  (l : list ShapeElement.t) (e : ShapeElement.t) :
  nth_error l i = Some e ->
  nth_error (moveShapes sel c off fresh l) i
  = Some (moveShape sel c off (fresh + i) e).
Proof.
  revert fresh i. induction l as [| a l IH]; intros fresh i H.
  - destruct i; discriminate.
  - destruct i as [| i]; cbn in *.
    + injection H as ->. now rewrite Nat.add_0_r.
    + rewrite (IH (S fresh) i H). now rewrite Nat.add_succ_r.
Qed.

Lemma moveShape_spec (sel : Selection) (c off : Point.t) (fresh : nat)
  (e : ShapeElement.t) :
  let e' := moveShape sel c off fresh e in
  ShapeElement.type e' = ShapeElement.type e
  /\ ShapeElement.color e' = ShapeElement.color e
  /\ ShapeElement.strokeWidth e' = ShapeElement.strokeWidth e
  /\ ShapeElement.id e' = ShapeElement.id e
  /\ (ShapeElement.id e <> Selection.id sel -> e' = e)
  /\ (ShapeElement.id e = Selection.id sel ->
      exists dx dy : Q,
        ShapeElement.x1 e' = (ShapeElement.x1 e + dx)%Q
        /\ ShapeElement.y1 e' = (ShapeElement.y1 e + dy)%Q
        /\ ShapeElement.x2 e' = (ShapeElement.x2 e + dx)%Q
        /\ ShapeElement.y2 e' = (ShapeElement.y2 e + dy)%Q)
  /\ (ShapeElement.x2 e' - ShapeElement.x1 e'
      == ShapeElement.x2 e - ShapeElement.x1 e)%Q
  /\ (ShapeElement.y2 e' - ShapeElement.y1 e'
      == ShapeElement.y2 e - ShapeElement.y1 e)%Q.
Proof.
  unfold moveShape.
  destruct (String.eqb_spec (ShapeElement.id e) (Selection.id sel)) as [E | E];
    cbn [negb ShapeElement.type ShapeElement.color ShapeElement.strokeWidth
           ShapeElement.id ShapeElement.x1 ShapeElement.x2 ShapeElement.y1
           ShapeElement.y2].
  - repeat split; try ring.
    + intros H. contradiction.
    + intros _. eexists. eexists. repeat split.
  - repeat split; try reflexivity.
    intros H. contradiction.
Qed.

(** C9.  A move of a select-drag whose selection is a shape rewrites the
    shapes element by element.  A shape with another id is unchanged.  A
    shape with the selected id has both control points moved by one and
    the same delta.  For every shape the type, the colour, the stroke
    width and the id are kept, and so are the differences x2 - x1 and
    y2 - y1 and with them the radius; nothing else of the edit state and
    nothing of the history changes. *)
Theorem shape_drag_translates (s : Studio) (c : Point.t) (sel : Selection) :
  isDrawing s = true ->
  activeTool s = Some select ->
  isDragging s = true ->
  selectedElement s = Some sel ->
  Selection.type sel = shape_element ->
  exists s',
    handleMouseMove s (Some c) = Some s'
    /\ List.length (shapes s') = List.length (shapes s)
    /\ (forall i e,
          nth_error (shapes s) i = Some e ->
          exists e',
            nth_error (shapes s') i = Some e'
            /\ ShapeElement.type e' = ShapeElement.type e
            /\ ShapeElement.color e' = ShapeElement.color e
            /\ ShapeElement.strokeWidth e' = ShapeElement.strokeWidth e
            /\ ShapeElement.id e' = ShapeElement.id e
            /\ (ShapeElement.id e <> Selection.id sel -> e' = e)
            /\ (ShapeElement.id e = Selection.id sel ->
                exists dx dy : Q,
                  ShapeElement.x1 e' = (ShapeElement.x1 e + dx)%Q
                  /\ ShapeElement.y1 e' = (ShapeElement.y1 e + dy)%Q
                  /\ ShapeElement.x2 e' = (ShapeElement.x2 e + dx)%Q
                  /\ ShapeElement.y2 e' = (ShapeElement.y2 e + dy)%Q)
            /\ (ShapeElement.x2 e' - ShapeElement.x1 e'
                == ShapeElement.x2 e - ShapeElement.x1 e)%Q
            /\ (ShapeElement.y2 e' - ShapeElement.y1 e'
                == ShapeElement.y2 e - ShapeElement.y1 e)%Q
            /\ radius e' = radius e)
    /\ texts s' = texts s
    /\ paths s' = paths s
    /\ adjustments s' = adjustments s
    /\ transforms s' = transforms s
    /\ history s' = history s
    /\ historyIndex s' = historyIndex s.
Proof.
  intros Hd Ht Hg Hs Hk.
  exists (setShapes
            (moveShapes sel c (dragStartPoint s) (newObj s) (shapes s))
            (setObjects (newObj s + List.length (shapes s)) s)).
  split.
  - unfold handleMouseMove. rewrite Hd, Ht, Hg, Hs. cbn [negb tool_is Tool_eqb andb].
    rewrite Hk. cbv zeta. rewrite flush_untouched by (now destruct s).
    reflexivity.
  - split; [destruct s; cbn; apply moveShapes_length |].
    split; [| now destruct s].
    intros i e He.
    exists (moveShape sel c (dragStartPoint s) (newObj s + i) e).
    split; [destruct s; cbn in *; now apply moveShapes_nth |].
    destruct (moveShape_spec sel c (dragStartPoint s) (newObj s + i) e)
      as (H1 & H2 & H3 & H4 & H5 & H6 & H7 & H8).
    repeat split; try assumption.
    now apply radius_translated.
Qed.
(** *** Crop *)

Lemma quarter_turn : (Q2R 90 * PI / 180 = PI / 2)%R.
Proof. unfold Q2R. cbn [Qnum Qden]. field. Qed.

(** C5 is false for a rectangle out of the canvas: the rectangle of
    [turned] reaches x = 100 on a canvas that is 40 wide, and the crop is
    applied all the same. *)
Lemma crop_out_of_bounds :
  let r := Rect.mk 60 0 40 40 in
  cropRect turned = Some r
  /\ originalImage turned = Some banner
  /\ canvasWidth banner (transforms turned) = 40%R
  /\ ~ withinCanvas r (canvasWidth banner (transforms turned))
         (canvasHeight banner (transforms turned))
  /\ handleApplyCrop turned <> turned.
Proof.
  assert (Hw : canvasWidth banner (transforms turned) = 40%R).
  { change (transforms turned) with (Transforms.mk 90 (Flip.mk false false)).
    unfold canvasWidth, radians. cbn [Transforms.rotate].
    rewrite quarter_turn, cos_PI2, sin_PI2, Rabs_R0, Rabs_R1.
    unfold Q2R. cbn. lra. }
  repeat split.
  - exact Hw.
  - intros (_ & _ & H & _). rewrite Hw in H.
    unfold Q2R in H. cbn in H. lra.
  - intros H. apply (f_equal fileName) in H. vm_compute in H. discriminate H.
Qed.

Lemma canvasExtent_floor (default : Z) (v : Q) :
  (1 <= v)%Q -> (v <= 2147483647)%Q ->
  canvasExtent default v = Qfloor v /\ 1 <= Qfloor v.
Proof.
  intros H1 H2.
  assert (Hlo : 1 <= Qfloor v)
    by (change 1 with (Qfloor 1); now apply Qfloor_resp_le).
  assert (Hhi : Qfloor v <= 2147483647)
    by (change 2147483647 with (Qfloor 2147483647); now apply Qfloor_resp_le).
  split; [| exact Hlo].
  unfold canvasExtent. destruct v as [n d]. cbn [Qnum Qden Qfloor] in *.
  assert (Hn : 0 <= n).
  { destruct (Z.lt_ge_cases n 0) as [Hneg | Hpos]; [| exact Hpos].
    assert (n / Z.pos d < 0) by (apply Z.div_lt_upper_bound; lia). lia. }
  rewrite Z.quot_div_nonneg by lia.
  rewrite Z.mod_small by lia.
  destruct (Z.leb_spec (n / Z.pos d) 2147483647); [reflexivity | lia].
Qed.

Lemma canvasExtent_none (default : Z) (v : Q) :
  (0 < v)%Q -> (v < 1)%Q -> canvasExtent default v = 0.
Proof.
  intros H0 H1.
  assert (Hlo : 0 <= Qfloor v)
    by (change 0 with (Qfloor 0); apply Qfloor_resp_le; now apply Qlt_le_weak).
  assert (Hhi : Qfloor v < 1).
  { pose proof (Qfloor_le v) as Hf.
    assert (Hq : (inject_Z (Qfloor v) < inject_Z 1)%Q)
      by (eapply Qle_lt_trans; [exact Hf | exact H1]).
    now rewrite <- Zlt_Qlt in Hq. }
  unfold canvasExtent. destruct v as [n d]. cbn [Qnum Qden Qfloor] in *.
  assert (Hn : 0 <= n).
  { destruct (Z.lt_ge_cases n 0) as [Hneg | Hpos]; [| exact Hpos].
    assert (n / Z.pos d < 0) by (apply Z.div_lt_upper_bound; lia). lia. }
  rewrite Z.quot_div_nonneg by lia.
  replace (n / Z.pos d) with 0 by lia. reflexivity.
Qed.

(** C5, amended.  With an image loaded and a crop rectangle set: when the
    width and the height of the rectangle are positive, the crop is
    applied, wherever the rectangle lies: the edit state becomes the
    initial one and the history becomes the one initial snapshot at
    index 0.  The new source image has the size of the crop canvas.  For
    a width and a height from 1 to 2147483647 that is the integer part
    of each, hence exactly the width and the height of a rectangle whose
    sides are whole numbers.  For a width or a height below 1 the canvas
    has no pixels and the new source is an image that does not decode.
    When the width or the height is not positive, the crop is ignored
    and the state is unchanged. *)
Theorem crop_applied_or_ignored (s : Studio) (r : Rect.t) (image : Image) :
  cropRect s = Some r ->
  originalImage s = Some image ->
  let s' := handleApplyCrop s in
  ((0 < Rect.width r /\ 0 < Rect.height r)%Q ->
   (exists cropped,
      originalImage s' = Some cropped
      /\ ((1 <= Rect.width r /\ Rect.width r <= 2147483647
           /\ 1 <= Rect.height r /\ Rect.height r <= 2147483647)%Q ->
          naturalWidth cropped = inject_Z (Qfloor (Rect.width r))
          /\ naturalHeight cropped = inject_Z (Qfloor (Rect.height r))
          /\ (forall n m : Z,
                (Rect.width r == inject_Z n)%Q ->
                (Rect.height r == inject_Z m)%Q ->
                (naturalWidth cropped == Rect.width r
                 /\ naturalHeight cropped == Rect.height r)%Q))
      /\ ((Rect.width r < 1 \/ Rect.height r < 1)%Q ->
          cropped = mkImage 0 0 (Encoded "data:,")))
   /\ current s' = INITIAL_EDIT_STATE
   /\ history s' = [INITIAL_EDIT_STATE]
   /\ historyIndex s' = 0)
  /\ ((Rect.width r <= 0 \/ Rect.height r <= 0)%Q -> s' = s).
Proof.
  intros Hr Hi s'. subst s'. unfold handleApplyCrop, renderEffect.
  rewrite Hr, Hi. unfold leq.
  destruct (Qle_bool (Rect.width r) 0) eqn:Ew;
    destruct (Qle_bool (Rect.height r) 0) eqn:Eh;
    cbn [orb]; split; try (intros _; reflexivity);
    try (intros [Hw Hh]; exfalso;
         first [ apply Qle_bool_iff in Ew; apply (Qlt_not_le _ _ Hw Ew)
               | apply Qle_bool_iff in Eh; apply (Qlt_not_le _ _ Hh Eh) ]).
  - intros [Hw Hh]. rewrite flush_replaced by (now destruct s).
    match goal with
    | |- context [setOriginalImage (Some ?c)] => set (cropped := c)
    end.
    split; [| destruct s; cbn; repeat split].
    exists cropped. split; [now destruct s |]. subst cropped. split.
    + intros (W1 & W2 & H1 & H2).
      destruct (canvasExtent_floor 300 _ W1 W2) as [-> Wp].
      destruct (canvasExtent_floor 150 _ H1 H2) as [-> Hp].
      unfold canvasImage.
      destruct (Z.eqb_spec (Qfloor (Rect.width r)) 0) as [E | _]; [lia |].
      destruct (Z.eqb_spec (Qfloor (Rect.height r)) 0) as [E | _]; [lia |].
      cbn [orb naturalWidth naturalHeight].
      split; [reflexivity |]. split; [reflexivity |].
      intros n m En Em.
      rewrite (Qfloor_comp _ _ En), (Qfloor_comp _ _ Em), !Qfloor_Z.
      split; symmetry; assumption.
    + intros [H | H].
      * rewrite (canvasExtent_none 300 _ Hw H). reflexivity.
      * rewrite (canvasExtent_none 150 _ Hh H). unfold canvasImage.
        cbn [Z.eqb]. now rewrite orb_true_r.
  - intros [H | H]; apply Qle_bool_iff in H; congruence.
Qed.

(** *** Canvas extent *)

Lemma Q2R_zero (q : Q) : (q == 0)%Q -> Q2R q = 0%R.
Proof.
  intros H. rewrite (Qeq_eqR _ _ H). unfold Q2R. cbn. lra.
Qed.

(** C8.  The first command of the renderer sets the canvas extent to
    w |cos a| + h |sin a| by h |cos a| + w |sin a|, where a is the
    rotation in radians and w, h the size of the image; the flip flags do
    not enter; and with a rotation of 0 the extent is w by h. *)
Theorem canvas_extent (s : Studio) (image : Image) :
  let a := (Q2R (Transforms.rotate (transforms s)) * PI / 180)%R in
  let w := Q2R (naturalWidth image) in
  let h := Q2R (naturalHeight image) in
  hd_error (drawn (render s image))
  = Some
      (SetCanvasSize (w * Rabs (cos a) + h * Rabs (sin a))
         (h * Rabs (cos a) + w * Rabs (sin a)))
  /\ (forall f : Flip.t,
        hd_error
          (drawn
             (render
                (setTransforms
                   (Transforms.mk (Transforms.rotate (transforms s)) f) s)
                image))
        = hd_error (drawn (render s image)))
  /\ ((Transforms.rotate (transforms s) == 0)%Q ->
      hd_error (drawn (render s image)) = Some (SetCanvasSize w h)).
Proof.
  intros a w h. repeat split.
  - intros f. now destruct s.
  - intros H. unfold render. cbn [drawn app hd_error]. do 2 f_equal.
    + unfold canvasWidth, radians. rewrite (Q2R_zero _ H).
      replace (0 * PI / 180)%R with 0%R by lra.
      rewrite cos_0, sin_0, Rabs_R0, Rabs_R1. fold w h. lra.
    + unfold canvasHeight, radians. rewrite (Q2R_zero _ H).
      replace (0 * PI / 180)%R with 0%R by lra.
      rewrite cos_0, sin_0, Rabs_R0, Rabs_R1. fold w h. lra.
Qed.

(** *** Short paths *)

Lemma drawPath_short (p : Path.t) :
  (List.length (Path.points p) < 2)%nat -> drawPath p = [].
Proof.
  intros H. unfold drawPath.
  now destruct (Nat.ltb_spec (List.length (Path.points p)) 2); [| lia].
Qed.

Lemma flat_map_drawPath_skip (before after : list Path.t) (p : Path.t) :
  (List.length (Path.points p) < 2)%nat ->
  flat_map drawPath (before ++ p :: after)
  = flat_map drawPath (before ++ after).
Proof.
  intros H. rewrite !flat_map_app. cbn [flat_map].
  now rewrite (drawPath_short p H).
Qed.

Lemma render_skip (s : Studio) (image : Image) (before after : list Path.t)
  (p : Path.t) :
  paths s = before ++ p :: after ->
  (List.length (Path.points p) < 2)%nat ->
  render s image = render (setPaths (before ++ after) s) image.
Proof.
  intros Hp Hl. destruct s. cbn in Hp. subst.
  unfold render, drawSelection.
  cbn [paths setPaths transforms adjustments activeTool removeMask shapes
         texts cropRect selectedElement subjectMask].
  now rewrite (flat_map_drawPath_skip before after p Hl).
Qed.

(** C10.  A path with fewer than two points draws nothing: the renderer
    gives the same frame with the path and without it.  In particular a
    pointer-down of the draw tool that is released without a move leaves
    a one-point path, which the pointer-up commits to the history and
    which changes nothing in the frame. *)
Theorem short_path_draws_nothing (s : Studio) (image : Image) :
  (forall before p after,
     paths s = before ++ p :: after ->
     (List.length (Path.points p) < 2)%nat ->
     render s image = render (setPaths (before ++ after) s) image)
  /\ (forall c stamp,
        activeTool s = Some draw ->
        let s' := handleMouseUpOrLeave (handleMouseDown s (Some c) stamp) in
        let dot :=
          Path.mk [c] (brushColor (options s)) (brushSize (options s)) stamp
            (newObj s) in
        history s'
        = slice0 (history s) (historyIndex s + 1)
          ++ [EditState.mk (adjustments s) (transforms s) (paths s ++ [dot])
                (texts s) (shapes s)]
        /\ paths s' = paths s ++ [dot]
        /\ render s' image = render (setPaths (paths s) s') image).
Proof.
  split; [intros before p after; apply render_skip |].
  intros c stamp Ht s' dot.
  assert (Hdown : handleMouseDown s (Some c) stamp
                  = setPaths (paths s ++ [dot])
                      (setObjects (newObj s)
                         (setSelectedElement None
                            (setIsDrawing true (setStartPoint (Some c) s))))).
  { unfold handleMouseDown. rewrite Ht. cbn [tool_is Tool_eqb orb].
    rewrite flush_untouched by (now destruct s). now destruct s. }
  assert (Hd : isDrawing (handleMouseDown s (Some c) stamp) = true)
    by (rewrite Hdown; now destruct s).
  assert (Hc : closing (handleMouseDown s (Some c) stamp))
    by (left; rewrite Hdown; now destruct s).
  destruct (handleMouseUpOrLeave_spec _ Hd) as (Hcommit & _ & Hcur & _).
  destruct (Hcommit Hc) as [Hh _]. fold s' in Hh, Hcur.
  assert (Hpaths : paths s' = paths s ++ [dot]).
  { apply (f_equal EditState.paths) in Hcur. cbn [current EditState.paths] in Hcur.
    rewrite Hcur, Hdown. now destruct s. }
  split; [rewrite Hh, Hdown; now destruct s |].
  split; [exact Hpaths |].
  rewrite (render_skip s' image (paths s) [] dot);
    [now rewrite app_nil_r | exact Hpaths | cbn; lia].
Qed.

(** *** Debounced commit *)

Lemma spread_carries (base : EditState.t) (a : PartialEditState.t) :
  carries a (spread base a).
Proof.
  unfold carries, spread. destruct a as [[] [] [] [] []]; cbn;
    repeat split; intros v H; congruence.
Qed.

Lemma advance_early (pg0 pg : Page) (t : Z) :
  settled pg0 pg ->
  now pg <= t ->
  (timers pg <> [] -> t < now pg + 400) ->
  advance t pg = mkPage (studio pg) t (timers pg) (lastTimerId pg).
Proof.
  intros (_ & _ & _ & Ht) Hn Hw. unfold advance.
  rewrite Z.max_l by assumption.
  destruct Ht as [-> | (x & He & _ & _ & Hdue & _)]; [reflexivity |].
  rewrite He in *. cbn [filter].
  assert (Hlate : (due x <=? t) = false)
    by (apply Z.leb_gt; rewrite Hdue; apply Hw; discriminate).
  now rewrite Hlate.
Qed.

Lemma call_spec (pg0 pg : Page) (c : Call) :
  settled pg0 pg ->
  inTime pg c ->
  let s := studio pg in
  let id := lastTimerId pg + 1 in
  timers (call pg c)
  = [mkTimer id (when c + 400) s (arg c (current s))]
  /\ now (call pg c) = when c
  /\ lastTimerId (call pg c) = id
  /\ historyTimeoutRef (studio (call pg c)) = Some id
  /\ history (studio (call pg c)) = history s
  /\ historyIndex (studio (call pg c)) = historyIndex s.
Proof.
  intros Hs [Hn Hw] s id. unfold call.
  rewrite (advance_early pg0 pg (when c) Hs Hn Hw).
  cbn [studio now timers lastTimerId]. fold s.
  destruct Hs as (_ & _ & Hid & Ht).
  unfold recordHistoryWithDebounce. cbn [studio now timers lastTimerId].
  fold s.
  assert (Hcleared :
            timers
              match historyTimeoutRef s with
              | Some i =>
                  if i =? 0
                  then mkPage s (when c) (timers pg) (lastTimerId pg)
                  else clearTimeout i
                         (mkPage s (when c) (timers pg) (lastTimerId pg))
              | None => mkPage s (when c) (timers pg) (lastTimerId pg)
              end = []
            /\ forall x,
                 x = match historyTimeoutRef s with
                     | Some i =>
                         if i =? 0
                         then mkPage s (when c) (timers pg) (lastTimerId pg)
                         else clearTimeout i
                                (mkPage s (when c) (timers pg)
                                   (lastTimerId pg))
                     | None => mkPage s (when c) (timers pg) (lastTimerId pg)
                     end ->
                 studio x = s /\ now x = when c
                 /\ lastTimerId x = lastTimerId pg).
  { destruct Ht as [He | (x & He & Hx & Hpos & _ & Href)].
    - rewrite He. destruct (historyTimeoutRef s) as [i |];
        [destruct (i =? 0) |]; split; try reflexivity;
        intros y ->; repeat split.
    - fold s in Href. rewrite Href, He.
      destruct (Z.eqb_spec (timerId x) 0) as [E | E]; [lia |].
      unfold clearTimeout. cbn [timers filter].
      rewrite Z.eqb_refl. cbn [negb]. split; [reflexivity |].
      intros y ->. repeat split. }
  destruct Hcleared as [Hc Hx].
  match goal with
  | Hc : timers ?x = [] |- _ =>
      destruct (Hx x eq_refl) as (H1 & H2 & H3); rewrite Hc, H1, H2, H3
  end.
  cbn [app timers now lastTimerId studio].
  rewrite flush_untouched by (now destruct s).
  repeat split; now destruct s.
Qed.

Lemma call_settled (pg0 pg : Page) (c : Call) :
  settled pg0 pg -> inTime pg c -> settled pg0 (call pg c).
Proof.
  intros Hs Hc.
  destruct (call_spec pg0 pg c Hs Hc) as (Ht & Hn & Hl & Hr & Hh & Hi).
  destruct Hs as (Hh0 & Hi0 & Hid & _).
  unfold settled. rewrite Hh, Hi, Hl, Ht, Hn, Hr.
  repeat split; try assumption; try lia.
  right. eexists. repeat split. cbn. lia.
Qed.

Lemma spaced_window (pg0 pg : Page) (c : Call) (cs : list Call) :
  settled pg0 pg ->
  inTime pg c ->
  spaced (when c) cs ->
  window (call pg c) cs.
Proof.
  intros Hs Hc Hsp. destruct cs as [| c' cs']; [exact I |].
  destruct Hsp as [Hgap Hsp'].
  destruct (call_spec pg0 pg c Hs Hc) as (_ & Hn & _).
  split; [| exact Hsp'].
  unfold inTime. rewrite Hn. split; [lia | intros _; lia].
Qed.

Lemma burst_front (pg0 : Page) (front : list Call) (final : Call) (pg : Page) :
  settled pg0 pg ->
  window pg (front ++ [final]) ->
  settled pg0 (fold_left call front pg)
  /\ inTime (fold_left call front pg) final.
Proof.
  revert pg. induction front as [| c front IH]; intros pg Hs Hw.
  - destruct Hw as [Hc _]. now split.
  - destruct Hw as [Hc Hsp].
    change (fold_left call (c :: front) pg)
      with (fold_left call front (call pg c)).
    apply IH; [now apply call_settled |].
    now apply (spaced_window pg0).
Qed.

Lemma fire_history (t : Timer) (pg : Page) :
  let entry := spread (current (closure t)) (newStates t) in
  let newHistory :=
    slice0 (history (closure t)) (historyIndex (closure t) + 1) ++ [entry] in
  history (studio (fire t pg)) = newHistory
  /\ historyIndex (studio (fire t pg)) = Z.of_nat (List.length newHistory) - 1
  /\ current (studio (fire t pg)) = entry.
Proof.
  intros entry newHistory. unfold fire. cbn [studio].
  destruct (recordHistory_st (closure t) (newStates t) (queue (studio pg)))
    as (Hh & Hi & Hr).
  destruct (flush_history (studio pg)
              (recordHistory (closure t) (newStates t) (queue (studio pg))))
    as [-> ->].
  split; [exact Hh |]. split; [exact Hi |].
  rewrite flush_replaced by exact Hr.
  apply restoreEffect_current; rewrite Hi, ?Hh, length_app; cbn [List.length].
  - lia.
  - replace (Z.to_nat _) with
      (List.length
         (slice0 (history (closure t)) (historyIndex (closure t) + 1)))
      by lia.
    apply nth_error_snoc.
Qed.

(** [handleSlider] is a call of the kind the statement is about. *)
Lemma handleSlider_call (pg : Page) (t : Z) (key : Adjustment) (value : Q) :
  handleSlider key value (advance t pg) = call pg (sliderCall t key value).
Proof.
  unfold handleSlider, call, sliderCall. cbn [when preview arg].
  set (pg1 := advance t pg). set (s := studio pg1).
  unfold recordHistoryWithDebounce, current.
  cbn [EditState.adjustments EditState.transforms EditState.paths
         EditState.texts EditState.shapes].
  fold s.
  destruct (historyTimeoutRef s) as [i |]; [destruct (i =? 0) |];
    cbn [studio now timers lastTimerId clearTimeout]; fold s;
    f_equal; now destruct s.
Qed.

(** C4.  A burst of K >= 1 calls of the debounced commit, each less than
    400 ms after the one before, made on a page without pending timers:
    nothing is committed while the burst lasts; each call leaves exactly
    one timer pending, the one it set; and once 400 ms have passed after
    the last call the history is the old one up to the index followed by
    one new entry, which is the edit state displayed when the last call
    was made with the fields of the argument of that call put in, so it
    carries every field of that argument.  That entry becomes the
    displayed state, the index points to it and no timer is left. *)
Theorem debounce_coalesces (pg : Page) (front : list Call) (final : Call)
  (t : Z) :
  timers pg = [] ->
  0 <= lastTimerId pg ->
  burst (now pg) (front ++ [final]) ->
  when final + 400 <= t ->
  let before := fold_left call front pg in
  let shown := current (studio before) in
  let a := arg final shown in
  let pending := call before final in
  let after := advance t pending in
  history (studio pending) = history (studio pg)
  /\ List.length (timers pending) = 1%nat
  /\ history (studio after)
     = slice0 (history (studio pg)) (historyIndex (studio pg) + 1)
       ++ [spread shown a]
  /\ carries a (spread shown a)
  /\ current (studio after) = spread shown a
  /\ historyIndex (studio after)
     = Z.of_nat (List.length (history (studio after))) - 1
  /\ timers after = [].
Proof.
  intros Ht Hid Hb Hlate before shown a pending after.
  assert (Hs : settled pg pg) by (repeat split; auto).
  assert (Hw : window pg (front ++ [final])).
  { unfold burst in Hb. unfold window.
    destruct (front ++ [final]) as [| c cs]; [exact I |].
    destruct Hb as [Hstart Hsp]. split; [| exact Hsp].
    split; [exact Hstart | intros H; contradiction]. }
  destruct (burst_front pg front final pg Hs Hw) as [Hsb Hin].
  fold before in Hsb, Hin.
  destruct (call_spec pg before final Hsb Hin)
    as (Htm & Hnow & Hl & Hr & Hh & Hi).
  fold pending in Htm, Hnow, Hl, Hr, Hh, Hi.
  destruct Hsb as (Hh0 & Hi0 & _).
  assert (Hafter :
            after
            = fire (mkTimer (lastTimerId before + 1) (when final + 400)
                      (studio before) a)
                (mkPage (studio pending) (Z.max t (now pending)) []
                   (lastTimerId pending))).
  { unfold after, advance. rewrite Htm. cbn [filter due].
    destruct (Z.leb_spec (when final + 400) t); [reflexivity | lia]. }
  destruct (fire_history
              (mkTimer (lastTimerId before + 1) (when final + 400)
                 (studio before) a)
              (mkPage (studio pending) (Z.max t (now pending)) []
                 (lastTimerId pending)))
    as (Fh & Fi & Fc).
  cbn [closure newStates] in Fh, Fi, Fc.
  rewrite <- Hafter in Fh, Fi, Fc. fold shown in Fh, Fi, Fc.
  rewrite Hh0, Hi0 in Fh, Fi.
  split; [now rewrite Hh |].
  split; [now rewrite Htm |].
  split; [exact Fh |].
  split; [apply spread_carries |].
  split; [exact Fc |].
  split; [now rewrite Fh |].
  rewrite Hafter. reflexivity.
Qed.

(** The bursts above contain no other commit.  A commit made by another
    handler while a timer is pending does not survive the timer: the
    callback belongs to the render that set the timer, so it commits from
    the history and the edit state of that render. *)
Remark stale_timer_drops_commit :
  List.length (history (studio rotatedMeanwhile)) = 2%nat
  /\ Transforms.rotate (transforms (studio rotatedMeanwhile)) = 90%Q
  /\ List.length (history (studio interleaved)) = 2%nat
  /\ Transforms.rotate (transforms (studio interleaved)) = 0%Q
  /\ Adjustments.brightness (adjustments (studio interleaved)) = 150%Q.
Proof. vm_compute. repeat split. Qed.

(** * Further properties *)

(** *** Writes in place *)

Lemma write_cells (w : Write) (s : Studio) :
  paths (write w s) = map (writePath w) (paths s)
  /\ removeMask (write w s) = map (writePath w) (removeMask s)
  /\ shapes (write w s) = map (writeShape w) (shapes s)
  /\ history (write w s) = map (writeSnapshot w) (history s).
Proof. now destruct s. Qed.

Lemma write_rest (w : Write) (s : Studio) :
  historyIndex (write w s) = historyIndex s
  /\ historyTimeoutRef (write w s) = historyTimeoutRef s
  /\ adjustments (write w s) = adjustments s
  /\ transforms (write w s) = transforms s
  /\ texts (write w s) = texts s
  /\ activeTool (write w s) = activeTool s
  /\ isDrawing (write w s) = isDrawing s
  /\ isDragging (write w s) = isDragging s
  /\ options (write w s) = options s
  /\ objects (write w s) = objects s.
Proof. now destruct s. Qed.

Lemma write_keeps (w : Write) (s : Studio) :
  keepsHistory s (write w s)
  /\ historyTimeoutRef (write w s) = historyTimeoutRef s.
Proof.
  destruct (write_cells w s) as (_ & _ & _ & Hh).
  destruct (write_rest w s) as (Hi & Ht & _).
  split; [split |]; [now rewrite Hh, length_map | exact Hi | exact Ht].
Qed.

(** [written] is the write of [handleMouseMove]: a move that writes is
    that write and nothing else; a move that does not write leaves the
    paths, the mask and the history as they are. *)
Lemma handleMouseMove_written (s s' : Studio) (coords : option Point.t) :
  handleMouseMove s coords = Some s' ->
  match written s coords with
  | Some w => s' = write w s
  | None =>
      history s' = history s /\ historyIndex s' = historyIndex s
      /\ paths s' = paths s /\ removeMask s' = removeMask s
  end.
Proof.
  unfold handleMouseMove, written.
  destruct (isDrawing s); cbn [negb];
    [| intros [= <-]; repeat split].
  destruct coords as [c |]; [| intros [= <-]; repeat split].
  cbv zeta.
  destruct (selectedElement s) as [[k i] |];
    destruct (activeTool s) as [[] |]; cbn [tool_is Tool_eqb andb];
    destruct (isDragging s); try destruct k; cbn [Selection.type];
    try destruct (startPoint s);
    try destruct (lastElement (paths s));
    try destruct (lastElement (removeMask s));
    try destruct (lastElement (shapes s));
    cbn [option_map];
    intros [= <-]; try reflexivity; try (repeat split; reflexivity);
    rewrite flush_untouched by (now destruct s); now destruct s.
Qed.

(** *** What the handlers do to the history *)

Lemma restoreEffect_ref (s : Studio) :
  historyTimeoutRef (restoreEffect s) = historyTimeoutRef s.
Proof.
  unfold restoreEffect.
  destruct (_ || _); [reflexivity |].
  destruct (nth_error _ _); [now destruct s | reflexivity].
Qed.

Lemma flush_ref (s : Studio) (p : Pending) :
  historyTimeoutRef (flush s p) = historyTimeoutRef (st p).
Proof.
  unfold flush. destruct (_ || _); [apply restoreEffect_ref | reflexivity].
Qed.

(** A handler whose queue leaves [history] and [historyIndex] alone. *)
Lemma flush_keeps (s : Studio) (p : Pending) :
  historyReplaced p = false ->
  keepsHistory s (st p) ->
  historyTimeoutRef (st p) = historyTimeoutRef s ->
  keepsHistory s (flush s p)
  /\ historyTimeoutRef (flush s p) = historyTimeoutRef s.
Proof.
  intros Hr [Hh Hi] Ht. rewrite (flush_untouched s p Hr Hi).
  repeat split; assumption.
Qed.

(** A handler whose queue ends with the updates of [recordHistory] or of
    [resetEdits]. *)
Lemma flush_last (s : Studio) (p : Pending) :
  atLastSnapshot (st p) ->
  historyTimeoutRef (st p) = historyTimeoutRef s ->
  atLastSnapshot (flush s p)
  /\ historyTimeoutRef (flush s p) = historyTimeoutRef s.
Proof.
  intros [Hn Hi] Ht. unfold atLastSnapshot.
  destruct (flush_history s p) as [-> ->]. rewrite flush_ref.
  repeat split; assumption.
Qed.

Lemma snoc_not_nil {A : Type} (l : list A) (x : A) : l ++ [x] <> [].
Proof. destruct l; discriminate. Qed.

Lemma recordHistory_last (s : Studio) (a : PartialEditState.t) (p : Pending) :
  atLastSnapshot (st (recordHistory s a p))
  /\ historyTimeoutRef (st (recordHistory s a p))
     = historyTimeoutRef (st p).
Proof.
  destruct (recordHistory_st s a p) as (Hh & Hi & _).
  unfold atLastSnapshot. rewrite Hh, Hi.
  split; [split; [apply snoc_not_nil | reflexivity] |].
  destruct p as [q r]. now destruct q.
Qed.

Lemma handleUndo_effect (s : Studio) :
  (keepsHistory s (handleUndo s)
   \/ (0 < historyIndex s /\ stepsBack s (handleUndo s)))
  /\ historyTimeoutRef (handleUndo s) = historyTimeoutRef s.
Proof.
  destruct (Z.le_gt_cases (historyIndex s) 0) as [H | H].
  - rewrite handleUndo_at_head by assumption. split; [left; split |]; reflexivity.
  - split; [right; split; [assumption | now apply handleUndo_back] |].
    unfold handleUndo. destruct (0 <? historyIndex s);
      rewrite flush_ref; now destruct s.
Qed.

Lemma handleRedo_effect (s : Studio) :
  (keepsHistory s (handleRedo s) \/ stepsBack s (handleRedo s))
  /\ historyTimeoutRef (handleRedo s) = historyTimeoutRef s.
Proof.
  split.
  - destruct (Z.lt_ge_cases (historyIndex s)
                (Z.of_nat (List.length (history s)) - 1)) as [H | H].
    + right. now apply handleRedo_moves_back.
    + left. rewrite handleRedo_at_tail by lia. split; reflexivity.
  - unfold handleRedo. destruct (_ <? _); rewrite flush_ref; now destruct s.
Qed.

Lemma commitTransforms_effect (s : Studio) (t : Transforms.t) :
  atLastSnapshot (commitTransforms s t)
  /\ historyTimeoutRef (commitTransforms s t) = historyTimeoutRef s.
Proof.
  unfold commitTransforms.
  match goal with
  | |- context [flush s (recordHistory s ?a ?p)] =>
      destruct (recordHistory_last s a p) as [Hl Hr]
  end.
  apply flush_last; [assumption |]. rewrite Hr. now destruct s.
Qed.

Lemma resetEdits_effect (s : Studio) (p : Pending) :
  historyTimeoutRef (st p) = historyTimeoutRef s ->
  atLastSnapshot (flush s (resetEdits INITIAL_EDIT_STATE p))
  /\ historyTimeoutRef (flush s (resetEdits INITIAL_EDIT_STATE p))
     = historyTimeoutRef s.
Proof.
  intros H. apply flush_last.
  - destruct p as [[] ?]. split; [discriminate | reflexivity].
  - rewrite <- H. destruct p as [[] ?]. reflexivity.
Qed.

Lemma handleMouseDown_effect (s : Studio) (coords : option Point.t)
  (stamp : string) :
  keepsHistory s (handleMouseDown s coords stamp)
  /\ historyTimeoutRef (handleMouseDown s coords stamp) = historyTimeoutRef s.
Proof.
  unfold handleMouseDown.
  destruct coords as [c |]; [| split; [split |]; reflexivity].
  cbv zeta.
  destruct (activeTool s) as [[] |]; cbn [tool_is Tool_eqb orb];
    try destruct (find (textHit c) (texts s));
    try destruct (find (shapeHit c) (shapes s));
    (apply flush_keeps; [| split |]); now destruct s.
Qed.

Lemma handleMouseMove_effect (s s' : Studio) (coords : option Point.t) :
  handleMouseMove s coords = Some s' ->
  keepsHistory s s' /\ historyTimeoutRef s' = historyTimeoutRef s.
Proof.
  unfold handleMouseMove.
  destruct (isDrawing s); cbn [negb];
    [| intros [= <-]; split; [split |]; reflexivity].
  destruct coords as [c |]; [| intros [= <-]; split; [split |]; reflexivity].
  cbv zeta.
  destruct (selectedElement s) as [[k i] |];
    destruct (activeTool s) as [[] |]; cbn [tool_is Tool_eqb andb];
    destruct (isDragging s); try destruct k; cbn [Selection.type];
    try destruct (startPoint s);
    try destruct (lastElement (paths s));
    try destruct (lastElement (removeMask s));
    try destruct (lastElement (shapes s));
    intros [= <-];
    try (split; [split |]; reflexivity);
    try apply write_keeps;
    (apply flush_keeps; [| split |]); now destruct s.
Qed.

Lemma handleMouseUpOrLeave_effect (s : Studio) :
  (keepsHistory s (handleMouseUpOrLeave s)
   \/ atLastSnapshot (handleMouseUpOrLeave s))
  /\ historyTimeoutRef (handleMouseUpOrLeave s) = historyTimeoutRef s.
Proof.
  unfold handleMouseUpOrLeave. cbv zeta.
  destruct (isDrawing s);
    [destruct (activeTool s) as [[] |]; cbn [tool_is Tool_eqb andb];
     try destruct (isDragging s) |];
    match goal with
    | |- context [recordHistory s ?a ?p] =>
        destruct (recordHistory_last s a p) as [[Hn Hi] Hr];
        match goal with
        | |- context [flush s ?q] =>
            destruct (flush_last s q) as [Hl Ht];
            [ split;
              [ intros E; apply Hn; revert E;
                destruct (recordHistory s a p) as [[] ?]; exact (fun E => E)
              | revert Hi; destruct (recordHistory s a p) as [[] ?];
                exact (fun E => E) ]
            | revert Hr; destruct (recordHistory s a p) as [[] ?]; cbn;
              intros ->; now destruct s
            | split; [right; exact Hl | exact Ht] ]
        end
    | |- context [flush s ?q] =>
        destruct (flush_keeps s q) as [Hk Ht];
        [ now destruct s | split; now destruct s | now destruct s
        | split; [left; exact Hk | exact Ht] ]
    end.
Qed.

Lemma handleApplyCrop_effect (s : Studio) :
  (keepsHistory s (handleApplyCrop s) \/ atLastSnapshot (handleApplyCrop s))
  /\ historyTimeoutRef (handleApplyCrop s) = historyTimeoutRef s.
Proof.
  unfold handleApplyCrop.
  destruct (cropRect s) as [r |], (renderEffect s) as [f |];
    try (split; [left; split |]; reflexivity).
  destruct (_ || _); [split; [left; split |]; reflexivity |].
  cbv zeta.
  match goal with
  | |- context [resetEdits _ ?p] =>
      destruct (resetEdits_effect s p) as [Hl Ht]; [now destruct s |]
  end.
  split; [right; exact Hl | exact Ht].
Qed.

Lemma handleAddText_effect (s : Studio) (stamp : string) :
  (keepsHistory s (handleAddText s stamp)
   \/ atLastSnapshot (handleAddText s stamp))
  /\ historyTimeoutRef (handleAddText s stamp) = historyTimeoutRef s.
Proof.
  unfold handleAddText.
  destruct (truthy _), (textPosition s) as [pos |];
    try (split; [left; split |]; reflexivity).
  cbv zeta.
  match goal with
  | |- context [recordHistory s ?a ?p] =>
      destruct (recordHistory_last s a p) as [[Hn Hi] Hr];
      match goal with
      | |- context [flush s ?q] =>
          destruct (flush_last s q) as [Hl Ht];
          [ split;
            [ intros E; apply Hn; revert E;
              destruct (recordHistory s a p) as [[] ?]; exact (fun E => E)
            | revert Hi; destruct (recordHistory s a p) as [[] ?];
              exact (fun E => E) ]
          | revert Hr; destruct (recordHistory s a p) as [[] ?]; cbn;
            intros ->; now destruct s
          | split; [right; exact Hl | exact Ht] ]
      end
  end.
Qed.

(** Every event keeps the history and the index, or moves the index one
    step back (undo above 0, redo), or ends at the last snapshot of a
    history that is not empty; the identifier of the timer stays. *)
Lemma step_effect (s s' : Studio) (e : Event) :
  step s e = Some s' ->
  (keepsHistory s s'
   \/ (stepsBack s s' /\ (e = Undo /\ 0 < historyIndex s \/ e = Redo))
   \/ atLastSnapshot s')
  /\ historyTimeoutRef s' = historyTimeoutRef s.
Proof.
  destruct e; cbn [step]; try (intros [= <-]).
  - destruct (handleUndo_effect s) as [[H | [H1 H2]] Ht]; [auto |].
    split; [right; left; split; [exact H2 | left; now split] | exact Ht].
  - destruct (handleRedo_effect s) as [[H | H] Ht]; [auto |].
    split; [right; left; split; [exact H | now right] | exact Ht].
  - destruct (commitTransforms_effect s
                (Transforms.mk
                   (mod360 (Transforms.rotate (transforms s) - 90 + 360))
                   (Transforms.flip (transforms s)))); auto.
  - destruct (commitTransforms_effect s
                (Transforms.mk (mod360 (Transforms.rotate (transforms s) + 90))
                   (Transforms.flip (transforms s)))); auto.
  - unfold flipHorizontal. cbv zeta.
    match goal with
    | |- context [commitTransforms s ?t] =>
        destruct (commitTransforms_effect s t); auto
    end.
  - unfold flipVertical. cbv zeta.
    match goal with
    | |- context [commitTransforms s ?t] =>
        destruct (commitTransforms_effect s t); auto
    end.
  - destruct (handleMouseDown_effect s coords stamp); auto.
  - intros H. destruct (handleMouseMove_effect s s' coords H); auto.
  - destruct (handleMouseUpOrLeave_effect s) as [[H | H] Ht]; auto.
  - destruct (handleApplyCrop_effect s) as [[H | H] Ht]; auto.
  - unfold cancelCrop.
    match goal with
    | |- context [flush s ?q] =>
        destruct (flush_keeps s q) as [Hk Ht];
        [now destruct s | split; now destruct s | now destruct s | auto]
    end.
  - destruct (handleAddText_effect s stamp) as [[H | H] Ht]; auto.
  - match goal with
    | |- context [flush s ?q] =>
        destruct (flush_keeps s q) as [Hk Ht];
        [now destruct s | split; now destruct s | now destruct s | auto]
    end.
  - unfold handleFullReset. cbv zeta.
    match goal with
    | |- context [resetEdits _ ?p] =>
        destruct (resetEdits_effect s p) as [Hl Ht]; [now destruct s | auto]
    end.
  - unfold handleFileLoaded. cbv zeta.
    match goal with
    | |- context [resetEdits _ ?p] =>
        destruct (resetEdits_effect s p) as [Hl Ht]; [now destruct s | auto]
    end.
  - unfold toolbarClick. split; [left; split |]; now destruct s.
Qed.

(** *** Timers and the index under any run of events *)

Lemma fire_effect (t : Timer) (pg : Page) :
  atLastSnapshot (studio (fire t pg))
  /\ historyTimeoutRef (studio (fire t pg)) = historyTimeoutRef (studio pg)
  /\ timers (fire t pg) = timers pg
  /\ lastTimerId (fire t pg) = lastTimerId pg.
Proof.
  destruct (fire_history t pg) as (Hh & Hi & _). cbv zeta in Hh, Hi.
  unfold atLastSnapshot. rewrite Hi, Hh.
  split; [split; [apply snoc_not_nil | reflexivity] |].
  split; [| split; reflexivity].
  unfold fire. cbn [studio]. rewrite flush_ref.
  destruct (recordHistory_last (closure t) (newStates t) (queue (studio pg)))
    as [_ ->].
  reflexivity.
Qed.

Lemma fold_fire_effect (ready : list Timer) (pg : Page) :
  let pg' := fold_left (fun acc x => fire x acc) ready pg in
  (keepsHistory (studio pg) (studio pg') \/ atLastSnapshot (studio pg'))
  /\ historyTimeoutRef (studio pg') = historyTimeoutRef (studio pg)
  /\ timers pg' = timers pg
  /\ lastTimerId pg' = lastTimerId pg.
Proof.
  revert pg. induction ready as [| t ready IH]; intros pg.
  - cbn. repeat split. left. split; reflexivity.
  - cbn [fold_left].
    destruct (IH (fire t pg)) as ([Hk | Hl] & Hr & Ht & Hi);
      destruct (fire_effect t pg) as (Fl & Fr & Ft & Fi);
      (split; [right | split; [congruence | split; congruence]]).
    + destruct Hk as [Hh Hx]. destruct Fl as [Fn Fx].
      unfold atLastSnapshot. rewrite Hh, Hx. split; [| exact Fx].
      intros E. rewrite E in Hh. apply Fn.
      now apply length_zero_iff_nil.
    + exact Hl.
Qed.

Lemma advance_effect (t : Z) (pg : Page) :
  (keepsHistory (studio pg) (studio (advance t pg))
   \/ atLastSnapshot (studio (advance t pg)))
  /\ historyTimeoutRef (studio (advance t pg)) = historyTimeoutRef (studio pg)
  /\ timers (advance t pg) = filter (fun x => negb (due x <=? t)) (timers pg)
  /\ lastTimerId (advance t pg) = lastTimerId pg.
Proof.
  unfold advance.
  destruct (fold_fire_effect (filter (fun x => due x <=? t) (timers pg))
              (mkPage (studio pg) (Z.max t (now pg))
                 (filter (fun x => negb (due x <=? t)) (timers pg))
                 (lastTimerId pg)))
    as (H1 & H2 & H3 & H4).
  repeat split; assumption.
Qed.

Lemma advance_oneTimer (t : Z) (pg : Page) :
  oneTimer pg -> oneTimer (advance t pg).
Proof.
  intros [Hid Ht].
  destruct (advance_effect t pg) as (_ & Hr & Hf & Hl).
  unfold oneTimer. rewrite Hr, Hf, Hl. split; [assumption |].
  destruct Ht as [-> | (x & -> & Hx)]; [now left |].
  cbn [filter]. destruct (negb _); [right; now exists x | now left].
Qed.

Lemma handleSlider_effect (key : Adjustment) (value : Q) (pg : Page) :
  oneTimer pg ->
  keepsHistory (studio pg) (studio (handleSlider key value pg))
  /\ oneTimer (handleSlider key value pg)
  /\ List.length (timers (handleSlider key value pg)) = 1%nat.
Proof.
  intros [Hid Ht]. unfold handleSlider, recordHistoryWithDebounce.
  set (s := studio pg).
  assert (Hc :
            let pg1 :=
              match historyTimeoutRef s with
              | Some id => if id =? 0 then pg else clearTimeout id pg
              | None => pg
              end in
            timers pg1 = [] /\ studio pg1 = s /\ now pg1 = now pg
            /\ lastTimerId pg1 = lastTimerId pg).
  { cbv zeta. destruct Ht as [He | (x & He & Hx & Hpos & Href)].
    - destruct (historyTimeoutRef s) as [i |]; [destruct (i =? 0) |];
        unfold clearTimeout; rewrite ?He; repeat split; assumption.
    - fold s in Href. rewrite Href.
      destruct (Z.eqb_spec (timerId x) 0) as [E | E]; [lia |].
      unfold clearTimeout. rewrite He. cbn [timers filter].
      rewrite Z.eqb_refl. repeat split. }
  cbv zeta in Hc. destruct Hc as (Hc1 & Hc2 & Hc3 & Hc4).
  rewrite Hc1, Hc2, Hc3, Hc4.
  cbn [studio now timers lastTimerId app].
  rewrite flush_untouched by (now destruct s).
  split; [split; now destruct s |].
  split; [| reflexivity].
  split; [cbn; lia |].
  right. eexists. split; [reflexivity |]. cbn [timerId lastTimerId studio].
  repeat split; [lia | now destruct s].
Qed.

Lemma pageStep_effect (pg pg' : Page) (e : PageEvent) :
  oneTimer pg ->
  pageStep pg e = Some pg' ->
  (keepsHistory (studio pg) (studio pg')
   \/ (stepsBack (studio pg) (studio pg')
       /\ (e = Act Undo /\ 0 < historyIndex (studio pg) \/ e = Act Redo))
   \/ atLastSnapshot (studio pg'))
  /\ oneTimer pg'.
Proof.
  intros Ho. destruct e as [e | key value | t]; cbn [pageStep].
  - destruct (step (studio pg) e) as [s' |] eqn:Es; [| discriminate].
    intros [= <-]. destruct (step_effect _ _ _ Es) as [Hc Hr].
    cbn [studio]. split.
    + destruct Hc as [H | [[H [[-> H'] | ->]] | H]]; auto 6.
    + destruct Ho as [Hid Ht]. split; [assumption |].
      cbn [timers lastTimerId studio]. rewrite Hr.
      destruct (writes (studio pg) e) as [w |]; [| exact Ht].
      destruct Ht as [-> | (x & -> & Hx)]; [now left |].
      right. exists (writeTimer w x). split; [reflexivity | exact Hx].
  - intros [= <-].
    destruct (handleSlider_effect key value pg Ho) as (Hk & Ho' & _). auto.
  - intros [= <-].
    destruct (advance_effect t pg) as ([H | H] & _);
      (split; [auto | now apply advance_oneTimer]).
Qed.

Lemma indexBounded_step (s s' : Studio) :
  indexBounded s ->
  keepsHistory s s' \/ stepsBack s s' \/ atLastSnapshot s' ->
  indexBounded s'.
Proof.
  unfold indexBounded.
  intros Hb [[-> ->] | [[-> ->] | [_ ->]]]; lia.
Qed.

Lemma indexInRange_step (s s' : Studio) :
  indexInRange s ->
  keepsHistory s s'
  \/ (stepsBack s s' /\ 0 < historyIndex s)
  \/ atLastSnapshot s' ->
  indexInRange s'.
Proof.
  unfold indexInRange.
  intros Hr [[Hl ->] | [[[-> ->] Hpos] | [Hn ->]]].
  - rewrite Hl. destruct Hr as [[He Hi] | Hi]; [left | now right].
    split; [| exact Hi]. apply length_zero_iff_nil. now rewrite Hl, He.
  - right. destruct Hr as [[_ H] | H]; lia.
  - right. destruct (history s') as [| e l]; [contradiction |].
    cbn [List.length]. lia.
Qed.

(** X12.  From a page that has at most one timer pending, which the
    component knows, every run of events (moves of the sliders at any
    pace, time passing, and the events of the component) leaves at most
    one timer pending. *)
Theorem at_most_one_timer (es : list PageEvent) (pg pg' : Page) :
  oneTimer pg ->
  pageRun pg es = Some pg' ->
  oneTimer pg' /\ (List.length (timers pg') <= 1)%nat.
Proof.
  revert pg. induction es as [| e es IH]; intros pg Ho; cbn [pageRun].
  - intros [= <-]. split; [assumption |].
    destruct Ho as [_ [-> | (x & -> & _)]]; cbn; lia.
  - destruct (pageStep pg e) as [pg1 |] eqn:E; [| discriminate].
    apply IH. now destruct (pageStep_effect _ _ _ Ho E).
Qed.

(** X13.  Under every run of events the history index never points past
    the last snapshot; and in a run without a press of the redo button it
    stays a position of the history (or -1 while the history is empty). *)
Theorem index_stays_in_range (es : list PageEvent) (pg pg' : Page) :
  oneTimer pg ->
  pageRun pg es = Some pg' ->
  (indexBounded (studio pg) -> indexBounded (studio pg'))
  /\ (redoFree es -> indexInRange (studio pg) -> indexInRange (studio pg')).
Proof.
  revert pg. induction es as [| e es IH]; intros pg Ho; cbn [pageRun].
  - intros [= <-]. auto.
  - destruct (pageStep pg e) as [pg1 |] eqn:E; [| discriminate].
    intros Hrun. destruct (pageStep_effect _ _ _ Ho E) as [Hc Ho1].
    destruct (IH pg1 Ho1 Hrun) as [Hb Hr]. split.
    + intros H. apply Hb. apply (indexBounded_step (studio pg)); [assumption |].
      destruct Hc as [Hk | [[Hs _] | Hl]]; auto.
    + intros Hfree H. apply Hr.
      * intros Hin. apply Hfree. now right.
      * apply (indexInRange_step (studio pg)); [assumption |].
        destruct Hc as [Hk | [[Hs [[_ Hpos] | ->]] | Hl]]; auto.
        exfalso. apply Hfree. now left.
Qed.
(** *** Undo after a commit *)

Lemma handleUndo_current (s : Studio) (e : EditState.t) :
  0 < historyIndex s ->
  nth_error (history s) (Z.to_nat (historyIndex s - 1)) = Some e ->
  current (handleUndo s) = e.
Proof.
  intros Hpos Hn. unfold handleUndo.
  destruct (Z.ltb_spec 0 (historyIndex s)); [| lia].
  rewrite flush_moved by (destruct s; cbn in *; lia).
  apply restoreEffect_current; destruct s; cbn in *; [lia | assumption].
Qed.

(** Undo of a state whose history is that of [s] cut after the index and
    extended by one snapshot: the snapshot at the index of [s] is shown
    again. *)
Lemma undo_of_last (s s1 : Studio) (e0 e : EditState.t) :
  0 <= historyIndex s ->
  nth_error (history s) (Z.to_nat (historyIndex s)) = Some e0 ->
  history s1 = slice0 (history s) (historyIndex s + 1) ++ [e] ->
  historyIndex s1 = Z.of_nat (List.length (history s1)) - 1 ->
  current (handleUndo s1) = e0
  /\ historyIndex (handleUndo s1) = historyIndex s
  /\ history (handleUndo s1) = history s1.
Proof.
  intros Hi Hn Hh Hx.
  assert (Hlen : (Z.to_nat (historyIndex s) < List.length (history s))%nat)
    by (apply nth_error_Some; congruence).
  assert (Hs : slice0 (history s) (historyIndex s + 1)
               = firstn (S (Z.to_nat (historyIndex s))) (history s)).
  { rewrite slice0_firstn by lia. f_equal. lia. }
  assert (Hl : List.length (slice0 (history s) (historyIndex s + 1))
               = S (Z.to_nat (historyIndex s))).
  { rewrite Hs, length_firstn. lia. }
  assert (Hx1 : historyIndex s1 = historyIndex s + 1).
  { rewrite Hx, Hh, length_app, Hl. cbn [List.length]. lia. }
  destruct (handleUndo_back s1) as [Hh' Hi']; [lia |].
  split; [| split; [lia | exact Hh']].
  apply handleUndo_current; [lia |].
  rewrite Hx1, Hh. replace (historyIndex s + 1 - 1) with (historyIndex s) by lia.
  rewrite nth_error_app1 by lia.
  rewrite Hs, nth_error_firstn.
  destruct (Nat.ltb_spec (Z.to_nat (historyIndex s)) (S (Z.to_nat (historyIndex s))));
    [exact Hn | lia].
Qed.

Lemma commitTransforms_history (s : Studio) (t : Transforms.t) :
  let e :=
    EditState.mk (adjustments s) t (paths s) (texts s) (shapes s) in
  history (commitTransforms s t)
  = slice0 (history s) (historyIndex s + 1) ++ [e]
  /\ historyIndex (commitTransforms s t)
     = Z.of_nat (List.length (history (commitTransforms s t))) - 1
  /\ current (commitTransforms s t) = e.
Proof.
  intros e. unfold commitTransforms.
  match goal with
  | |- context [flush s (recordHistory s ?a ?p)] =>
      destruct (recordHistory_st s a p) as (Hh & Hi & Hr);
      destruct (flush_history s (recordHistory s a p)) as [Fh Fi];
      rewrite (flush_replaced s (recordHistory s a p) Hr) in *
  end.
  cbv zeta in Hh, Hi.
  assert (He : spread (current s)
                 (PartialEditState.mk None (Some t) None None None) = e)
    by reflexivity.
  rewrite He in Hh, Hi.
  split; [now rewrite Fh |]. split; [now rewrite Fi, Fh, Hh |].
  apply restoreEffect_current; rewrite Hi, ?Hh, length_app; cbn [List.length].
  - lia.
  - replace (Z.to_nat _) with
      (List.length (slice0 (history s) (historyIndex s + 1))) by lia.
    apply nth_error_snoc.
Qed.

(** X1.  Undo after a commit made by a handler of the render on
    display.  The state displayed after the undo is the snapshot that
    was at the index when the handler ran, and the index is back where
    it was; so a commit made while the display was that snapshot (as it
    is after a commit, an undo or a reset) is reverted by one undo.  The
    handlers covered are [recordHistory] called alone on any argument,
    the four buttons of the transform panel, and the pointer-up that
    closes an interaction.  The delayed call that a debounce timer makes
    belongs to an earlier render and is not covered. *)
Theorem undo_reverts_commit (s : Studio) (e : EditState.t) :
  0 <= historyIndex s ->
  nth_error (history s) (Z.to_nat (historyIndex s)) = Some e ->
  let reverted (s1 : Studio) :=
    current (handleUndo s1) = e
    /\ historyIndex (handleUndo s1) = historyIndex s in
  (forall a, reverted (commit a s))
  /\ (forall button,
        In button [rotateLeft; rotateRight; flipHorizontal; flipVertical] ->
        reverted (button s))
  /\ (isDrawing s = true -> closing s -> reverted (handleMouseUpOrLeave s)).
Proof.
  intros Hi Hn reverted. subst reverted. cbv beta. split; [| split].
  - intros a.
    destruct (undo_of_last s (commit a s) e (spread (current s) a) Hi Hn
                (commit_history a s) (commit_index a s)) as (H1 & H2 & _).
    now split.
  - assert (Ht : forall t,
               current (handleUndo (commitTransforms s t)) = e
               /\ historyIndex (handleUndo (commitTransforms s t))
                  = historyIndex s).
    { intros t. destruct (commitTransforms_history s t) as (Hh & Hx & _).
      destruct (undo_of_last s (commitTransforms s t) e _ Hi Hn Hh Hx)
        as (H1 & H2 & _).
      now split. }
    intros button [<- | [<- | [<- | [<- | []]]]]; apply Ht.
  - intros Hd Hc.
    destruct (handleMouseUpOrLeave_spec s Hd) as (Hcommit & _).
    destruct (Hcommit Hc) as [Hh Hx].
    destruct (undo_of_last s (handleMouseUpOrLeave s) e _ Hi Hn Hh Hx)
      as (H1 & H2 & _).
    now split.
Qed.

(** *** A freshly loaded image *)

Lemma Q2R_0 : Q2R 0 = 0%R.
Proof. unfold Q2R. cbn. lra. Qed.

Lemma radians_initial : radians INITIAL_TRANSFORMS = 0%R.
Proof.
  unfold radians. cbn [INITIAL_TRANSFORMS Transforms.rotate].
  rewrite Q2R_0. lra.
Qed.

Lemma render_initial (s : Studio) (image : Image) :
  current s = INITIAL_EDIT_STATE ->
  activeTool s = None ->
  selectedElement s = None ->
  subjectMask s = None ->
  render s image = plainFrame image.
Proof.
  intros Hc Ht Hs Hm. destruct s. cbn in Hc, Ht, Hs, Hm.
  injection Hc as -> -> -> -> ->. subst.
  unfold render, plainFrame, drawSelection.
  cbn [transforms adjustments paths removeMask shapes texts activeTool
         cropRect selectedElement subjectMask tool_is flat_map app
         INITIAL_TRANSFORMS Transforms.flip Flip.horizontal Flip.vertical].
  unfold canvasWidth, canvasHeight. rewrite radians_initial.
  rewrite cos_0, sin_0, Rabs_R0, Rabs_R1.
  repeat (f_equal; try lra).
Qed.

(** X2.  After an image is loaded, whatever the state before: the frame
    is the image alone at its own size with the neutral filters and
    nothing drawn over it, and the undo and redo buttons do nothing. *)
Theorem loaded_image_is_plain (s : Studio) (image : Image)
  (name stem : string) :
  let s' := handleFileLoaded s image name stem in
  renderEffect s' = Some (plainFrame image)
  /\ handleUndo s' = s'
  /\ handleRedo s' = s'.
Proof.
  intros s'.
  destruct (handleFileLoaded_fresh s image name stem) as (Hh & Hi & Hc).
  fold s' in Hh, Hi, Hc.
  assert (Hs : originalImage s' = Some image /\ activeTool s' = None
               /\ selectedElement s' = None /\ subjectMask s' = None).
  { subst s'. unfold handleFileLoaded. cbv zeta.
    rewrite flush_replaced by (now destruct s).
    match goal with |- context [restoreEffect ?x] => set (q := x) end.
    assert (Hq : restoreEffect q = q).
    { unfold restoreEffect. subst q. now destruct s. }
    rewrite Hq. subst q. now destruct s. }
  destruct Hs as (Ho & Ht & Hsel & Hm).
  split; [| split].
  - unfold renderEffect. rewrite Ho. f_equal.
    now apply render_initial.
  - apply handleUndo_at_head. lia.
  - apply handleRedo_at_tail. rewrite Hh, Hi. cbn. lia.
Qed.

(** *** Adding a text *)

Lemma trimStart_blank (s : string) :
  blank s -> trimStart s = EmptyString.
Proof.
  unfold blank. induction s as [| c s IH]; cbn; [reflexivity |].
  intros H. rewrite (H c (or_introl eq_refl)). apply IH.
  intros c' Hc. apply H. now right.
Qed.

Lemma trimStart_head (s : string) :
  match trimStart s with
  | EmptyString => blank s
  | String c _ => isWhiteSpace c = false /\ In c (list_ascii_of_string s)
  end.
Proof.
  induction s as [| c s IH]; cbn.
  - intros c [].
  - destruct (isWhiteSpace c) eqn:E.
    + destruct (trimStart s).
      * intros c' [<- | H]; [assumption | now apply IH].
      * destruct IH as [H1 H2]. split; [assumption | now right].
    + split; [assumption | now left].
Qed.

Lemma trimEnd_head (c : Ascii.ascii) (s : string) :
  isWhiteSpace c = false -> truthy (trimEnd (String c s)) = true.
Proof.
  intros H. cbn. destruct (trimEnd s); [now rewrite H | reflexivity].
Qed.

(** The trimmed string is empty exactly when the string is blank. *)
Lemma trim_truthy (s : string) :
  truthy (trim s) = false <-> blank s.
Proof.
  unfold trim. pose proof (trimStart_head s) as H.
  destruct (trimStart s) as [| c r] eqn:E.
  - split; [intros _; exact H | reflexivity].
  - destruct H as [Hc Hin]. rewrite (trimEnd_head c r Hc). split.
    + discriminate.
    + intros Hb. rewrite (Hb c Hin) in Hc. discriminate.
Qed.

(** X3.  The Add Text action does nothing when no position was clicked
    or when the typed text is blank.  Otherwise it appends one text
    element to the texts, made of the typed text as typed, the clicked
    position and the settings of the text panel; it commits the new edit
    state as one history entry, empties the input and forgets the
    position; the texts that were there, the paths, the shapes, the
    adjustments and the transforms are as before. *)
Theorem add_text (s : Studio) (stamp : string) :
  let s' := handleAddText s stamp in
  (textPosition s = None \/ blank (currentText s) -> s' = s)
  /\ (forall pos,
        textPosition s = Some pos ->
        ~ blank (currentText s) ->
        let o := options s in
        let added :=
          TextElement.mk (currentText s) (Point.x pos) (Point.y pos)
            (textColor o) (textSize o) stamp (hasTextOutline o)
            (textOutlineColor o) (textOutlineSize o) in
        current s'
        = EditState.mk (adjustments s) (transforms s) (paths s)
            (texts s ++ [added]) (shapes s)
        /\ history s'
           = slice0 (history s) (historyIndex s + 1) ++ [current s']
        /\ historyIndex s' = Z.of_nat (List.length (history s')) - 1
        /\ currentText s' = EmptyString
        /\ textPosition s' = None).
Proof.
  intros s'. subst s'. unfold handleAddText. split.
  - intros [-> | Hb].
    + now destruct (truthy _).
    + apply trim_truthy in Hb. now rewrite Hb.
  - intros pos Hp Hnb. cbv zeta. rewrite Hp.
    destruct (truthy (trim (currentText s))) eqn:E;
      [| exfalso; apply Hnb; now apply trim_truthy].
    set (added :=
           TextElement.mk (currentText s) (Point.x pos) (Point.y pos)
             (textColor (options s)) (textSize (options s)) stamp
             (hasTextOutline (options s)) (textOutlineColor (options s))
             (textOutlineSize (options s))).
    match goal with
    | |- context [recordHistory s ?a ?p] =>
        destruct (recordHistory_st s a p) as (Hh & Hi & Hr);
        set (r := recordHistory s a p) in *
    end.
    cbv zeta in Hh, Hi.
    match goal with
    | |- context [flush s ?q] =>
        destruct (flush_history s q) as [Fh Fi];
        rewrite (flush_replaced s q) in * by (now destruct r as [[] ?])
    end.
    match goal with
    | |- context [restoreEffect ?x] => set (q := x) in *
    end.
    assert (Hq : history q = history (st r) /\ historyIndex q = historyIndex (st r)
                 /\ currentText q = EmptyString /\ textPosition q = None)
      by (subst q; now destruct r as [[] ?]).
    destruct Hq as (Qh & Qi & Qc & Qp).
    assert (Hcur : current (restoreEffect q)
                   = EditState.mk (adjustments s) (transforms s) (paths s)
                       (texts s ++ [added]) (shapes s)).
    { apply restoreEffect_current; rewrite Qi, Hi, ?Qh, ?Hh, length_app;
        cbn [List.length].
      - lia.
      - replace (Z.to_nat _) with
          (List.length (slice0 (history s) (historyIndex s + 1))) by lia.
        apply nth_error_snoc. }
    split; [exact Hcur |].
    rewrite Hcur, Fh, Fi, Qh, Qi, Hh.
    split; [reflexivity |]. split; [exact Hi |].
    unfold restoreEffect.
    destruct (_ || _); [now split |].
    destruct (nth_error _ _); [| now split].
    subst q. now destruct r as [[] ?].
Qed.

(** *** Dragging a crop rectangle *)

Lemma Qmin_abs_max (a b : Q) : (Qmin a b + Qabs (a - b) == Qmax a b)%Q.
Proof.
  destruct (Qlt_le_dec a b) as [H | H].
  - pose proof (Q.min_l a b (Qlt_le_weak _ _ H)) as E1.
    pose proof (Q.max_r a b (Qlt_le_weak _ _ H)) as E2.
    assert (E3 : (Qabs (a - b) == - (a - b))%Q) by (apply Qabs_neg; Lqa.lra).
    Lqa.lra.
  - pose proof (Q.min_r a b H) as E1.
    pose proof (Q.max_l a b H) as E2.
    assert (E3 : (Qabs (a - b) == a - b)%Q) by (apply Qabs_pos; Lqa.lra).
    Lqa.lra.
Qed.

(** X4.  While the crop tool drags, the crop rectangle is the bounding
    box of the point where the pointer went down and the point where it
    is now, in whichever direction the drag goes: on each axis its corner
    is the smaller of the two coordinates and corner plus extent is the
    larger one, so the extent is their distance and is never negative.
    The edit state and the history are not touched. *)
Theorem crop_drag_rectangle (s : Studio) (a b : Point.t) :
  isDrawing s = true ->
  activeTool s = Some crop ->
  startPoint s = Some a ->
  exists s' r,
    handleMouseMove s (Some b) = Some s'
    /\ cropRect s' = Some r
    /\ (Rect.x r == Qmin (Point.x a) (Point.x b)
        /\ Rect.y r == Qmin (Point.y a) (Point.y b)
        /\ Rect.x r + Rect.width r == Qmax (Point.x a) (Point.x b)
        /\ Rect.y r + Rect.height r == Qmax (Point.y a) (Point.y b)
        /\ Rect.width r == Qmax (Point.x a) (Point.x b)
                           - Qmin (Point.x a) (Point.x b)
        /\ Rect.height r == Qmax (Point.y a) (Point.y b)
                            - Qmin (Point.y a) (Point.y b)
        /\ 0 <= Rect.width r /\ 0 <= Rect.height r
        /\ Rect.x r <= Point.x a /\ Rect.x r <= Point.x b
        /\ Rect.y r <= Point.y a /\ Rect.y r <= Point.y b)%Q
    /\ current s' = current s
    /\ history s' = history s
    /\ historyIndex s' = historyIndex s.
Proof.
  intros Hd Ht Hs.
  exists (setCropRect
            (Some
               (Rect.mk (Qmin (Point.x a) (Point.x b))
                  (Qmin (Point.y a) (Point.y b))
                  (Qabs (Point.x a - Point.x b))
                  (Qabs (Point.y a - Point.y b)))) s).
  eexists. split; [| split; [now destruct s |]].
  - unfold handleMouseMove. rewrite Hd, Ht, Hs. cbn [negb].
    destruct (selectedElement s); cbn [tool_is Tool_eqb andb];
      (rewrite flush_untouched by (now destruct s)); reflexivity.
  - cbn [Rect.x Rect.y Rect.width Rect.height].
    split; [| now destruct s].
    pose proof (Qmin_abs_max (Point.x a) (Point.x b)) as Hx.
    pose proof (Qmin_abs_max (Point.y a) (Point.y b)) as Hy.
    repeat split; try reflexivity; try assumption; try apply Qabs_nonneg;
      try apply Q.le_min_l; try apply Q.le_min_r; Lqa.lra.
Qed.

(** *** Strokes *)

Lemma lastElement_snoc {A : Type} (l : list A) (x : A) :
  lastElement (l ++ [x]) = Some x.
Proof.
  unfold lastElement. rewrite length_app. cbn [List.length].
  replace (List.length l + 1 - 1)%nat with (List.length l) by lia.
  apply nth_error_snoc.
Qed.

(** The objects that a state holds are older than the next one. *)
Lemma newObj_below (s : Studio) : below (newObj s) s.
Proof.
  assert (H : Forall (fun k => (k <= held s)%nat)
                (map Path.obj (paths s) ++ map Path.obj (removeMask s)
                 ++ map ShapeElement.obj (shapes s)
                 ++ flat_map
                      (fun e =>
                         map Path.obj (EditState.paths e)
                         ++ map ShapeElement.obj (EditState.shapes e))
                      (history s)))
    by (apply list_max_le; reflexivity).
  assert (Hn : (held s < newObj s)%nat) by (unfold newObj; lia).
  apply Forall_app in H. destruct H as [H1 H].
  apply Forall_app in H. destruct H as [H2 H].
  apply Forall_app in H. destruct H as [H3 H4].
  rewrite Forall_map in H1, H2, H3. rewrite Forall_flat_map in H4.
  unfold below, pathsBelow, shapesBelow.
  repeat split;
    try (eapply Forall_impl; [| eassumption]; cbn; intros; lia).
  eapply Forall_impl; [| exact H4]. cbn. intros e He.
  apply Forall_app in He. destruct He as [Hp Hs].
  rewrite Forall_map in Hp, Hs.
  split; (eapply Forall_impl; [| eassumption]; cbn; intros; lia).
Qed.

(** A write to an object leaves alone the lists that do not hold it. *)
Lemma writePath_elsewhere (w : Write) (l : list Path.t) :
  pathsBelow (target w) l -> map (writePath w) l = l.
Proof.
  induction 1 as [| p l Hp _ IH]; [reflexivity |].
  cbn [map]. rewrite IH. f_equal. destruct w as [o c | o c]; cbn in *;
    [| reflexivity].
  destruct (Nat.eqb_spec (Path.obj p) o); [lia | reflexivity].
Qed.

Lemma writeShape_elsewhere (w : Write) (l : list ShapeElement.t) :
  shapesBelow (target w) l -> map (writeShape w) l = l.
Proof.
  induction 1 as [| e l He _ IH]; [reflexivity |].
  cbn [map]. rewrite IH. f_equal. destruct w as [o c | o c]; cbn in *;
    [reflexivity |].
  destruct (Nat.eqb_spec (ShapeElement.obj e) o); [lia | reflexivity].
Qed.

Lemma writeSnapshot_elsewhere (w : Write) (h : list EditState.t) :
  Forall
    (fun e =>
       pathsBelow (target w) (EditState.paths e)
       /\ shapesBelow (target w) (EditState.shapes e)) h ->
  map (writeSnapshot w) h = h.
Proof.
  induction 1 as [| e h [Hp Hs] _ IH]; [reflexivity |].
  cbn [map]. rewrite IH. f_equal. unfold writeSnapshot.
  rewrite (writePath_elsewhere w _ Hp), (writeShape_elsewhere w _ Hs).
  now destruct e.
Qed.

Lemma writePath_other (o : nat) (c : Point.t) (l : list Path.t) :
  map (writePath (SetSecondPoint o c)) l = l.
Proof. induction l as [| p l IH]; cbn; [reflexivity | now rewrite IH]. Qed.

Lemma writeShape_other (o : nat) (c : Point.t) (l : list ShapeElement.t) :
  map (writeShape (PushPoint o c)) l = l.
Proof. induction l as [| p l IH]; cbn; [reflexivity | now rewrite IH]. Qed.

Lemma writePath_here (c : Point.t) (p : Path.t) :
  writePath (PushPoint (Path.obj p) c) p = pushPoint c p.
Proof. cbn. now rewrite Nat.eqb_refl. Qed.

Lemma writeShape_here (c : Point.t) (e : ShapeElement.t) :
  writeShape (SetSecondPoint (ShapeElement.obj e) c) e = setSecondPoint c e.
Proof. cbn. now rewrite Nat.eqb_refl. Qed.

(** The state holds the object [n] in one place only: at the end of the
    list [l]. *)
Lemma below_weaken (n m : nat) (s : Studio) :
  (n <= m)%nat -> below n s -> below m s.
Proof.
  intros Hle (H1 & H2 & H3 & H4). unfold below, pathsBelow, shapesBelow in *.
  repeat split;
    try (eapply Forall_impl; [| eassumption]; cbn; intros; lia).
  eapply Forall_impl; [| exact H4]. cbn. intros e [Hp Hs].
  split; (eapply Forall_impl; [| eassumption]; cbn; intros; lia).
Qed.

Lemma handleMouseMove_draw (s : Studio) (c : Point.t) (before : list Path.t)
  (p : Path.t) :
  isDrawing s = true ->
  activeTool s = Some draw ->
  paths s = before ++ [p] ->
  below (Path.obj p) (setPaths before s) ->
  handleMouseMove s (Some c)
  = Some (setPaths (before ++ [pushPoint c p]) s).
Proof.
  intros Hd Ht Hp (H1 & H2 & H3 & H4).
  assert (E : write (PushPoint (Path.obj p) c) s
              = setPaths (before ++ [pushPoint c p]) s).
  { destruct s. cbn in *. subst.
    rewrite map_app, (writePath_elsewhere (PushPoint (Path.obj p) c) before H1).
    cbn [map]. rewrite writePath_here.
    rewrite (writePath_elsewhere (PushPoint (Path.obj p) c) _ H2).
    rewrite writeShape_other.
    now rewrite (writeSnapshot_elsewhere (PushPoint (Path.obj p) c) _ H4). }
  unfold handleMouseMove. rewrite Hd, Ht, Hp, lastElement_snoc. cbn [negb].
  destruct (selectedElement s); cbn [tool_is Tool_eqb andb];
    destruct (startPoint s); now rewrite E.
Qed.

Lemma handleMouseMove_remove (s : Studio) (c : Point.t)
  (before : list Path.t) (p : Path.t) :
  isDrawing s = true ->
  activeTool s = Some remove ->
  removeMask s = before ++ [p] ->
  below (Path.obj p) (setRemoveMask before s) ->
  handleMouseMove s (Some c)
  = Some (setRemoveMask (before ++ [pushPoint c p]) s).
Proof.
  intros Hd Ht Hp (H1 & H2 & H3 & H4).
  assert (E : write (PushPoint (Path.obj p) c) s
              = setRemoveMask (before ++ [pushPoint c p]) s).
  { destruct s. cbn in *. subst.
    rewrite map_app, (writePath_elsewhere (PushPoint (Path.obj p) c) before H2).
    cbn [map]. rewrite writePath_here.
    rewrite (writePath_elsewhere (PushPoint (Path.obj p) c) _ H1).
    rewrite writeShape_other.
    now rewrite (writeSnapshot_elsewhere (PushPoint (Path.obj p) c) _ H4). }
  unfold handleMouseMove. rewrite Hd, Ht, Hp, lastElement_snoc. cbn [negb].
  destruct (selectedElement s); cbn [tool_is Tool_eqb andb];
    destruct (startPoint s); now rewrite E.
Qed.

Lemma handleMouseMove_shape (s : Studio) (c : Point.t)
  (before : list ShapeElement.t) (e : ShapeElement.t) :
  isDrawing s = true ->
  activeTool s = Some shape ->
  shapes s = before ++ [e] ->
  below (ShapeElement.obj e) (setShapes before s) ->
  handleMouseMove s (Some c)
  = Some (setShapes (before ++ [setSecondPoint c e]) s).
Proof.
  intros Hd Ht Hp (H1 & H2 & H3 & H4).
  assert (E : write (SetSecondPoint (ShapeElement.obj e) c) s
              = setShapes (before ++ [setSecondPoint c e]) s).
  { destruct s. cbn in *. subst.
    rewrite map_app,
      (writeShape_elsewhere (SetSecondPoint (ShapeElement.obj e) c) before H3).
    cbn [map]. rewrite writeShape_here.
    rewrite !writePath_other.
    now rewrite (writeSnapshot_elsewhere
                   (SetSecondPoint (ShapeElement.obj e) c) _ H4). }
  unfold handleMouseMove. rewrite Hd, Ht, Hp, lastElement_snoc. cbn [negb].
  destruct (selectedElement s); cbn [tool_is Tool_eqb andb];
    destruct (startPoint s); now rewrite E.
Qed.

Lemma moves_draw (cs : list Point.t) (s : Studio) (before : list Path.t)
  (p : Path.t) :
  isDrawing s = true ->
  activeTool s = Some draw ->
  paths s = before ++ [p] ->
  below (Path.obj p) (setPaths before s) ->
  moves s cs
  = Some
      (setPaths
         (before
          ++ [Path.mk (Path.points p ++ cs) (Path.color p) (Path.size p)
                (Path.id p) (Path.obj p)]) s).
Proof.
  revert s p. induction cs as [| c cs IH]; intros s p Hd Ht Hp Hb.
  - cbn [moves]. rewrite app_nil_r. destruct p, s. cbn in *. now subst.
  - cbn [moves]. rewrite (handleMouseMove_draw s c before p Hd Ht Hp Hb).
    rewrite (IH _ (pushPoint c p)); try (now destruct s).
    cbn [pushPoint Path.points Path.color Path.size Path.id Path.obj].
    rewrite <- app_assoc. now destruct s.
Qed.

Lemma moves_remove (cs : list Point.t) (s : Studio) (before : list Path.t)
  (p : Path.t) :
  isDrawing s = true ->
  activeTool s = Some remove ->
  removeMask s = before ++ [p] ->
  below (Path.obj p) (setRemoveMask before s) ->
  moves s cs
  = Some
      (setRemoveMask
         (before
          ++ [Path.mk (Path.points p ++ cs) (Path.color p) (Path.size p)
                (Path.id p) (Path.obj p)]) s).
Proof.
  revert s p. induction cs as [| c cs IH]; intros s p Hd Ht Hp Hb.
  - cbn [moves]. rewrite app_nil_r. destruct p, s. cbn in *. now subst.
  - cbn [moves]. rewrite (handleMouseMove_remove s c before p Hd Ht Hp Hb).
    rewrite (IH _ (pushPoint c p)); try (now destruct s).
    cbn [pushPoint Path.points Path.color Path.size Path.id Path.obj].
    rewrite <- app_assoc. now destruct s.
Qed.

Lemma moves_shape (cs : list Point.t) (s : Studio)
  (before : list ShapeElement.t) (e : ShapeElement.t) (c0 : Point.t) :
  isDrawing s = true ->
  activeTool s = Some shape ->
  shapes s = before ++ [e] ->
  below (ShapeElement.obj e) (setShapes before s) ->
  Point.x c0 = ShapeElement.x2 e ->
  Point.y c0 = ShapeElement.y2 e ->
  moves s cs
  = Some
      (setShapes
         (before
          ++ [ShapeElement.mk (ShapeElement.type e) (ShapeElement.x1 e)
                (ShapeElement.y1 e) (Point.x (last cs c0))
                (Point.y (last cs c0)) (ShapeElement.color e)
                (ShapeElement.strokeWidth e) (ShapeElement.id e)
                (ShapeElement.obj e)]) s).
Proof.
  revert s e c0. induction cs as [| c cs IH]; intros s e c0 Hd Ht Hp Hb Hx Hy.
  - cbn [moves last]. rewrite Hx, Hy. destruct e, s. cbn in *. now subst.
  - cbn [moves]. rewrite (handleMouseMove_shape s c before e Hd Ht Hp Hb).
    rewrite (IH _ (setSecondPoint c e) c); try (now destruct s).
    cbn [setSecondPoint ShapeElement.type ShapeElement.x1 ShapeElement.y1
           ShapeElement.color ShapeElement.strokeWidth ShapeElement.id
           ShapeElement.obj].
    replace (last (c :: cs) c0) with (last cs c)
      by (clear; revert c; induction cs as [| d cs IH]; intros c;
          [reflexivity | cbn [last]; destruct cs; [reflexivity | apply IH]]).
    now destruct s.
Qed.

(** The pointer-down of the three drawing tools. *)
Lemma handleMouseDown_drawing (s : Studio) (c : Point.t) (stamp : string) :
  let pressed :=
    setObjects (newObj s)
      (setSelectedElement None
         (setIsDrawing true (setStartPoint (Some c) s))) in
  let o := options s in
  (activeTool s = Some draw ->
   handleMouseDown s (Some c) stamp
   = setPaths
       (paths s
        ++ [Path.mk [c] (brushColor o) (brushSize o) stamp (newObj s)])
       pressed)
  /\ (activeTool s = Some remove ->
      handleMouseDown s (Some c) stamp
      = setRemoveMask
          (removeMask s
           ++ [Path.mk [c] "#ff007f" (removeBrushSize o) stamp (newObj s)])
          pressed)
  /\ (activeTool s = Some shape ->
      handleMouseDown s (Some c) stamp
      = setShapes
          (shapes s
           ++ [ShapeElement.mk (shapeType o) (Point.x c) (Point.y c)
                 (Point.x c) (Point.y c) (shapeColor o) (shapeStrokeWidth o)
                 stamp (newObj s)]) pressed).
Proof.
  cbv zeta. repeat split; intros Ht; unfold handleMouseDown; rewrite Ht;
    cbn [tool_is Tool_eqb orb]; cbv zeta;
    (rewrite flush_untouched by (now destruct s)); now destruct s.
Qed.

(** X5.  A freehand stroke: the pointer goes down with the draw tool and
    moves through any points.  The paths then are the paths of before
    followed by one new path, a new object, whose points are the point of
    the press and the points of the moves in order, with the colour and
    the size of the brush; nothing is committed until the pointer goes
    up, and the pointer-up commits exactly that edit state as one
    entry. *)
Theorem freehand_stroke (s : Studio) (c0 : Point.t) (cs : list Point.t)
  (stamp : string) :
  activeTool s = Some draw ->
  let stroke :=
    Path.mk (c0 :: cs) (brushColor (options s)) (brushSize (options s))
      stamp (newObj s) in
  exists s1,
    moves (handleMouseDown s (Some c0) stamp) cs = Some s1
    /\ paths s1 = paths s ++ [stroke]
    /\ history s1 = history s
    /\ historyIndex s1 = historyIndex s
    /\ history (handleMouseUpOrLeave s1)
       = slice0 (history s) (historyIndex s + 1)
         ++ [EditState.mk (adjustments s) (transforms s)
               (paths s ++ [stroke]) (texts s) (shapes s)]
    /\ paths (handleMouseUpOrLeave s1) = paths s ++ [stroke].
Proof.
  intros Ht stroke.
  destruct (handleMouseDown_drawing s c0 stamp) as (Hdown & _ & _).
  specialize (Hdown Ht).
  pose proof (newObj_below s) as Hb.
  set (s0 := handleMouseDown s (Some c0) stamp) in *.
  assert (H0 : isDrawing s0 = true /\ activeTool s0 = Some draw
               /\ paths s0
                  = paths s
                    ++ [Path.mk [c0] (brushColor (options s))
                          (brushSize (options s)) stamp (newObj s)]
               /\ below (newObj s) (setPaths (paths s) s0))
    by (rewrite Hdown; now destruct s).
  destruct H0 as (Hd & Ht0 & Hp & Hb0).
  eexists. split; [apply (moves_draw cs s0 _ _ Hd Ht0 Hp Hb0) |].
  cbn [Path.points Path.color Path.size Path.id Path.obj app]. fold stroke.
  set (s1 := setPaths (paths s ++ [stroke]) s0).
  assert (H1 : isDrawing s1 = true /\ closing s1
               /\ current s1
                  = EditState.mk (adjustments s) (transforms s)
                      (paths s ++ [stroke]) (texts s) (shapes s)
               /\ history s1 = history s /\ historyIndex s1 = historyIndex s
               /\ paths s1 = paths s ++ [stroke]).
  { subst s1. rewrite Hdown. unfold closing. destruct s. cbn in *.
    repeat split; auto. }
  destruct H1 as (Hd1 & Hc1 & Hcur & Hh & Hi & Hp1).
  destruct (handleMouseUpOrLeave_spec s1 Hd1) as (Hcommit & _ & Hsame & _).
  destruct (Hcommit Hc1) as [Hhist _].
  repeat split; try assumption.
  - now rewrite Hhist, Hh, Hi, Hcur.
  - apply (f_equal EditState.paths) in Hsame. cbn [current EditState.paths] in Hsame.
    now rewrite Hsame.
Qed.

(** X6.  A stroke of the remove tool goes to the removal mask only: the
    mask gains one path, a new object, with the points of the press and
    of the moves, in the fixed colour and with the size of the remove
    brush; the edit state, the history and the index are the same after
    the pointer-up as before the press. *)
Theorem mask_stroke (s : Studio) (c0 : Point.t) (cs : list Point.t)
  (stamp : string) :
  activeTool s = Some remove ->
  exists s1,
    moves (handleMouseDown s (Some c0) stamp) cs = Some s1
    /\ let s2 := handleMouseUpOrLeave s1 in
       removeMask s2
       = removeMask s
         ++ [Path.mk (c0 :: cs) "#ff007f" (removeBrushSize (options s)) stamp
               (newObj s)]
       /\ current s2 = current s
       /\ history s2 = history s
       /\ historyIndex s2 = historyIndex s.
Proof.
  intros Ht.
  destruct (handleMouseDown_drawing s c0 stamp) as (_ & Hdown & _).
  specialize (Hdown Ht).
  pose proof (newObj_below s) as Hb.
  set (s0 := handleMouseDown s (Some c0) stamp) in *.
  assert (H0 : isDrawing s0 = true /\ activeTool s0 = Some remove
               /\ removeMask s0
                  = removeMask s
                    ++ [Path.mk [c0] "#ff007f" (removeBrushSize (options s))
                          stamp (newObj s)]
               /\ below (newObj s) (setRemoveMask (removeMask s) s0))
    by (rewrite Hdown; now destruct s).
  destruct H0 as (Hd & Ht0 & Hp & Hb0).
  eexists. split; [apply (moves_remove cs s0 _ _ Hd Ht0 Hp Hb0) |].
  cbn [Path.points Path.color Path.size Path.id Path.obj app].
  match goal with |- context [handleMouseUpOrLeave ?x] => set (s1 := x) end.
  assert (H1 : isDrawing s1 = true /\ ~ closing s1)
    by (subst s1; rewrite Hdown; unfold closing; destruct s; cbn in *;
        subst; split; [reflexivity |];
        intros [H | [H | [H _]]]; discriminate).
  destruct H1 as [Hd1 Hn1].
  cbv zeta. rewrite (handleMouseUpOrLeave_idle s1 Hd1 Hn1).
  subst s1. rewrite Hdown. now destruct s.
Qed.

(** X7.  A shape is drawn by a press and moves of the shape tool: the
    shapes of before are followed by one new shape, a new object, of the
    chosen type, colour and stroke width, whose first control point is
    the point of the press and whose second control point is the point of
    the last move (of the press itself when there was no move); the
    pointer-up commits that as one entry. *)
Theorem rubber_band_shape (s : Studio) (c0 : Point.t) (cs : list Point.t)
  (stamp : string) :
  activeTool s = Some shape ->
  let o := options s in
  let drawnShape :=
    ShapeElement.mk (shapeType o) (Point.x c0) (Point.y c0)
      (Point.x (last cs c0)) (Point.y (last cs c0)) (shapeColor o)
      (shapeStrokeWidth o) stamp (newObj s) in
  exists s1,
    moves (handleMouseDown s (Some c0) stamp) cs = Some s1
    /\ shapes s1 = shapes s ++ [drawnShape]
    /\ history s1 = history s
    /\ history (handleMouseUpOrLeave s1)
       = slice0 (history s) (historyIndex s + 1)
         ++ [EditState.mk (adjustments s) (transforms s) (paths s) (texts s)
               (shapes s ++ [drawnShape])]
    /\ shapes (handleMouseUpOrLeave s1) = shapes s ++ [drawnShape].
Proof.
  intros Ht o drawnShape.
  destruct (handleMouseDown_drawing s c0 stamp) as (_ & _ & Hdown).
  specialize (Hdown Ht).
  pose proof (newObj_below s) as Hb.
  set (s0 := handleMouseDown s (Some c0) stamp) in *.
  assert (H0 : isDrawing s0 = true /\ activeTool s0 = Some shape
               /\ shapes s0
                  = shapes s
                    ++ [ShapeElement.mk (shapeType o) (Point.x c0)
                          (Point.y c0) (Point.x c0) (Point.y c0)
                          (shapeColor o) (shapeStrokeWidth o) stamp
                          (newObj s)]
               /\ below (newObj s) (setShapes (shapes s) s0))
    by (rewrite Hdown; now destruct s).
  destruct H0 as (Hd & Ht0 & Hp & Hb0).
  eexists.
  split; [apply (moves_shape cs s0 _ _ c0 Hd Ht0 Hp Hb0); reflexivity |].
  cbn [ShapeElement.type ShapeElement.x1 ShapeElement.y1 ShapeElement.color
         ShapeElement.strokeWidth ShapeElement.id ShapeElement.obj].
  fold drawnShape.
  set (s1 := setShapes (shapes s ++ [drawnShape]) s0).
  assert (H1 : isDrawing s1 = true /\ closing s1
               /\ current s1
                  = EditState.mk (adjustments s) (transforms s) (paths s)
                      (texts s) (shapes s ++ [drawnShape])
               /\ history s1 = history s /\ historyIndex s1 = historyIndex s
               /\ shapes s1 = shapes s ++ [drawnShape]).
  { subst s1. rewrite Hdown. unfold closing. destruct s. cbn in *.
    repeat split; auto. }
  destruct H1 as (Hd1 & Hc1 & Hcur & Hh & Hi & Hp1).
  destruct (handleMouseUpOrLeave_spec s1 Hd1) as (Hcommit & _ & Hsame & _).
  destruct (Hcommit Hc1) as [Hhist _].
  repeat split; try assumption.
  - now rewrite Hhist, Hh, Hi, Hcur.
  - apply (f_equal EditState.shapes) in Hsame.
    cbn [current EditState.shapes] in Hsame. now rewrite Hsame.
Qed.
(** *** Dragging by the pointer's displacement *)

Lemma nth_error_middle {A : Type} (before after : list A) (x : A) :
  nth_error (before ++ x :: after) (List.length before) = Some x.
Proof.
  rewrite nth_error_app2 by lia. now rewrite Nat.sub_diag.
Qed.

Lemma moveText_other (sel : Selection) (c off : Point.t) (u : TextElement.t) :
  TextElement.id u <> Selection.id sel -> moveText sel c off u = u.
Proof.
  intros H. unfold moveText.
  now destruct (String.eqb_spec (TextElement.id u) (Selection.id sel)).
Qed.

Lemma moveShape_other (sel : Selection) (c off : Point.t) (fresh : nat)
  (u : ShapeElement.t) :
  ShapeElement.id u <> Selection.id sel -> moveShape sel c off fresh u = u.
Proof.
  intros H. unfold moveShape.
  now destruct (String.eqb_spec (ShapeElement.id u) (Selection.id sel)).
Qed.

(** X8.  With the select tool, a press on an element followed by a move
    of the pointer displaces the element by exactly the displacement of
    the pointer.  For a text (the first one whose box holds the point of
    the press) the anchor moves by it; for a shape (the first one whose
    box holds the point, when no text does) both control points move by
    it.  The element keeps its place in the list and every other
    attribute: the string, colour, size, id and outline settings of a
    text, the type, colour, stroke width and id of a shape.  The list
    keeps its length and the elements with another id stay as they are.
    Positions are stated up to equality of rationals. *)
Theorem drag_follows_pointer (s : Studio) (c q : Point.t) (stamp : string) :
  activeTool s = Some select ->
  let s1 := handleMouseDown s (Some c) stamp in
  (forall before t after,
     texts s = before ++ t :: after ->
     inTextBox c t ->
     (forall u, In u before -> ~ inTextBox c u) ->
     exists s2 t',
       handleMouseMove s1 (Some q) = Some s2
       /\ nth_error (texts s2) (List.length before) = Some t'
       /\ (TextElement.x t' == TextElement.x t + (Point.x q - Point.x c)
           /\ TextElement.y t' == TextElement.y t + (Point.y q - Point.y c))%Q
       /\ TextElement.text t' = TextElement.text t
       /\ TextElement.color t' = TextElement.color t
       /\ TextElement.size t' = TextElement.size t
       /\ TextElement.id t' = TextElement.id t
       /\ TextElement.hasOutline t' = TextElement.hasOutline t
       /\ TextElement.outlineColor t' = TextElement.outlineColor t
       /\ TextElement.outlineWidth t' = TextElement.outlineWidth t
       /\ List.length (texts s2) = List.length (texts s)
       /\ (forall i u,
             nth_error (texts s) i = Some u ->
             TextElement.id u <> TextElement.id t ->
             nth_error (texts s2) i = Some u)
       /\ shapes s2 = shapes s)
  /\ (forall before e after,
        (forall t, In t (texts s) -> ~ inTextBox c t) ->
        shapes s = before ++ e :: after ->
        inShapeBox c e ->
        (forall u, In u before -> ~ inShapeBox c u) ->
        exists s2 e',
          handleMouseMove s1 (Some q) = Some s2
          /\ nth_error (shapes s2) (List.length before) = Some e'
          /\ (ShapeElement.x1 e' == ShapeElement.x1 e + (Point.x q - Point.x c)
              /\ ShapeElement.y1 e'
                 == ShapeElement.y1 e + (Point.y q - Point.y c)
              /\ ShapeElement.x2 e'
                 == ShapeElement.x2 e + (Point.x q - Point.x c)
              /\ ShapeElement.y2 e'
                 == ShapeElement.y2 e + (Point.y q - Point.y c))%Q
          /\ ShapeElement.type e' = ShapeElement.type e
          /\ ShapeElement.color e' = ShapeElement.color e
          /\ ShapeElement.strokeWidth e' = ShapeElement.strokeWidth e
          /\ ShapeElement.id e' = ShapeElement.id e
          /\ List.length (shapes s2) = List.length (shapes s)
          /\ (forall i u,
                nth_error (shapes s) i = Some u ->
                ShapeElement.id u <> ShapeElement.id e ->
                nth_error (shapes s2) i = Some u)
          /\ texts s2 = texts s).
Proof.
  intros Ht s1. subst s1. rewrite (handleMouseDown_select s c stamp Ht).
  split.
  - intros before t after Hts Hin Hmiss.
    assert (Hf : find (textHit c) (texts s) = Some t).
    { apply firstMatch_find. exists before, after.
      split; [assumption |]. split; [now apply textHit_spec |].
      apply (miss_all _ _ _ (textHit_spec c) Hmiss). }
    rewrite Hf.
    match goal with
    | |- context [handleMouseMove ?x] => set (s1 := x)
    end.
    assert (H1 : isDrawing s1 = true /\ activeTool s1 = Some select
                 /\ isDragging s1 = true
                 /\ selectedElement s1
                    = Some (Selection.mk text_element (TextElement.id t))
                 /\ texts s1 = texts s
                 /\ shapes s1 = shapes s
                 /\ dragStartPoint s1
                    = Point.mk (Point.x c - TextElement.x t)
                        (Point.y c - TextElement.y t))
      by (subst s1; destruct s; cbn in *; now subst).
    destruct H1 as (Hd & Ht1 & Hg & Hsel & Htx & Hsh & Hoff).
    set (sel := Selection.mk text_element (TextElement.id t)) in *.
    exists (setTexts (map (moveText sel q (dragStartPoint s1)) (texts s1)) s1).
    exists (moveText sel q (dragStartPoint s1) t).
    assert (Hn : texts
                   (setTexts
                      (map (moveText sel q (dragStartPoint s1)) (texts s1)) s1)
                 = map (moveText sel q (dragStartPoint s1)) (texts s1)
                 /\ shapes
                      (setTexts
                         (map (moveText sel q (dragStartPoint s1)) (texts s1))
                         s1)
                    = shapes s1)
      by now destruct s1.
    destruct Hn as [Hn Hn'].
    split.
    { unfold handleMouseMove. rewrite Hd, Ht1, Hg, Hsel.
      cbn [negb tool_is Tool_eqb andb Selection.type sel].
      rewrite flush_untouched by (now destruct s1). reflexivity. }
    split.
    { rewrite Hn, Htx, Hts. apply map_nth_error. apply nth_error_middle. }
    rewrite Hn, Hn', Htx, Hsh, length_map.
    unfold moveText at 1 2 3 4 5 6 7 8 9. cbn [Selection.id sel].
    rewrite String.eqb_refl, Hoff.
    cbn [TextElement.x TextElement.y TextElement.text TextElement.size
           TextElement.color TextElement.id TextElement.hasOutline
           TextElement.outlineColor TextElement.outlineWidth
           Point.x Point.y].
    repeat split; try ring.
    intros i u Hu Hid.
    rewrite (map_nth_error _ _ _ Hu). f_equal.
    now apply moveText_other.
  - intros before e after Hno Hss Hin Hmiss.
    rewrite (find_all_false _ _ (miss_all _ _ _ (textHit_spec c) Hno)).
    assert (Hf : find (shapeHit c) (shapes s) = Some e).
    { apply firstMatch_find. exists before, after.
      split; [assumption |]. split; [now apply shapeHit_spec |].
      apply (miss_all _ _ _ (shapeHit_spec c) Hmiss). }
    rewrite Hf.
    match goal with
    | |- context [handleMouseMove ?x] => set (s1 := x)
    end.
    assert (H1 : isDrawing s1 = true /\ activeTool s1 = Some select
                 /\ isDragging s1 = true
                 /\ selectedElement s1
                    = Some (Selection.mk shape_element (ShapeElement.id e))
                 /\ shapes s1 = shapes s
                 /\ texts s1 = texts s
                 /\ dragStartPoint s1
                    = Point.mk (Point.x c - ShapeElement.x1 e)
                        (Point.y c - ShapeElement.y1 e))
      by (subst s1; destruct s; cbn in *; now subst).
    destruct H1 as (Hd & Ht1 & Hg & Hsel & Hsh & Htx & Hoff).
    set (sel := Selection.mk shape_element (ShapeElement.id e)) in *.
    set (moved :=
           moveShapes sel q (dragStartPoint s1) (newObj s1) (shapes s1)).
    exists (setShapes moved
              (setObjects (newObj s1 + List.length (shapes s1)) s1)).
    exists (moveShape sel q (dragStartPoint s1)
              (newObj s1 + List.length before) e).
    assert (Hn : shapes
                   (setShapes moved
                      (setObjects (newObj s1 + List.length (shapes s1)) s1))
                 = moved
                 /\ texts
                      (setShapes moved
                         (setObjects (newObj s1 + List.length (shapes s1))
                            s1))
                    = texts s1)
      by now destruct s1.
    destruct Hn as [Hn Hn'].
    split.
    { unfold handleMouseMove. rewrite Hd, Ht1, Hg, Hsel.
      cbn [negb tool_is Tool_eqb andb Selection.type sel]. cbv zeta.
      rewrite flush_untouched by (now destruct s1). reflexivity. }
    split.
    { rewrite Hn. subst moved. rewrite Hsh, Hss.
      apply moveShapes_nth. apply nth_error_middle. }
    rewrite Hn, Hn', Htx. subst moved. rewrite moveShapes_length, Hsh.
    unfold moveShape at 1 2 3 4 5 6 7 8. cbn [Selection.id sel].
    rewrite String.eqb_refl, Hoff.
    cbn [negb ShapeElement.x1 ShapeElement.y1 ShapeElement.x2
           ShapeElement.y2 ShapeElement.type ShapeElement.color
           ShapeElement.strokeWidth ShapeElement.id Point.x Point.y].
    repeat split; try ring.
    intros i u Hu Hid.
    rewrite (moveShapes_nth _ _ _ _ _ _ _ Hu). f_equal.
    now apply moveShape_other.
Qed.
(** *** Quarter turns and flips *)

Lemma Qnum_bounds (a : Q) (k : Z) :
  (inject_Z k <= a)%Q -> k * Z.pos (Qden a) <= Qnum a.
Proof. unfold Qle. cbn. lia. Qed.

Lemma Qnum_bound_above (a : Q) (k : Z) :
  (a < inject_Z k)%Q -> Qnum a < k * Z.pos (Qden a).
Proof. unfold Qlt. cbn. lia. Qed.

Lemma mod360_small (a : Q) : (0 <= a -> a < 360 -> mod360 a == a)%Q.
Proof.
  intros H0 H1. unfold mod360.
  pose proof (Qnum_bounds a 0 H0) as Hn.
  pose proof (Qnum_bound_above a 360 H1) as Hm.
  rewrite Z.quot_small by lia.
  change (inject_Z 0) with 0%Q. ring.
Qed.

Lemma mod360_wrap (a : Q) : (360 <= a -> a < 720 -> mod360 a == a - 360)%Q.
Proof.
  intros H0 H1. unfold mod360.
  pose proof (Qnum_bounds a 360 H0) as Hn.
  pose proof (Qnum_bound_above a 720 H1) as Hm.
  assert (Hq : Z.quot (Qnum a) (Z.pos (Qden a) * 360) = 1).
  { rewrite Z.quot_div_nonneg by lia.
    symmetry. apply (Z.div_unique _ _ 1 (Qnum a - Z.pos (Qden a) * 360)); lia. }
  rewrite Hq. change (inject_Z 1) with 1%Q. ring.
Qed.

Lemma rotateRight_angle (s : Studio) :
  let r := Transforms.rotate (transforms s) in
  let r' := Transforms.rotate (transforms (rotateRight s)) in
  (0 <= r -> r < 360 ->
   0 <= r' /\ r' < 360
   /\ (r < 270 -> r' == r + 90) /\ (270 <= r -> r' == r - 270))%Q
  /\ Transforms.flip (transforms (rotateRight s))
     = Transforms.flip (transforms s).
Proof.
  intros r r'.
  assert (Ht : transforms (rotateRight s)
               = Transforms.mk (mod360 (r + 90))
                   (Transforms.flip (transforms s))).
  { unfold rotateRight. cbv zeta.
    match goal with
    | |- context [commitTransforms s ?t] =>
        destruct (commitTransforms_history s t) as (_ & _ & Hc)
    end.
    apply (f_equal EditState.transforms) in Hc. exact Hc. }
  subst r'. rewrite Ht. cbn [Transforms.rotate Transforms.flip].
  split; [| reflexivity].
  intros H0 H1.
  destruct (Qlt_le_dec r 270) as [H | H].
  - pose proof (mod360_small (r + 90)) as E.
    assert (E' : (mod360 (r + 90) == r + 90)%Q) by (apply E; Lqa.lra).
    repeat split; intros; Lqa.lra.
  - pose proof (mod360_wrap (r + 90)) as E.
    assert (E' : (mod360 (r + 90) == r + 90 - 360)%Q) by (apply E; Lqa.lra).
    repeat split; intros; Lqa.lra.
Qed.

Lemma rotateLeft_angle (s : Studio) :
  let r := Transforms.rotate (transforms s) in
  let r' := Transforms.rotate (transforms (rotateLeft s)) in
  (0 <= r -> r < 360 ->
   0 <= r' /\ r' < 360
   /\ (90 <= r -> r' == r - 90) /\ (r < 90 -> r' == r + 270))%Q
  /\ Transforms.flip (transforms (rotateLeft s))
     = Transforms.flip (transforms s).
Proof.
  intros r r'.
  assert (Ht : transforms (rotateLeft s)
               = Transforms.mk (mod360 (r - 90 + 360))
                   (Transforms.flip (transforms s))).
  { unfold rotateLeft. cbv zeta.
    match goal with
    | |- context [commitTransforms s ?t] =>
        destruct (commitTransforms_history s t) as (_ & _ & Hc)
    end.
    apply (f_equal EditState.transforms) in Hc. exact Hc. }
  subst r'. rewrite Ht. cbn [Transforms.rotate Transforms.flip].
  split; [| reflexivity].
  intros H0 H1.
  destruct (Qlt_le_dec r 90) as [H | H].
  - pose proof (mod360_small (r - 90 + 360)) as E.
    assert (E' : (mod360 (r - 90 + 360) == r - 90 + 360)%Q)
      by (apply E; Lqa.lra).
    repeat split; intros; Lqa.lra.
  - pose proof (mod360_wrap (r - 90 + 360)) as E.
    assert (E' : (mod360 (r - 90 + 360) == r - 90 + 360 - 360)%Q)
      by (apply E; Lqa.lra).
    repeat split; intros; Lqa.lra.
Qed.

Lemma right_step_twice (r a1 a2 : Q) :
  (0 <= r -> r < 360 ->
   0 <= a1 -> a1 < 360 ->
   (r < 270 -> a1 == r + 90) -> (270 <= r -> a1 == r - 270) ->
   (a1 < 270 -> a2 == a1 + 90) -> (270 <= a1 -> a2 == a1 - 270) ->
   (r < 180 -> a2 == r + 180) /\ (180 <= r -> a2 == r - 180))%Q.
Proof.
  intros H0 H1 H2 H3 Rc Rd Sc Sd.
  destruct (Qlt_le_dec r 270) as [A1 | A1];
    [specialize (Rc A1) | specialize (Rd A1)];
    (destruct (Qlt_le_dec a1 270) as [A2 | A2];
     [specialize (Sc A2) | specialize (Sd A2)]);
    split; intros; Lqa.lra.
Qed.

Lemma left_step_twice (r a1 a2 : Q) :
  (0 <= r -> r < 360 ->
   0 <= a1 -> a1 < 360 ->
   (90 <= r -> a1 == r - 90) -> (r < 90 -> a1 == r + 270) ->
   (90 <= a1 -> a2 == a1 - 90) -> (a1 < 90 -> a2 == a1 + 270) ->
   (r < 180 -> a2 == r + 180) /\ (180 <= r -> a2 == r - 180))%Q.
Proof.
  intros H0 H1 H2 H3 Lc Ld Sc Sd.
  destruct (Qlt_le_dec r 90) as [A1 | A1];
    [specialize (Ld A1) | specialize (Lc A1)];
    (destruct (Qlt_le_dec a1 90) as [A2 | A2];
     [specialize (Sd A2) | specialize (Sc A2)]);
    split; intros; Lqa.lra.
Qed.

Lemma half_turn_twice (r a2 a4 : Q) :
  (0 <= r -> r < 360 ->
   (r < 180 -> a2 == r + 180) -> (180 <= r -> a2 == r - 180) ->
   (a2 < 180 -> a4 == a2 + 180) -> (180 <= a2 -> a4 == a2 - 180) ->
   a4 == r)%Q.
Proof.
  intros H0 H1 Hc Hd Sc Sd.
  destruct (Qlt_le_dec r 180) as [A1 | A1];
    [specialize (Hc A1) | specialize (Hd A1)];
    (destruct (Qlt_le_dec a2 180) as [A2 | A2];
     [specialize (Sc A2) | specialize (Sd A2)]);
    Lqa.lra.
Qed.

(** X9.  When the rotation is in [0, 360), it stays there under the two
    rotate buttons; a left turn undoes a right turn and a right turn
    undoes a left turn; four turns in one direction give the rotation
    back (all up to equality of rationals); the rotate buttons keep the
    flips, and pressing a flip button twice gives the transforms back. *)
Theorem quarter_turns (s : Studio) :
  let r := Transforms.rotate (transforms s) in
  let angle (x : Studio) := Transforms.rotate (transforms x) in
  (0 <= r)%Q -> (r < 360)%Q ->
  (0 <= angle (rotateRight s) /\ angle (rotateRight s) < 360
   /\ 0 <= angle (rotateLeft s) /\ angle (rotateLeft s) < 360
   /\ angle (rotateLeft (rotateRight s)) == r
   /\ angle (rotateRight (rotateLeft s)) == r
   /\ angle (rotateRight (rotateRight (rotateRight (rotateRight s)))) == r
   /\ angle (rotateLeft (rotateLeft (rotateLeft (rotateLeft s)))) == r)%Q
  /\ Transforms.flip (transforms (rotateRight s))
     = Transforms.flip (transforms s)
  /\ Transforms.flip (transforms (rotateLeft s))
     = Transforms.flip (transforms s)
  /\ transforms (flipHorizontal (flipHorizontal s)) = transforms s
  /\ transforms (flipVertical (flipVertical s)) = transforms s.
Proof.
  intros r angle H0 H1. subst angle. cbv beta.
  destruct (rotateRight_angle s) as [R1 Rf].
  destruct (rotateLeft_angle s) as [L1 Lf].
  cbv zeta in R1, L1. fold r in R1, L1.
  destruct (R1 H0 H1) as (Ra & Rb & Rc & Rd).
  destruct (L1 H0 H1) as (La & Lb & Lc & Ld).
  split; [| split; [exact Rf | split; [exact Lf |]]].
  - split; [exact Ra |]. split; [exact Rb |].
    split; [exact La |]. split; [exact Lb |].
    split; [| split; [| split]].
    + destruct (rotateLeft_angle (rotateRight s)) as [L2 _].
      cbv zeta in L2. destruct (L2 Ra Rb) as (_ & _ & Lc2 & Ld2).
      destruct (Qlt_le_dec r 270) as [H | H];
        [specialize (Rc H); rewrite Lc2 by Lqa.lra
        | specialize (Rd H); rewrite Ld2 by Lqa.lra]; Lqa.lra.
    + destruct (rotateRight_angle (rotateLeft s)) as [R2 _].
      cbv zeta in R2. destruct (R2 La Lb) as (_ & _ & Rc2 & Rd2).
      destruct (Qlt_le_dec r 90) as [H | H];
        [specialize (Ld H); rewrite Rd2 by Lqa.lra
        | specialize (Lc H); rewrite Rc2 by Lqa.lra]; Lqa.lra.
    + destruct (rotateRight_angle (rotateRight s)) as [R2 _].
      cbv zeta in R2. destruct (R2 Ra Rb) as (R2a & R2b & R2c & R2d).
      destruct (rotateRight_angle (rotateRight (rotateRight s))) as [R3 _].
      cbv zeta in R3. destruct (R3 R2a R2b) as (R3a & R3b & R3c & R3d).
      destruct (rotateRight_angle
                  (rotateRight (rotateRight (rotateRight s)))) as [R4 _].
      cbv zeta in R4. destruct (R4 R3a R3b) as (_ & _ & R4c & R4d).
      destruct (right_step_twice _ _ _ H0 H1 Ra Rb Rc Rd R2c R2d) as [T1 T2].
      destruct (right_step_twice _ _ _ R2a R2b R3a R3b R3c R3d R4c R4d)
        as [T3 T4].
      exact (half_turn_twice _ _ _ H0 H1 T1 T2 T3 T4).
    + destruct (rotateLeft_angle (rotateLeft s)) as [L2 _].
      cbv zeta in L2. destruct (L2 La Lb) as (L2a & L2b & L2c & L2d).
      destruct (rotateLeft_angle (rotateLeft (rotateLeft s))) as [L3 _].
      cbv zeta in L3. destruct (L3 L2a L2b) as (L3a & L3b & L3c & L3d).
      destruct (rotateLeft_angle (rotateLeft (rotateLeft (rotateLeft s))))
        as [L4 _].
      cbv zeta in L4. destruct (L4 L3a L3b) as (_ & _ & L4c & L4d).
      destruct (left_step_twice _ _ _ H0 H1 La Lb Lc Ld L2c L2d) as [T1 T2].
      destruct (left_step_twice _ _ _ L2a L2b L3a L3b L3c L3d L4c L4d)
        as [T3 T4].
      exact (half_turn_twice _ _ _ H0 H1 T1 T2 T3 T4).
  - assert (Hf : forall x t, transforms (commitTransforms x t) = t).
    { intros x t. destruct (commitTransforms_history x t) as (_ & _ & Hc).
      apply (f_equal EditState.transforms) in Hc. exact Hc. }
    unfold flipHorizontal, flipVertical. cbv zeta. rewrite !Hf.
    cbn [Transforms.rotate Transforms.flip Flip.horizontal Flip.vertical].
    rewrite !negb_involutive.
    destruct (transforms s) as [rot [fh fv]]. split; reflexivity.
Qed.

(** *** What is drawn over the image *)

Lemma forallb_flat_map {A B : Type} (f : B -> bool) (g : A -> list B)
  (l : list A) :
  (forall a, forallb f (g a) = true) -> forallb f (flat_map g l) = true.
Proof.
  intros H. induction l as [| a l IH]; [reflexivity |].
  cbn [flat_map]. now rewrite forallb_app, H, IH.
Qed.

Lemma forallb_map_LineTo (f : cmd -> bool) (l : list Point.t) :
  (forall x y, f (LineTo x y) = true) ->
  forallb f (map (fun p => LineTo (Point.x p) (Point.y p)) l) = true.
Proof.
  intros H. induction l as [| p l IH]; [reflexivity |].
  cbn [map forallb]. now rewrite H, IH.
Qed.

Lemma drawPath_plain (p : Path.t) :
  forallb (fun c => negb (placesImage c) && flat c) (drawPath p) = true.
Proof.
  unfold drawPath. destruct (_ <? _)%nat; [reflexivity |].
  destruct (Path.points p) as [| p0 rest]; [reflexivity |].
  cbn [app forallb placesImage flat negb andb].
  rewrite forallb_app, forallb_map_LineTo; reflexivity.
Qed.

Lemma drawShape_plain (e : ShapeElement.t) :
  forallb (fun c => negb (placesImage c) && flat c) (drawShape e) = true.
Proof. unfold drawShape. now destruct (ShapeElement.type e). Qed.

Lemma drawText_plain (t : TextElement.t) :
  forallb (fun c => negb (placesImage c) && flat c) (drawText t) = true.
Proof. unfold drawText. now destruct (TextElement.hasOutline t). Qed.

Lemma drawSelection_plain (s : Studio) :
  forallb (fun c => negb (placesImage c) && flat c) (drawSelection s) = true.
Proof.
  unfold drawSelection. destruct (selectedElement s) as [[k i] |];
    [| reflexivity].
  destruct k; cbn [Selection.type Selection.id];
    match goal with |- context [find ?f ?l] => destruct (find f l) end;
    reflexivity.
Qed.

Lemma nesting_flat (cs : list cmd) (d : nat) :
  forallb flat cs = true -> nesting d cs = Some d.
Proof.
  induction cs as [| c cs IH]; [reflexivity |].
  cbn [forallb]. intros H. apply andb_prop in H. destruct H as [Hc Hcs].
  destruct c; try discriminate Hc; cbn [nesting]; now apply IH.
Qed.

Lemma nesting_app (a b : list cmd) (d d' : nat) :
  nesting d a = Some d' -> nesting d (a ++ b) = nesting d' b.
Proof.
  revert d. induction a as [| c a IH]; intros d.
  - cbn. now intros [= ->].
  - destruct c; cbn [app nesting]; try apply IH.
    destruct d; [discriminate | apply IH].
Qed.

Lemma forallb_weaken {A : Type} (f g : A -> bool) (l : list A) :
  (forall x, f x = true -> g x = true) ->
  forallb f l = true -> forallb g l = true.
Proof.
  intros H. induction l as [| a l IH]; [reflexivity |].
  cbn [forallb]. intros E. apply andb_prop in E. destruct E as [E1 E2].
  now rewrite (H a E1), IH.
Qed.

(** X10.  A frame begins with the eight commands that size the canvas
    and draw the image between one [save] and its [restore]: translate,
    rotate, scale and the filter are set inside that pair only.  What
    follows (paths, mask strokes, shapes, texts, crop overlay, selection
    highlight) contains no command that moves the coordinate system,
    sets a filter, sizes the canvas or draws an image, and every [save]
    in the frame is closed by a [restore]: the annotations are drawn in
    plain canvas coordinates, whatever the rotation, the flips and the
    adjustments. *)
Theorem annotations_are_plain (s : Studio) (image : Image) :
  exists width height tx ty rad sx sy chain dx dy dw dh rest,
    drawn (render s image)
    = [ SetCanvasSize width height; Save; Translate tx ty; Rotate rad;
        Scale sx sy; SetFilter chain;
        DrawImage (pixels image) dx dy dw dh; Restore ]
      ++ rest
    /\ map fst (map fst chain)
       = [ "brightness"; "contrast"; "saturate"; "grayscale"; "sepia";
           "invert"; "blur"; "hue-rotate" ]
    /\ forallb (fun c => negb (placesImage c)) rest = true
    /\ nesting 0 rest = Some 0%nat
    /\ nesting 0 (drawn (render s image)) = Some 0%nat.
Proof.
  unfold render. cbv zeta. cbn [drawn].
  do 13 eexists.
  split; [reflexivity |]. split; [reflexivity |].
  assert (Hcrop :
            forallb (fun c => negb (placesImage c))
              match tool_is (activeTool s) crop, cropRect s with
              | true, Some r =>
                  [ Save; SetFillStyle "rgba(0, 0, 0, 0.5)";
                    FillRect 0 0 (canvasWidth image (transforms s))
                      (canvasHeight image (transforms s));
                    ClearRect (Rect.x r) (Rect.y r) (Rect.width r)
                      (Rect.height r);
                    SetStrokeStyle "#4285F4"; SetLineWidth 2;
                    StrokeRect (Rect.x r) (Rect.y r) (Rect.width r)
                      (Rect.height r);
                    Restore ]
              | _, _ => []
              end = true
            /\ forall d,
                 nesting d
                   match tool_is (activeTool s) crop, cropRect s with
                   | true, Some r =>
                       [ Save; SetFillStyle "rgba(0, 0, 0, 0.5)";
                         FillRect 0 0 (canvasWidth image (transforms s))
                           (canvasHeight image (transforms s));
                         ClearRect (Rect.x r) (Rect.y r) (Rect.width r)
                           (Rect.height r);
                         SetStrokeStyle "#4285F4"; SetLineWidth 2;
                         StrokeRect (Rect.x r) (Rect.y r) (Rect.width r)
                           (Rect.height r);
                         Restore ]
                   | _, _ => []
                   end = Some d).
  { destruct (tool_is (activeTool s) crop), (cropRect s); split; reflexivity. }
  destruct Hcrop as [Hc1 Hc2].
  set (both := fun c => negb (placesImage c) && flat c).
  assert (Hmask :
            forallb both
              (if tool_is (activeTool s) remove
               then flat_map drawPath (removeMask s) else []) = true).
  { destruct (tool_is (activeTool s) remove); [| reflexivity].
    apply forallb_flat_map, drawPath_plain. }
  pose proof (forallb_flat_map both drawPath (paths s) drawPath_plain) as Hp.
  pose proof (forallb_flat_map both drawShape (shapes s) drawShape_plain)
    as Hs.
  pose proof (forallb_flat_map both drawText (texts s) drawText_plain) as Ht.
  pose proof (drawSelection_plain s) as Hsel. fold both in Hsel.
  assert (L : forall l, forallb both l = true ->
                        forallb (fun c => negb (placesImage c)) l = true)
    by (intros l; apply forallb_weaken; intros x E; unfold both in E;
        now apply andb_prop in E).
  assert (F : forall l, forallb both l = true -> forallb flat l = true)
    by (intros l; apply forallb_weaken; intros x E; unfold both in E;
        now apply andb_prop in E).
  assert (Hrest :
            nesting 0
              (flat_map drawPath (paths s)
               ++ (if tool_is (activeTool s) remove
                   then flat_map drawPath (removeMask s) else [])
               ++ flat_map drawShape (shapes s)
               ++ flat_map drawText (texts s)
               ++ match tool_is (activeTool s) crop, cropRect s with
                  | true, Some r =>
                      [ Save; SetFillStyle "rgba(0, 0, 0, 0.5)";
                        FillRect 0 0 (canvasWidth image (transforms s))
                          (canvasHeight image (transforms s));
                        ClearRect (Rect.x r) (Rect.y r) (Rect.width r)
                          (Rect.height r);
                        SetStrokeStyle "#4285F4"; SetLineWidth 2;
                        StrokeRect (Rect.x r) (Rect.y r) (Rect.width r)
                          (Rect.height r);
                        Restore ]
                  | _, _ => []
                  end
               ++ drawSelection s) = Some 0%nat).
  { rewrite (nesting_app _ _ 0 0 (nesting_flat _ 0 (F _ Hp))).
    rewrite (nesting_app _ _ 0 0 (nesting_flat _ 0 (F _ Hmask))).
    rewrite (nesting_app _ _ 0 0 (nesting_flat _ 0 (F _ Hs))).
    rewrite (nesting_app _ _ 0 0 (nesting_flat _ 0 (F _ Ht))).
    rewrite (nesting_app _ _ 0 0 (Hc2 0%nat)).
    apply nesting_flat, F, Hsel. }
  split; [| split; [exact Hrest | exact Hrest]].
  rewrite !forallb_app, (L _ Hp), (L _ Hmask), (L _ Hs), (L _ Ht), Hc1,
    (L _ Hsel).
  reflexivity.
Qed.

(** *** The request to the generation service *)

Lemma last_snoc {A : Type} (l : list A) (x d : A) : last (l ++ [x]) d = x.
Proof.
  induction l as [| a l IH]; [reflexivity |].
  cbn [app last]. rewrite IH. destruct (l ++ [x]) eqn:E;
    [destruct l; discriminate | reflexivity].
Qed.

Lemma imageParts_presentUrls (images : list (option string)) :
  imageParts images
  = map (fun url => InlineData (splitSecond "," url) (getMimeType url))
      (presentUrls images).
Proof.
  induction images as [| [url |] rest IH]; cbn; [reflexivity | |];
    try destruct (truthy url); cbn; now rewrite ?IH.
Qed.

Lemma presentUrls_length (images : list (option string)) :
  List.length (presentUrls images) = List.length (filter present images).
Proof.
  induction images as [| [url |] rest IH]; cbn [presentUrls filter present];
    [reflexivity | destruct (truthy url); cbn [List.length]; now rewrite IH
    | exact IH].
Qed.

(** X11.  The parts of a request are one inline part for each image
    that is neither null nor empty, in the order given, followed by the
    prompt as the last and only text part; the block of the source that
    would move the text part to the end never changes anything. *)
Theorem request_parts (prompt : string) (images : list (option string)) :
  requestParts prompt images
  = map (fun url => InlineData (splitSecond "," url) (getMimeType url))
      (presentUrls images)
    ++ [TextPart prompt]
  /\ List.length (requestParts prompt images)
     = S (List.length (filter present images))
  /\ last (requestParts prompt images) (TextPart prompt) = TextPart prompt.
Proof.
  assert (H : requestParts prompt images
              = imageParts images ++ [TextPart prompt]).
  { unfold requestParts. cbv zeta. rewrite last_snoc. cbn [isInlineData].
    now rewrite andb_false_r. }
  rewrite H, imageParts_presentUrls. split; [reflexivity |].
  split; [| apply last_snoc].
  rewrite length_app, length_map. cbn [List.length].
  rewrite Nat.add_1_r. f_equal. apply presentUrls_length.
Qed.

(** *** Encoded images *)

Lemma prefix_app (p t : string) : String.prefix p (p ++ t) = true.
Proof.
  induction p as [| c p IH]; cbn; [now destruct t |].
  destruct (Ascii.ascii_dec c c); [exact IH | contradiction].
Qed.

Lemma string_length_app (a b : string) :
  String.length (a ++ b) = (String.length a + String.length b)%nat.
Proof. induction a as [| c a IH]; cbn; [reflexivity | now rewrite IH]. Qed.

Lemma string_app_assoc (a b c : string) :
  ((a ++ b) ++ c = a ++ (b ++ c))%string.
Proof. induction a as [| x a IH]; cbn; [reflexivity | now rewrite IH]. Qed.

Lemma lacks_cons (c x : Ascii.ascii) (s : string) :
  lacks c (String x s) -> x <> c /\ lacks c s.
Proof.
  unfold lacks. cbn. intros H. split.
  - intros E. apply H. now left.
  - intros E. apply H. now right.
Qed.

Lemma lacks_app (c : Ascii.ascii) (a b : string) :
  lacks c a -> lacks c b -> lacks c (a ++ b).
Proof.
  induction a as [| x a IH]; cbn; [auto |].
  intros Ha Hb. apply lacks_cons in Ha. destruct Ha as [Hx Ha].
  unfold lacks. cbn. intros [E | E]; [contradiction |].
  now apply (IH Ha Hb).
Qed.

Lemma indexOf_prefix (pat s : string) :
  String.prefix pat s = true -> indexOf pat s = 0.
Proof. intros H. destruct s; cbn [indexOf]; now rewrite H. Qed.

(** The first occurrence of a pattern that starts with [c], after a
    stretch without [c]. *)
Lemma indexOf_skip (c : Ascii.ascii) (pat pre tail : string) :
  lacks c pre ->
  indexOf (String c pat) (pre ++ String c pat ++ tail)
  = Z.of_nat (String.length pre).
Proof.
  induction pre as [| x pre IH]; intros Hl.
  - change (indexOf (String c pat) (String c pat ++ tail) = 0).
    apply indexOf_prefix, prefix_app.
  - apply lacks_cons in Hl. destruct Hl as [Hx Hl].
    specialize (IH Hl). cbn [append] in IH |- *.
    cbn [indexOf String.length String.prefix].
    destruct (Ascii.ascii_dec c x) as [E | _]; [now subst |].
    rewrite IH.
    destruct (Z.ltb_spec (Z.of_nat (String.length pre)) 0); lia.
Qed.

Lemma indexOf_lacks (c : Ascii.ascii) (pat s : string) :
  lacks c s -> indexOf (String c pat) s = -1.
Proof.
  induction s as [| x s IH]; intros Hl; [reflexivity |].
  apply lacks_cons in Hl. destruct Hl as [Hx Hl].
  cbn [indexOf String.prefix].
  destruct (Ascii.ascii_dec c x) as [E | _]; [now subst |].
  now rewrite (IH Hl).
Qed.

Lemma substring_middle (a b c : string) :
  String.substring (String.length a) (String.length b) (a ++ b ++ c) = b.
Proof.
  induction a as [| x a IH]; cbn [String.length append String.substring].
  - induction b as [| y b IHb]; cbn; [now destruct c | now rewrite IHb].
  - exact IH.
Qed.

Lemma substring_tail (a b : string) :
  String.substring (String.length a) (String.length b) (a ++ b) = b.
Proof.
  induction a as [| x a IH]; cbn [String.length append String.substring].
  - induction b as [| y b IHb]; cbn; [reflexivity | now rewrite IHb].
  - exact IH.
Qed.

Lemma substring_head (a b : string) :
  String.substring 0 (String.length a) (a ++ b) = a.
Proof.
  induction a as [| x a IH]; cbn; [now destruct b | now rewrite IH].
Qed.

Lemma jsSubstring_middle (a b c : string) :
  jsSubstring (Z.of_nat (String.length a))
    (Z.of_nat (String.length a + String.length b)) (a ++ b ++ c)
  = b.
Proof.
  unfold jsSubstring. cbv zeta. rewrite !string_length_app.
  match goal with
  | |- String.substring (Z.to_nat ?lo) (Z.to_nat ?d) _ = _ =>
      replace (Z.to_nat lo) with (String.length a) by lia;
      replace (Z.to_nat d) with (String.length b) by lia
  end.
  apply substring_middle.
Qed.

Lemma jsSubstringFrom_tail (a b : string) :
  jsSubstringFrom (Z.of_nat (String.length a)) (a ++ b) = b.
Proof.
  unfold jsSubstringFrom, jsSubstring. cbv zeta. rewrite !string_length_app.
  match goal with
  | |- String.substring (Z.to_nat ?lo) (Z.to_nat ?d) _ = _ =>
      replace (Z.to_nat lo) with (String.length a) by lia;
      replace (Z.to_nat d) with (String.length b) by lia
  end.
  apply substring_tail.
Qed.

(** X14.  The encoded image made from a response part is read back by
    the request side as it was written: for a mime type without [;] and
    [,] and a payload without [,], the image string is [data:], the mime
    type, [;base64,] and the payload, and [getMimeType] and
    [split(',')[1]] give the mime type and the payload back. *)
Theorem encoded_image_round_trip (mime payload : string) :
  lacks ";"%char mime ->
  lacks ","%char mime ->
  lacks ","%char payload ->
  let url := ("data:" ++ mime ++ ";base64," ++ payload)%string in
  responseImage (Some [InlineData (Some payload) mime]) = inl url
  /\ getMimeType url = mime
  /\ splitSecond "," url = Some payload
  /\ imageParts [Some url] = [InlineData (Some payload) mime].
Proof.
  intros Hs Hc Hp url.
  assert (Hm : getMimeType url = mime).
  { unfold getMimeType.
    assert (Hi : indexOf ";base64" url
                 = Z.of_nat (String.length "data:" + String.length mime)).
    { subst url.
      change ("data:" ++ mime ++ ";base64," ++ payload)%string
        with ("data:" ++ (mime ++ ";base64" ++ ("," ++ payload)))%string.
      rewrite <- string_app_assoc.
      rewrite indexOf_skip, string_length_app; [reflexivity |].
      apply lacks_app; [| assumption].
      unfold lacks. cbn. intros [E | [E | [E | [E | [E | []]]]]];
        discriminate. }
    rewrite Hi. subst url.
    exact (jsSubstring_middle "data:" mime (";base64," ++ payload)). }
  assert (Hd : splitSecond "," url = Some payload).
  { unfold splitSecond. cbv zeta.
    assert (Hi : indexOf "," url
                 = Z.of_nat (String.length ("data:" ++ mime ++ ";base64"))).
    { subst url.
      replace ("data:" ++ mime ++ ";base64," ++ payload)%string
        with (("data:" ++ mime ++ ";base64") ++ "," ++ payload)%string
        by (now rewrite !string_app_assoc).
      change ("," ++ payload)%string with ("," ++ "" ++ payload)%string.
      apply indexOf_skip.
      change ("data:" ++ mime ++ ";base64")%string
        with ("data:" ++ (mime ++ ";base64"))%string.
      apply lacks_app; [| apply lacks_app; [assumption |]];
        unfold lacks; cbn; intuition discriminate. }
    rewrite Hi.
    destruct (Z.ltb_spec (Z.of_nat (String.length ("data:" ++ mime ++ ";base64"))) 0);
      [lia |].
    f_equal.
    replace url
      with (("data:" ++ mime ++ ";base64,") ++ payload)%string
      by (subst url; now rewrite !string_app_assoc).
    replace (Z.of_nat (String.length ("data:" ++ mime ++ ";base64")) + 1)
      with (Z.of_nat (String.length ("data:" ++ mime ++ ";base64,")))
      by (rewrite !string_length_app; cbn [String.length]; lia).
    rewrite jsSubstringFrom_tail.
    unfold splitFirst. cbv zeta. now rewrite (indexOf_lacks ","%char "" payload Hp). }
  split; [reflexivity |]. split; [exact Hm |]. split; [exact Hd |].
  change (imageParts [Some url])
    with (if truthy url
          then [InlineData (splitSecond "," url) (getMimeType url)]
          else []).
  now rewrite Hm, Hd.
Qed.

(** *** File names *)

Lemma lastIndexOf_lacks (c : Ascii.ascii) (s : string) :
  lacks c s -> lastIndexOf (String c "") s = -1.
Proof.
  induction s as [| x s IH]; intros Hl; [reflexivity |].
  apply lacks_cons in Hl. destruct Hl as [Hx Hl].
  cbn [lastIndexOf String.prefix]. rewrite (IH Hl). cbn.
  destruct (Ascii.ascii_dec c x) as [E | _]; [now subst | reflexivity].
Qed.

Lemma lastIndexOf_last (c : Ascii.ascii) (stem ext : string) :
  lacks c ext ->
  lastIndexOf (String c "") (stem ++ String c ext)
  = Z.of_nat (String.length stem).
Proof.
  intros Hl. induction stem as [| x stem IH].
  - cbn [append lastIndexOf String.prefix String.length].
    rewrite (lastIndexOf_lacks c ext Hl). cbn.
    destruct (Ascii.ascii_dec c c); [now destruct ext | contradiction].
  - cbn [append lastIndexOf String.length]. rewrite IH.
    destruct (Z.leb_spec 0 (Z.of_nat (String.length stem))); lia.
Qed.

Lemma jsSubstring_head (a b : string) :
  jsSubstring 0 (Z.of_nat (String.length a)) (a ++ b) = a.
Proof.
  unfold jsSubstring. cbv zeta. rewrite string_length_app.
  match goal with
  | |- String.substring (Z.to_nat ?lo) (Z.to_nat ?d) _ = _ =>
      replace (Z.to_nat lo) with 0%nat by lia;
      replace (Z.to_nat d) with (String.length a) by lia
  end.
  apply substring_head.
Qed.

Lemma jsSubstring_empty (k : Z) (s : string) :
  k <= 0 -> jsSubstring 0 k s = EmptyString.
Proof.
  intros H. unfold jsSubstring. cbv zeta.
  match goal with
  | |- String.substring (Z.to_nat ?lo) (Z.to_nat ?d) _ = _ =>
      replace (Z.to_nat lo) with 0%nat by lia;
      replace (Z.to_nat d) with 0%nat by lia
  end.
  now destruct s.
Qed.

(** The first occurrence of a character splits the string. *)
Lemma indexOf_char (c : Ascii.ascii) (s : string) :
  (indexOf (String c "") s = -1 /\ lacks c s)
  \/ exists pre tail,
       s = (pre ++ String c tail)%string /\ lacks c pre
       /\ indexOf (String c "") s = Z.of_nat (String.length pre).
Proof.
  induction s as [| x s IH].
  - left. split; [reflexivity | intros []].
  - destruct (Ascii.ascii_dec c x) as [E | E].
    + subst x. right. exists EmptyString, s.
      split; [reflexivity |]. split; [intros [] |].
      apply indexOf_prefix. cbn.
      destruct (Ascii.ascii_dec c c); [now destruct s | contradiction].
    + cbn [indexOf String.prefix].
      destruct (Ascii.ascii_dec c x) as [E' | _]; [contradiction |].
      destruct IH as [[Hi Hl] | (pre & tail & -> & Hl & Hi)].
      * left. rewrite Hi. split; [reflexivity |].
        unfold lacks. cbn. intros [H | H]; [now apply E | now apply Hl].
      * right. exists (String x pre), tail.
        split; [reflexivity |]. split.
        -- unfold lacks. cbn. intros [H | H]; [now apply E | now apply Hl].
        -- rewrite Hi. cbn [String.length].
           destruct (Z.ltb_spec (Z.of_nat (String.length pre)) 0); lia.
Qed.

Lemma splitFirst_lacks (c : Ascii.ascii) (s : string) :
  lacks c (splitFirst (String c "") s).
Proof.
  unfold splitFirst. cbv zeta.
  destruct (indexOf_char c s) as [[Hi Hl] | (pre & tail & -> & Hl & Hi)];
    rewrite Hi.
  - exact Hl.
  - destruct (Z.ltb_spec (Z.of_nat (String.length pre)) 0); [lia |].
    now rewrite jsSubstring_head.
Qed.

(** X15.  The export name taken from the name of an uploaded file is the
    name without its last extension: the part before the last dot when
    that part is not empty.  A name without a dot, and a name whose only
    dot is its first character, are kept whole. *)
Theorem export_name_of_file (stem ext : string) :
  lacks "."%char ext ->
  exportNameOf ext = ext
  /\ (stem <> EmptyString -> exportNameOf (stem ++ "." ++ ext) = stem)
  /\ exportNameOf ("." ++ ext) = ("." ++ ext)%string.
Proof.
  intros Hl. unfold exportNameOf. split; [| split].
  - rewrite (lastIndexOf_lacks "."%char ext Hl).
    rewrite jsSubstring_empty by lia. reflexivity.
  - intros Hs. change ("." ++ ext)%string with (String "."%char ext).
    rewrite (lastIndexOf_last "."%char stem ext Hl), jsSubstring_head.
    unfold orElse. destruct stem; [contradiction | reflexivity].
  - change ("." ++ ext)%string with (EmptyString ++ String "."%char ext)%string.
    rewrite (lastIndexOf_last "."%char EmptyString ext Hl).
    rewrite jsSubstring_empty by (cbn; lia). reflexivity.
Qed.

(** X16.  Accepting a generated image names the file after the part of
    the old name before its first dot (after "generated" when there was
    no name): that part, "-ai-edit", and ".png" for the file, the same
    without ".png" for the export, so a PNG download carries the name of
    the file.  The image becomes the source image, the candidate is
    dropped and the session is reset.  Without a candidate nothing
    changes. *)
Theorem accepted_image_names (decode : string -> Image) (s : Studio)
  (a : Ai.t) :
  let base := splitFirst "." (orElse (fileName s) "generated") in
  let r := handleAcceptGeneratedImage decode s a in
  (present (Ai.generatedImage a) = false -> r = (s, a))
  /\ (forall url,
        Ai.generatedImage a = Some url -> truthy url = true ->
        Ai.generatedImage (snd r) = None
        /\ originalImage (fst r) = Some (decode url)
        /\ fileName (fst r) = (base ++ "-ai-edit.png")%string
        /\ exportFileName (fst r) = (base ++ "-ai-edit")%string
        /\ downloadName (exportFileName (fst r)) png = fileName (fst r)
        /\ freshlyReset (fst r)).
Proof.
  intros base r. subst r. unfold handleAcceptGeneratedImage. split.
  { destruct (Ai.generatedImage a) as [url |]; [| reflexivity].
    cbn [present]. now intros ->. }
  intros url -> ->. cbv zeta. cbn [fst snd Ai.generatedImage]. fold base.
  assert (Hx : jsSubstring 0 (lastIndexOf "." (base ++ "-ai-edit.png"))
                 (base ++ "-ai-edit.png")
               = (base ++ "-ai-edit")%string).
  { replace (base ++ "-ai-edit.png")%string
      with ((base ++ "-ai-edit") ++ String "."%char "png")%string
      by (rewrite string_app_assoc; reflexivity).
    rewrite (lastIndexOf_last "."%char (base ++ "-ai-edit") "png").
    - apply jsSubstring_head.
    - unfold lacks. cbn. intuition discriminate. }
  rewrite Hx.
  match goal with
  | |- context [flush s (resetEdits _ ?p)] =>
      pose proof (resetEdits_fresh s p) as Hf;
      assert (Hq : originalImage (flush s (resetEdits INITIAL_EDIT_STATE p))
                   = Some (decode url)
                   /\ fileName (flush s (resetEdits INITIAL_EDIT_STATE p))
                      = (base ++ "-ai-edit.png")%string
                   /\ exportFileName
                        (flush s (resetEdits INITIAL_EDIT_STATE p))
                      = (base ++ "-ai-edit")%string)
  end.
  { rewrite flush_replaced by (now destruct s).
    match goal with |- context [restoreEffect ?x] => set (q := x) end.
    assert (Hr : restoreEffect q = q)
      by (unfold restoreEffect; subst q; now destruct s).
    rewrite Hr. subst q. now destruct s. }
  destruct Hq as (H1 & H2 & H3).
  split; [reflexivity |]. split; [exact H1 |]. split; [exact H2 |].
  split; [exact H3 |]. split; [| exact Hf].
  rewrite H2, H3. unfold downloadName, orElse.
  assert (Ht : truthy (base ++ "-ai-edit") = true) by now destruct base.
  rewrite Ht. cbn [formatName]. now rewrite string_app_assoc.
Qed.

(** *** The generation panel *)

Lemma requestParts_append (prompt : string) (images : list (option string)) :
  requestParts prompt images = imageParts images ++ [TextPart prompt].
Proof.
  unfold requestParts. cbv zeta. rewrite last_snoc. cbn [isInlineData].
  now rewrite andb_false_r.
Qed.

Lemma handleSubmit_cases (generateContent : list Part -> Reply)
  (toDataURL : list cmd -> string) (s : Studio)
  (overridePrompt : option string)
  (overrideImages : option (list (option string))) (a : Ai.t) :
  let currentPrompt :=
    match overridePrompt with
    | Some o => orElse o (Ai.prompt a)
    | None => Ai.prompt a
    end in
  let images :=
    match overrideImages with
    | Some images => images
    | None =>
        [match originalImage s with
         | Some _ => canvasDataURL toDataURL s
         | None => None
         end]
    end in
  let r :=
    handleSubmit generateContent toDataURL s overridePrompt overrideImages a in
  (currentPrompt = EmptyString
   /\ r = (Ai.mk (Ai.prompt a) (Ai.isLoading a)
             (Some "Please enter a prompt.") (Ai.generatedImage a), []))
  \/ (currentPrompt <> EmptyString
      /\ snd r = [requestParts currentPrompt images]
      /\ ((exists url,
             editOrCreateImage generateContent currentPrompt images
             = Returned url
             /\ fst r = Ai.mk (Ai.prompt a) false None (Some url))
          \/ (exists t,
                editOrCreateImage generateContent currentPrompt images
                = Threw t
                /\ fst r
                   = Ai.mk (Ai.prompt a) false
                       (Some ("Failed to generate image: "
                              ++ errorMessage t)%string) None))).
Proof.
  intros currentPrompt images r. subst r. unfold handleSubmit.
  fold currentPrompt. cbv zeta. fold images.
  destruct currentPrompt as [| c rest] eqn:E.
  - left. split; reflexivity.
  - right. split; [discriminate |].
    cbn [truthy negb]. rewrite andb_false_r.
    destruct (editOrCreateImage generateContent (String c rest) images)
      as [url | t] eqn:Ho.
    + split; [reflexivity |]. left. exists url. split; reflexivity.
    + split; [reflexivity |]. right. exists t. split; reflexivity.
Qed.

(** X17.  A submission ends in one of three ways.  With an empty prompt
    no request is sent and the message asks for a prompt.  Otherwise
    exactly one request is sent, loading ends, and either the returned
    image is stored with the message cleared, or the image is cleared
    and the message is the failure text with the reason.  The message
    that asks for an image or a prompt is never shown. *)
Theorem submit_outcomes (generateContent : list Part -> Reply)
  (toDataURL : list cmd -> string) (s : Studio)
  (overridePrompt : option string)
  (overrideImages : option (list (option string))) (a : Ai.t) :
  let currentPrompt :=
    match overridePrompt with
    | Some o => orElse o (Ai.prompt a)
    | None => Ai.prompt a
    end in
  let r :=
    handleSubmit generateContent toDataURL s overridePrompt overrideImages a in
  ((currentPrompt = EmptyString
    /\ snd r = []
    /\ fst r = Ai.mk (Ai.prompt a) (Ai.isLoading a)
                 (Some "Please enter a prompt.") (Ai.generatedImage a))
   \/ (currentPrompt <> EmptyString
       /\ List.length (snd r) = 1%nat
       /\ Ai.isLoading (fst r) = false
       /\ Ai.prompt (fst r) = Ai.prompt a
       /\ ((exists url,
              Ai.generatedImage (fst r) = Some url
              /\ Ai.error (fst r) = None)
           \/ (exists reason,
                 Ai.generatedImage (fst r) = None
                 /\ Ai.error (fst r)
                    = Some ("Failed to generate image: " ++ reason)%string))))
  /\ Ai.error (fst r)
     <> Some "Please upload an image or enter a prompt to create one.".
Proof.
  intros currentPrompt r.
  destruct (handleSubmit_cases generateContent toDataURL s overridePrompt
              overrideImages a) as [[He Hr] | (Hn & Hs & Hc)];
    fold currentPrompt in He || fold currentPrompt in Hn; fold r in Hr || fold r in Hs.
  - rewrite Hr. split; [| discriminate].
    left. split; [exact He |]. split; reflexivity.
  - fold currentPrompt in Hc. fold r in Hc.
    destruct Hc as [(url & _ & Hf) | (t & _ & Hf)]; rewrite Hf, Hs.
    + split; [| discriminate]. right. split; [exact Hn |].
      do 3 (split; [reflexivity |]). left. exists url. split; reflexivity.
    + split; [| discriminate]. right. split; [exact Hn |].
      do 3 (split; [reflexivity |]). right. exists (errorMessage t).
      split; reflexivity.
Qed.

Lemma maskStroke_short (path : Path.t) :
  (List.length (Path.points path) <? 2)%nat = true -> maskStroke path = [].
Proof. intros H. unfold maskStroke. now rewrite H. Qed.

Lemma flat_map_maskStroke (l : list Path.t) :
  flat_map maskStroke l
  = flat_map maskStroke
      (filter (fun p => negb (List.length (Path.points p) <? 2)%nat) l).
Proof.
  induction l as [| p l IH]; [reflexivity |].
  cbn [flat_map filter].
  destruct (List.length (Path.points p) <? 2)%nat eqn:E; cbn [negb].
  - now rewrite (maskStroke_short p E).
  - cbn [flat_map]. now rewrite IH.
Qed.

(** X18.  Applying the removal without an image or without a mask
    stroke does nothing.  Otherwise, when the encoder never gives an
    empty string, one request is sent: the canvas, then a mask of the
    size of the canvas, then the fixed prompt; strokes of fewer than two
    points leave no trace on the mask.  Whatever the answer, the mask
    strokes are cleared afterwards, nothing else of the editor changes,
    and loading has ended. *)
Theorem remove_request (generateContent : list Part -> Reply)
  (toDataURL : list cmd -> string) (s : Studio) (a : Ai.t) :
  (forall content, truthy (toDataURL content) = true) ->
  let r := handleApplyRemove generateContent toDataURL s a in
  ((originalImage s = None \/ removeMask s = []) -> r = (s, a, []))
  /\ (forall image,
        originalImage s = Some image -> removeMask s <> [] ->
        let current := toDataURL (canvasContent (render s image)) in
        let width := canvasWidth image (transforms s) in
        let height := canvasHeight image (transforms s) in
        let mask := toDataURL (maskCanvas width height (removeMask s)) in
        snd r
        = [[ InlineData (splitSecond "," current) (getMimeType current);
             InlineData (splitSecond "," mask) (getMimeType mask);
             TextPart REMOVE_PROMPT ]]
        /\ maskCanvas width height (removeMask s)
           = maskCanvas width height
               (filter
                  (fun p => negb (List.length (Path.points p) <? 2)%nat)
                  (removeMask s))
        /\ fst (fst r) = setRemoveMask [] s
        /\ Ai.isLoading (snd (fst r)) = false).
Proof.
  intros Henc r. subst r. unfold handleApplyRemove. split.
  { intros [H | H]; rewrite H; [reflexivity |].
    now destruct (originalImage s). }
  intros image Hi Hm. rewrite Hi.
  set (current := toDataURL (canvasContent (render s image))).
  set (width := canvasWidth image (transforms s)).
  set (height := canvasHeight image (transforms s)).
  set (mask := toDataURL (maskCanvas width height (removeMask s))).
  assert (Hz : (List.length (removeMask s) =? 0)%nat = false)
    by (destruct (removeMask s); [contradiction | reflexivity]).
  rewrite Hz.
  assert (Hc : canvasDataURL toDataURL s = Some current).
  { unfold canvasDataURL, renderEffect. now rewrite Hi. }
  assert (Htc : truthy current = true) by apply Henc.
  assert (Htm : truthy mask = true) by apply Henc.
  rewrite Hc. cbn [orNull]. rewrite Htc.
  pose proof (handleSubmit_cases generateContent toDataURL s
                (Some REMOVE_PROMPT) (Some [Some current; Some mask]) a)
    as Hs.
  cbv beta iota zeta in Hs.
  assert (Ho : orElse REMOVE_PROMPT (Ai.prompt a) = REMOVE_PROMPT)
    by reflexivity.
  rewrite Ho in Hs.
  destruct (handleSubmit generateContent toDataURL s (Some REMOVE_PROMPT)
              (Some [Some current; Some mask]) a) as [a' sent] eqn:Eh.
  cbn [fst snd] in Hs |- *.
  destruct Hs as [[He _] | (_ & Hsent & Hcase)]; [discriminate He |].
  split.
  { rewrite Hsent, requestParts_append. cbn [imageParts].
    rewrite Htc, Htm. reflexivity. }
  split.
  { unfold maskCanvas. f_equal. apply flat_map_maskStroke. }
  split.
  { rewrite flush_untouched; [reflexivity | reflexivity | now destruct s]. }
  destruct Hcase as [(url & _ & ->) | (t & _ & ->)]; reflexivity.
Qed.

(** *** The text playground *)

Lemma append_empty_r (a : string) : (a ++ EmptyString)%string = a.
Proof. induction a as [| c a IH]; cbn; [reflexivity | now rewrite IH]. Qed.

Lemma plus_append (prev : string) (chunk : option string) :
  plus prev chunk = (prev ++ plus EmptyString chunk)%string.
Proof. now destruct chunk. Qed.

Lemma fold_onChunk (l : list (option string)) (p : TextPlayground.t) :
  fold_left TextPlayground.onChunk l p
  = TextPlayground.mk (TextPlayground.prompt p)
      (TextPlayground.result p ++ joined l)
      (TextPlayground.isLoading p) (TextPlayground.error p).
Proof.
  revert p. induction l as [| c l IH]; intros p.
  - cbn. rewrite append_empty_r. now destruct p.
  - cbn [fold_left joined fold_right]. rewrite IH.
    unfold TextPlayground.onChunk. cbn.
    now rewrite (plus_append (TextPlayground.result p) c), string_app_assoc.
Qed.

(** X19.  With a prompt, a submission of the text playground replaces
    the old result by the texts of the chunks received, joined in
    order, also when the stream fails on the way: then the chunks
    received so far stay and the message is the failure text with the
    reason.  Loading has ended either way.  With an empty prompt only
    the message changes. *)
Theorem stream_concatenates (generateContentStream : string -> Stream)
  (p : TextPlayground.t) :
  let p' := TextPlayground.handleSubmit generateContentStream p in
  let response := generateContentStream (TextPlayground.prompt p) in
  (TextPlayground.prompt p = EmptyString ->
   p' = TextPlayground.mk EmptyString (TextPlayground.result p)
          (TextPlayground.isLoading p) (Some "Please enter a prompt."))
  /\ (TextPlayground.prompt p <> EmptyString ->
      TextPlayground.result p' = joined (chunks response)
      /\ TextPlayground.isLoading p' = false
      /\ TextPlayground.prompt p' = TextPlayground.prompt p
      /\ TextPlayground.error p'
         = match ending response with
           | Completed => None
           | Failed t =>
               Some ("Failed to generate text: " ++ errorMessage t)%string
           end).
Proof.
  intros p' response. subst p'. unfold TextPlayground.handleSubmit. split.
  - intros E. now rewrite E.
  - intros Hn.
    destruct (TextPlayground.prompt p) as [| c rest] eqn:E;
      [contradiction |].
    cbn [truthy negb]. unfold generateTextStream. cbv zeta.
    rewrite fold_onChunk. fold response.
    destruct (ending response); cbn; auto.
Qed.

(** *** The timer and the edits made while it is pending *)

Lemma alike_refl (a : Studio) : alike a a.
Proof. repeat split. Qed.

Lemma fixedPart_written (w : Write) (h : list EditState.t) :
  map fixedPart (map (writeSnapshot w) h) = map fixedPart h.
Proof. rewrite map_map. apply map_ext. now intros []. Qed.

Lemma alike_write (w : Write) (a b : Studio) :
  alike a b -> alike a (write w b).
Proof.
  intros (Hh & Hi & Hc).
  destruct (write_cells w b) as (_ & _ & _ & Eh).
  destruct (write_rest w b) as (Ei & _ & Ea & Et & Ex & _).
  unfold alike. rewrite Eh, Ei, fixedPart_written.
  split; [exact Hh |]. split; [exact Hi |].
  rewrite <- Hc. unfold fixedPart, current. cbn. now rewrite Ea, Et, Ex.
Qed.

Lemma slice0_map {A B : Type} (f : A -> B) (l : list A) (e : Z) :
  map f (slice0 l e) = slice0 (map f l) e.
Proof. unfold slice0. now rewrite length_map, firstn_map. Qed.

(** The timer of a slider move while other events of the component
    follow: the closure only changes by writes in place, and not at all
    when the pointer does not move. *)
Lemma pageRun_acts (es : list Event) (pg pg1 : Page) (id d : Z)
  (c : Studio) (a : option Adjustments.t) :
  let ns := PartialEditState.mk a None None None None in
  timers pg = [mkTimer id d c ns] ->
  pageRun pg (map Act es) = Some pg1 ->
  exists c',
    timers pg1 = [mkTimer id d c' ns]
    /\ alike c c'
    /\ (pointerStill es -> c' = c).
Proof.
  intros ns. revert pg c. induction es as [| e es IH]; intros pg c Ht H.
  - cbn in H. injection H as <-. exists c.
    split; [exact Ht |]. split; [apply alike_refl | reflexivity].
  - cbn [map pageRun pageStep] in H.
    destruct (step (studio pg) e) as [s |]; [| discriminate].
    destruct (writes (studio pg) e) as [w |] eqn:Ew.
    + assert (Ht' : timers
                      (mkPage s (now pg) (map (writeTimer w) (timers pg))
                         (lastTimerId pg))
                    = [mkTimer id d (write w c) ns])
        by (cbn [timers]; rewrite Ht; reflexivity).
      destruct (IH _ (write w c) Ht' H) as (c' & Ht1 & Ha & _).
      exists c'. split; [exact Ht1 |]. split.
      * destruct Ha as (Hh & Hi & Hc).
        destruct (alike_write w c c (alike_refl c)) as (Wh & Wi & Wc).
        unfold alike. rewrite Hh, Hi, Hc. repeat split; assumption.
      * intros Hstill. exfalso. destruct e; try discriminate.
        apply (Hstill coords). now left.
    + destruct (IH (mkPage s (now pg) (timers pg) (lastTimerId pg)) c Ht H)
        as (c' & Ht1 & Ha & Hs).
      exists c'. split; [exact Ht1 |]. split; [exact Ha |].
      intros Hstill. apply Hs. intros coords Hin.
      apply (Hstill coords). now right.
Qed.

Lemma handleSlider_timer (key : Adjustment) (value : Q) (pg : Page) :
  timers pg = [] ->
  exists id,
    timers (handleSlider key value pg)
    = [mkTimer id (now pg + 400) (studio pg)
         (PartialEditState.mk
            (Some (withAdjustment (adjustments (studio pg)) key value))
            None None None None)]
    /\ now (handleSlider key value pg) = now pg.
Proof.
  intros Ht. unfold handleSlider, recordHistoryWithDebounce. cbv zeta.
  destruct (historyTimeoutRef (studio pg)) as [id |].
  - destruct (id =? 0).
    + cbn [timers now]. rewrite Ht. eexists. split; reflexivity.
    + unfold clearTimeout. cbn [timers now lastTimerId]. rewrite Ht.
      eexists. split; reflexivity.
  - cbn [timers now]. rewrite Ht. eexists. split; reflexivity.
Qed.

(** X20.  The commit of a slider move is made from the render in which
    the slider moved.  When no timer is pending, the slider is moved,
    and other events of the component follow before the timer fires,
    then after the timer the history is the one of before the slider
    move, cut after its index, with one entry added: the edit state of
    then with the new adjustments.  That entry is displayed and no timer
    is left; what the events in between committed is gone from the
    history.  This holds for the adjustments, the transforms and the
    texts of every snapshot whatever the events were, and for the whole
    snapshots when the pointer did not move in between: a pointer move
    can write in place to paths and shapes that those snapshots hold. *)
Theorem timer_commits_from_its_render (pg pg1 : Page) (key : Adjustment)
  (value : Q) (es : list Event) (t : Z) :
  timers pg = [] ->
  pageRun (handleSlider key value pg) (map Act es) = Some pg1 ->
  now pg + 400 <= t ->
  let s := studio pg in
  let entry :=
    spread (current s)
      (PartialEditState.mk (Some (withAdjustment (adjustments s) key value))
         None None None None) in
  let expected := slice0 (history s) (historyIndex s + 1) ++ [entry] in
  let after := studio (advance t pg1) in
  map fixedPart (history after) = map fixedPart expected
  /\ fixedPart (current after) = fixedPart entry
  /\ historyIndex after = Z.of_nat (List.length expected) - 1
  /\ timers (advance t pg1) = []
  /\ (pointerStill es -> history after = expected /\ current after = entry).
Proof.
  intros Ht Hrun Hle s entry expected after.
  destruct (handleSlider_timer key value pg Ht) as (id & Htm & _).
  destruct (pageRun_acts es _ pg1 _ _ _ _ Htm Hrun) as (c & Ht1 & Ha & Hs).
  fold s in Ht1, Ha, Hs.
  subst after. unfold advance. rewrite Ht1. cbn [filter due].
  destruct (Z.leb_spec (now pg + 400) t) as [_ | Hlt]; [| lia].
  cbn [negb fold_left].
  match goal with
  | |- context [fire ?tm ?p] =>
      destruct (fire_history tm p) as (Hh & Hi & Hc)
  end.
  cbn [closure newStates] in Hh, Hi, Hc.
  destruct Ha as (Ah & Ai & Ac).
  assert (He : fixedPart
                 (spread (current c)
                    (PartialEditState.mk
                       (Some (withAdjustment (adjustments s) key value))
                       None None None None))
               = fixedPart entry).
  { injection Ac as _ E2 E3. subst entry. unfold fixedPart, spread. cbn.
    now rewrite E2, E3. }
  split.
  { rewrite Hh. subst expected. rewrite !map_app, !slice0_map, Ah, Ai.
    cbn [map]. now rewrite He. }
  split; [now rewrite Hc |].
  split.
  { rewrite Hi. subst expected. rewrite !length_app.
    f_equal. f_equal. f_equal.
    rewrite <- (length_map fixedPart), slice0_map, Ah, Ai.
    now rewrite <- slice0_map, length_map. }
  split; [reflexivity |].
  intros Hstill. specialize (Hs Hstill). subst c.
  split; [exact Hh | exact Hc].
Qed.
(** * Instances *)


Lemma commit_truncates_witness :
  let s := handleUndo (rotateRight (rotateRight loaded)) in
  let a :=
    PartialEditState.mk None (Some (Transforms.mk 0 (Flip.mk true false)))
      None None None in
  truncatedAt s (commit a s) (spread (current s) a)
  /\ historyIndex (commit a s)
     = Z.of_nat (List.length (history (commit a s))) - 1
  /\ handleRedo (commit a s) = commit a s.
Proof.
  apply commit_truncates. vm_compute. discriminate.
Defined.

Lemma debounce_coalesces_witness :
  let before := fold_left call drag idle in
  let shown := current (studio before) in
  let after := advance 1700 (call before release) in
  history (studio after)
  = slice0 (history (studio idle)) (historyIndex (studio idle) + 1)
    ++ [spread shown (arg release shown)]
  /\ carries (arg release shown) (spread shown (arg release shown)).
Proof.
  assert (H1 : timers idle = []) by reflexivity.
  assert (H2 : 0 <= lastTimerId idle) by (cbn; lia).
  assert (H3 : burst (now idle) (drag ++ [release])) by (cbn; lia).
  assert (H4 : when release + 400 <= 1700) by (cbn; lia).
  destruct (debounce_coalesces idle drag release 1700 H1 H2 H3 H4)
    as (_ & _ & Hh & Hc & _).
  split; [exact Hh | exact Hc].
Defined.

Lemma crop_applied_or_ignored_witness :
  (exists cropped,
     originalImage (handleApplyCrop framedBetween) = Some cropped
     /\ naturalWidth cropped = 42%Q
     /\ naturalHeight cropped = 52%Q)
  /\ current (handleApplyCrop framedBetween) = INITIAL_EDIT_STATE
  /\ history (handleApplyCrop framedBetween) = [INITIAL_EDIT_STATE]
  /\ historyIndex (handleApplyCrop framedBetween) = 0.
Proof.
  assert (H1 : cropRect framedBetween = Some (Rect.mk 10 10 (212 # 5) 52))
    by (vm_compute; reflexivity).
  assert (H2 : originalImage framedBetween = Some photo)
    by (vm_compute; reflexivity).
  destruct (proj1 (crop_applied_or_ignored framedBetween
                     (Rect.mk 10 10 (212 # 5) 52) photo H1 H2))
    as ((cropped & Ho & Hsize & _) & Hrest);
    [split; reflexivity |].
  split; [| exact Hrest].
  exists cropped. split; [exact Ho |].
  destruct Hsize as (Hw & Hh & _);
    [repeat split; vm_compute; discriminate |].
  split; [exact Hw | exact Hh].
Defined.

Lemma pointer_up_commits_witness :
  history (handleMouseUpOrLeave grabbed)
  = slice0 (history grabbed) (historyIndex grabbed + 1) ++ [current grabbed].
Proof.
  assert (H1 : isDrawing grabbed = true) by (vm_compute; reflexivity).
  assert (H2 : closing grabbed)
    by (right; right; split; vm_compute; reflexivity).
  exact (proj1 (proj1 (pointer_up_commits grabbed H1) H2)).
Defined.

Lemma select_hit_test_witness :
  selectedElement grabbed <> None /\ isDragging grabbed = true.
Proof.
  assert (H1 : activeTool (setActiveTool (Some select) sketched) = Some select)
    by (vm_compute; reflexivity).
  apply (proj1
           (proj2
              (proj2
                 (proj2
                    (proj2
                       (select_hit_test (setActiveTool (Some select) sketched)
                          (Point.mk 20 20) "2" H1)))))).
  exists (ShapeElement.mk rectangle 10 10 50 40 "#4285F4" 4 "1" 1%nat).
  split; [vm_compute; auto | repeat split].
Defined.

Lemma canvas_extent_witness :
  hd_error (drawn (render loaded photo))
  = Some (SetCanvasSize (Q2R 100) (Q2R 100)).
Proof.
  apply (proj2 (proj2 (canvas_extent loaded photo))).
  vm_compute. reflexivity.
Defined.

Lemma shape_drag_translates_witness :
  exists s',
    handleMouseMove grabbed (Some (Point.mk 30 35)) = Some s'
    /\ List.length (shapes s') = List.length (shapes grabbed)
    /\ history s' = history grabbed.
Proof.
  assert (H1 : isDrawing grabbed = true) by (vm_compute; reflexivity).
  assert (H2 : activeTool grabbed = Some select) by (vm_compute; reflexivity).
  assert (H3 : isDragging grabbed = true) by (vm_compute; reflexivity).
  assert (H4 : selectedElement grabbed
               = Some (Selection.mk shape_element "1"))
    by (vm_compute; reflexivity).
  destruct (shape_drag_translates grabbed (Point.mk 30 35)
              (Selection.mk shape_element "1") H1 H2 H3 H4 eq_refl)
    as (s' & Hm & Hl & _ & _ & _ & _ & _ & Hh & _).
  exists s'. repeat split; assumption.
Defined.

Lemma short_path_draws_nothing_witness :
  render dotted photo = render (setPaths [] dotted) photo.
Proof.
  apply (proj1 (short_path_draws_nothing dotted photo) []
           (Path.mk [Point.mk 5 5] "#ffffff" 5 "1" 1%nat) []).
  - vm_compute. reflexivity.
  - cbn. lia.
Defined.

Lemma undo_reverts_commit_witness :
  current (handleUndo (rotateRight loaded)) = INITIAL_EDIT_STATE
  /\ historyIndex (handleUndo (rotateRight loaded)) = historyIndex loaded.
Proof.
  assert (H1 : 0 <= historyIndex loaded) by (vm_compute; discriminate).
  assert (H2 : nth_error (history loaded) (Z.to_nat (historyIndex loaded))
               = Some INITIAL_EDIT_STATE) by (vm_compute; reflexivity).
  apply (proj1 (proj2 (undo_reverts_commit loaded INITIAL_EDIT_STATE H1 H2))
           rotateRight).
  right. left. reflexivity.
Defined.

Lemma add_text_witness :
  let s :=
    setCurrentText "Hi"
      (handleMouseDown (setActiveTool (Some text) loaded)
         (Some (Point.mk 15 25)) "1") in
  texts (handleAddText s "2")
  = [TextElement.mk "Hi" 15 25 "#ffffff" 32 "2" false "#000000" 2]
  /\ List.length (history (handleAddText s "2")) = 2%nat
  /\ currentText (handleAddText s "2") = EmptyString.
Proof.
  intros s.
  assert (H1 : textPosition s = Some (Point.mk 15 25))
    by (vm_compute; reflexivity).
  assert (H2 : ~ blank (currentText s)).
  { intros H. specialize (H "H"%char (or_introl eq_refl)).
    vm_compute in H. discriminate H. }
  pose proof (proj2 (add_text s "2") (Point.mk 15 25) H1 H2) as X.
  cbv zeta in X. destruct X as (Hc & Hh & _ & Ht & _).
  split; [| split; [| exact Ht]].
  - apply (f_equal EditState.texts) in Hc. exact Hc.
  - rewrite Hh. vm_compute. reflexivity.
Defined.

Lemma crop_drag_rectangle_witness :
  let s :=
    handleMouseDown (setActiveTool (Some crop) loaded)
      (Some (Point.mk 60 10)) "1" in
  exists s' r,
    handleMouseMove s (Some (Point.mk 10 60)) = Some s'
    /\ cropRect s' = Some r
    /\ (Rect.x r == 10 /\ Rect.y r == 10
        /\ Rect.x r + Rect.width r == 60
        /\ Rect.y r + Rect.height r == 60)%Q
    /\ history s' = history s.
Proof.
  intros s.
  assert (H1 : isDrawing s = true) by (vm_compute; reflexivity).
  assert (H2 : activeTool s = Some crop) by (vm_compute; reflexivity).
  assert (H3 : startPoint s = Some (Point.mk 60 10))
    by (vm_compute; reflexivity).
  destruct (crop_drag_rectangle s (Point.mk 60 10) (Point.mk 10 60) H1 H2 H3)
    as (s' & r & Hm & Hr & (Hx & Hy & Hxw & Hyh & _) & _ & Hh & _).
  exists s', r. repeat split; assumption.
Defined.

Lemma freehand_stroke_witness :
  let s := setActiveTool (Some draw) loaded in
  exists s1,
    moves (handleMouseDown s (Some (Point.mk 5 5)) "1")
      [Point.mk 6 7; Point.mk 9 9] = Some s1
    /\ paths s1
       = paths s
         ++ [Path.mk [Point.mk 5 5; Point.mk 6 7; Point.mk 9 9]
               (brushColor (options s)) (brushSize (options s)) "1"
               (newObj s)].
Proof.
  intros s.
  assert (H : activeTool s = Some draw) by (vm_compute; reflexivity).
  pose proof (freehand_stroke s (Point.mk 5 5) [Point.mk 6 7; Point.mk 9 9]
                "1" H) as X.
  cbv zeta in X. destruct X as (s1 & Hm & Hp & _).
  exists s1. split; assumption.
Defined.

Lemma mask_stroke_witness :
  let s := setActiveTool (Some remove) loaded in
  exists s1,
    moves (handleMouseDown s (Some (Point.mk 5 5)) "1") [Point.mk 9 9]
    = Some s1
    /\ history (handleMouseUpOrLeave s1) = history s.
Proof.
  intros s.
  assert (H : activeTool s = Some remove) by (vm_compute; reflexivity).
  pose proof (mask_stroke s (Point.mk 5 5) [Point.mk 9 9] "1" H) as X.
  cbv zeta in X. destruct X as (s1 & Hm & _ & _ & Hh & _).
  exists s1. split; assumption.
Defined.

Lemma rubber_band_shape_witness :
  let s := setActiveTool (Some shape) loaded in
  exists s1,
    moves (handleMouseDown s (Some (Point.mk 10 10)) "1")
      [Point.mk 30 20; Point.mk 50 40] = Some s1
    /\ history s1 = history s.
Proof.
  intros s.
  assert (H : activeTool s = Some shape) by (vm_compute; reflexivity).
  pose proof (rubber_band_shape s (Point.mk 10 10)
                [Point.mk 30 20; Point.mk 50 40] "1" H) as X.
  cbv zeta in X. destruct X as (s1 & Hm & _ & Hh & _).
  exists s1. split; assumption.
Defined.

Lemma drag_follows_pointer_witness :
  let s := setActiveTool (Some select) sketched in
  exists s2 e',
    handleMouseMove (handleMouseDown s (Some (Point.mk 20 20)) "2")
      (Some (Point.mk 30 35)) = Some s2
    /\ nth_error (shapes s2) 0 = Some e'
    /\ (ShapeElement.x1 e' == 20 /\ ShapeElement.y1 e' == 25)%Q
    /\ ShapeElement.type e' = rectangle
    /\ ShapeElement.color e' = "#4285F4".
Proof.
  intros s.
  assert (H : activeTool s = Some select) by (vm_compute; reflexivity).
  pose proof (drag_follows_pointer s (Point.mk 20 20) (Point.mk 30 35) "2" H)
    as X.
  cbv zeta in X. destruct X as [_ X].
  destruct (X [] (ShapeElement.mk rectangle 10 10 50 40 "#4285F4" 4 "1" 1%nat)
              [])
    as (s2 & e' & Hm & Hn & (Hx & Hy & _) & Ht & Hc & _).
  - intros t Ht. vm_compute in Ht. contradiction.
  - vm_compute. reflexivity.
  - vm_compute. repeat split; discriminate.
  - intros u [].
  - exists s2, e'. repeat split; assumption.
Defined.

Lemma quarter_turns_witness :
  (Transforms.rotate (transforms (rotateLeft (rotateRight loaded)))
   == Transforms.rotate (transforms loaded))%Q.
Proof.
  pose proof (quarter_turns loaded) as X. cbv zeta in X.
  assert (H1 : (0 <= Transforms.rotate (transforms loaded))%Q)
    by (vm_compute; discriminate).
  assert (H2 : (Transforms.rotate (transforms loaded) < 360)%Q)
    by (vm_compute; reflexivity).
  destruct (X H1 H2) as ((_ & _ & _ & _ & H & _) & _).
  exact H.
Defined.

Lemma at_most_one_timer_witness :
  exists pg',
    pageRun opened
      [ Act (FileLoaded photo "photo.png" "photo");
        Slide brightness 120; Wait 100; Slide brightness 130;
        Act RotateRight; Wait 1000; Act Undo; Slide contrast 90 ]
    = Some pg'
    /\ (List.length (timers pg') <= 1)%nat.
Proof.
  assert (H : oneTimer opened) by (split; [cbn; lia | left; reflexivity]).
  destruct (pageRun opened
              [ Act (FileLoaded photo "photo.png" "photo");
                Slide brightness 120; Wait 100; Slide brightness 130;
                Act RotateRight; Wait 1000; Act Undo; Slide contrast 90 ])
    as [pg' |] eqn:E; [| vm_compute in E; discriminate].
  exists pg'. split; [reflexivity |].
  exact (proj2 (at_most_one_timer _ opened pg' H E)).
Defined.

Lemma index_stays_in_range_witness :
  exists pg',
    pageRun opened
      [ Act (FileLoaded photo "photo.png" "photo"); Act RotateRight;
        Act Undo; Act Redo; Slide brightness 120; Wait 2000 ]
    = Some pg'
    /\ indexBounded (studio pg').
Proof.
  assert (H : oneTimer opened) by (split; [cbn; lia | left; reflexivity]).
  destruct (pageRun opened
              [ Act (FileLoaded photo "photo.png" "photo"); Act RotateRight;
                Act Undo; Act Redo; Slide brightness 120; Wait 2000 ])
    as [pg' |] eqn:E; [| vm_compute in E; discriminate].
  exists pg'. split; [reflexivity |].
  apply (proj1 (index_stays_in_range _ opened pg' H E)).
  vm_compute. reflexivity.
Defined.

Lemma encoded_image_round_trip_witness :
  getMimeType "data:image/png;base64,AAAA" = "image/png"
  /\ splitSecond "," "data:image/png;base64,AAAA" = Some "AAAA".
Proof.
  assert (H1 : lacks ";"%char "image/png")
    by (unfold lacks; cbn; intuition discriminate).
  assert (H2 : lacks ","%char "image/png")
    by (unfold lacks; cbn; intuition discriminate).
  assert (H3 : lacks ","%char "AAAA")
    by (unfold lacks; cbn; intuition discriminate).
  destruct (encoded_image_round_trip "image/png" "AAAA" H1 H2 H3)
    as (_ & Hm & Hs & _).
  split; assumption.
Defined.

Lemma export_name_of_file_witness :
  exportNameOf "holiday.2024.jpeg" = "holiday.2024".
Proof.
  assert (H : lacks "."%char "jpeg")
    by (unfold lacks; cbn; intuition discriminate).
  apply (proj1 (proj2 (export_name_of_file "holiday.2024" "jpeg" H))).
  discriminate.
Defined.

Lemma accepted_image_names_witness :
  let a := Ai.mk "a red door" false None (Some "data:image/png;base64,AAAA") in
  fileName (fst (handleAcceptGeneratedImage (fun _ => photo) loaded a))
  = "photo-ai-edit.png".
Proof.
  intros a.
  destruct (proj2 (accepted_image_names (fun _ => photo) loaded a)
              "data:image/png;base64,AAAA" eq_refl eq_refl)
    as (_ & _ & Hf & _).
  exact Hf.
Defined.

Lemma submit_outcomes_witness :
  Ai.error
    (fst (handleSubmit (fun _ => Response None)
            (fun _ => "data:image/png;base64,AAAA") mounted None None
            (Ai.mk "a red door" false None None)))
  <> Some "Please upload an image or enter a prompt to create one.".
Proof.
  exact (proj2 (submit_outcomes (fun _ => Response None)
                  (fun _ => "data:image/png;base64,AAAA") mounted None None
                  (Ai.mk "a red door" false None None))).
Defined.

Lemma remove_request_witness :
  let s :=
    handleMouseUpOrLeave
      (handleMouseDown (setActiveTool (Some remove) loaded)
         (Some (Point.mk 5 5)) "1") in
  let a := Ai.mk EmptyString false None None in
  fst (fst (handleApplyRemove (fun _ => Rejected OtherValue)
              (fun _ => "data:image/png;base64,AAAA") s a))
  = setRemoveMask [] s.
Proof.
  intros s a.
  assert (H : forall content : list cmd,
            truthy ((fun _ : list cmd => "data:image/png;base64,AAAA") content)
            = true) by (intros; reflexivity).
  assert (H1 : originalImage s = Some photo) by (vm_compute; reflexivity).
  assert (H2 : removeMask s <> []) by (vm_compute; discriminate).
  pose proof (remove_request (fun _ => Rejected OtherValue)
                (fun _ => "data:image/png;base64,AAAA") s a H) as X.
  cbv zeta in X. destruct (proj2 X photo H1 H2) as (_ & _ & Hs & _).
  exact Hs.
Defined.

Lemma stream_concatenates_witness :
  let service :=
    fun _ : string =>
      mkStream [Some "Hel"; None; Some "lo"] (Failed OtherValue) in
  let p := TextPlayground.mk "greet" "old" false None in
  TextPlayground.result (TextPlayground.handleSubmit service p)
  = joined (chunks (service "greet")).
Proof.
  intros service p.
  pose proof (stream_concatenates service p) as X. cbv zeta in X.
  destruct (proj2 X) as (H & _); [discriminate | exact H].
Defined.

Lemma timer_commits_from_its_render_witness :
  exists pg1,
    pageRun (handleSlider brightness 150 idle) (map Act [RotateRight])
    = Some pg1
    /\ List.length (history (studio pg1)) = 2%nat
    /\ history (studio (advance 1000 pg1))
       = [ INITIAL_EDIT_STATE;
           EditState.mk (withAdjustment INITIAL_ADJUSTMENTS brightness 150)
             INITIAL_TRANSFORMS [] [] [] ].
Proof.
  destruct (pageRun (handleSlider brightness 150 idle) (map Act [RotateRight]))
    as [pg1 |] eqn:E; [| vm_compute in E; discriminate].
  exists pg1. split; [reflexivity |]. split.
  - vm_compute in E. injection E as <-. reflexivity.
  - assert (H1 : timers idle = []) by reflexivity.
    assert (H2 : now idle + 400 <= 1000) by (cbn; lia).
    assert (H3 : pointerStill [RotateRight])
      by (intros coords [H | []]; discriminate).
    pose proof (timer_commits_from_its_render idle pg1 brightness 150
                  [RotateRight] 1000 H1 E H2) as X.
    cbv zeta in X. destruct X as (_ & _ & _ & _ & X).
    exact (proj1 (X H3)).
Defined.
